(** * Anichain: the tracking, caching and scheduling core

    A shallow embedding of [anime_backend.py] (RateLimiter, AnimeManager) and
    of the handlers of [anime_gui.py] that decide what is tracked and what the
    countdown label shows, with the properties of the specification stated
    and proved over it.

    Python values are modelled as follows.
    - [str] is a list of Unicode code points ([pystr]).
    - A value decoded from JSON is a [json] tree; operations that Python
      type-checks at run time return a [Res], whose [Raise] carries the
      exception.
    - A [float] is the rational it stands for; each operation of the source
      on floats rounds its exact result with [double], a parameter.
    - Code that talks to the outside (clock, HTTP, files, standard output,
      the download client, dialogs) runs in the monad [M] over a [Sys] state;
      the answers of the outside come from an [Env] oracle. *)

From Stdlib Require Import QArith Lqa String Ascii DecimalString.
From stdpp Require Import base list gmap sorting.

Set Default Proof Using "Type".
Local Open Scope N_scope.

(** ** Text *)

Abbreviation pystr := (list N).

(** A literal of the source, as code points. *)
Definition py (s : string) : pystr := N_of_ascii <$> list_ascii_of_string s.

(** The parts of the Unicode character database the code consults beyond
    ASCII.  They are tables of the Python runtime, not of this repository, so
    they are a parameter of the development. *)
Class UnicodeDB := {
  (** [c.isalnum()] for a code point above 127 *)
  uni_isalnum : N → bool;
  (** the value of a decimal digit above 127 ([\d] of [re], [int()]) *)
  uni_decimal : N → option Z;
  (** [s.lower()] for a string that is not pure ASCII *)
  uni_lower : pystr → pystr
}.

(** The platform, as far as the code can tell: which [os.path] it gets. *)
Class Platform := {
  (** [os.path] is [ntpath] rather than [posixpath] *)
  windows : bool
}.

(** The arithmetic of [float].  A float is modelled by the rational it
    stands for; [double x] is the float nearest to [x], so [a - b] on floats
    is [double (a - b)].  Infinities and NaN are left out: the clock values
    and rates of the program are far from the range where they arise. *)
Class Float64 := {
  double : Q → Q;
  (** rounding never crosses zero *)
  double_nonneg : ∀ x : Q, (0 <= x)%Q → (0 <= double x)%Q
}.

Module Str.

(** [c.isspace()], the set [str.strip()] removes. *)
Definition isspace (c : N) : bool :=
  ((9 <=? c) && (c <=? 13)) || ((28 <=? c) && (c <=? 32))
  || (c =? 133) || (c =? 160) || (c =? 5760)
  || ((8192 <=? c) && (c <=? 8202))
  || (c =? 8232) || (c =? 8233) || (c =? 8239) || (c =? 8287)
  || (c =? 12288).

Definition is_ascii_alnum (c : N) : bool :=
  ((48 <=? c) && (c <=? 57)) || ((65 <=? c) && (c <=? 90))
  || ((97 <=? c) && (c <=? 122)).

Definition isalnum `{UnicodeDB} (c : N) : bool :=
  if c <? 128 then is_ascii_alnum c else uni_isalnum c.

(** The value of a decimal digit, as [\d] and [int()] see it. *)
Definition decimal `{UnicodeDB} (c : N) : option Z :=
  if c <? 128
  then if (48 <=? c) && (c <=? 57) then Some (Z.of_N c - 48)%Z else None
  else uni_decimal c.

Definition ascii_lower (c : N) : N :=
  if (65 <=? c) && (c <=? 90) then c + 32 else c.

(** [s.lower()]: CPython lowers a pure-ASCII string byte by byte and sends
    any other string through the Unicode case tables. *)
Definition lower `{UnicodeDB} (s : pystr) : pystr :=
  if forallb (λ c, c <? 128) s then ascii_lower <$> s else uni_lower s.

Fixpoint lstrip (s : pystr) : pystr :=
  match s with
  | c :: s' => if isspace c then lstrip s' else s
  | [] => []
  end.

Fixpoint rstrip (s : pystr) : pystr :=
  match s with
  | [] => []
  | c :: s' =>
      match rstrip s' with
      | [] => if isspace c then [] else [c]
      | r => c :: r
      end
  end.

Definition strip (s : pystr) : pystr := rstrip (lstrip s).

(** [s.startswith(p)] *)
Fixpoint startswith (p s : pystr) : bool :=
  match p, s with
  | [], _ => true
  | a :: p', b :: s' => (a =? b) && startswith p' s'
  | _ :: _, [] => false
  end.

(** [s.find(sub)]; [None] stands for Python's -1. *)
Fixpoint find (sub s : pystr) : option nat :=
  if startswith sub s then Some 0%nat
  else match s with
       | [] => None
       | _ :: s' => S <$> find sub s'
       end.

(** [sub in s] *)
Definition contains (sub s : pystr) : bool :=
  match find sub s with Some _ => true | None => false end.

(** [s.split(sep)] for a non-empty [sep] (every separator of the source is
    a non-empty literal; Python raises ValueError on an empty one).  The
    fuel is the length of [s]: each cut consumes at least one character. *)
Fixpoint split_fuel (n : nat) (sep s : pystr) : list pystr :=
  match n, find sep s with
  | S n', Some i => take i s :: split_fuel n' sep (drop (i + length sep) s)
  | _, _ => [s]
  end.

Definition split (sep s : pystr) : list pystr := split_fuel (length s) sep s.

(** [s.replace(old, new)] for a non-empty [old]: occurrences are replaced
    left to right and the scan resumes after each one. *)
Fixpoint replace_fuel (n : nat) (old new s : pystr) : pystr :=
  match n, find old s with
  | S n', Some i =>
      take i s ++ new ++ replace_fuel n' old new (drop (i + length old) s)
  | _, _ => s
  end.

Definition replace (old new s : pystr) : pystr :=
  replace_fuel (length s) old new s.

(** [sep.join(l)] *)
Fixpoint join (sep : pystr) (l : list pystr) : pystr :=
  match l with
  | [] => []
  | [x] => x
  | x :: l' => x ++ sep ++ join sep l'
  end.

(** [l[0]] of a list that [split] returned (never empty). *)
Definition first (l : list pystr) : pystr := hd [] l.

End Str.

(** [sub] occurs in [s] as a contiguous block: what [sub in s] decides. *)
Definition occurs (sub s : pystr) : Prop := ∃ a b, s = a ++ sub ++ b.

(** ** Constants of [anime_backend.py] *)

Definition SETTINGS_FILE : pystr := py "settings.txt".
Definition TRACKED_FILE : pystr := py "tracked_anime.txt".
Definition PLACEHOLDER_IMAGE : pystr := py "placeholder.jpg".
Definition CACHE_DIR : pystr := py "image_cache".
Definition MAX_RETRIES : nat := 3.
Definition JIKAN_RATE_LIMIT : Q := 1.

(** ** Title normalisation *)

(** The three clean-up lines at the top of [AnimeManager.fetch_anime_image]. *)
Definition clean_title (title : pystr) : pystr :=
  let clean_title := Str.strip (Str.replace (py "[SubsPlease]") [] title) in
  let clean_title := Str.strip (Str.first (Str.split (py " - ") clean_title)) in
  Str.strip (Str.first (Str.split (py "[") clean_title)).

(** The series name as [MainWindow.on_anime_clicked] derives it. *)
Definition series_name_of (title : pystr) : pystr :=
  Str.first (Str.split (py " - ")
               (Str.strip (Str.replace (py "[SubsPlease]") [] title))).

(** [posixpath.join(a, b)] *)
Definition posix_join (a b : pystr) : pystr :=
  if Str.startswith (py "/") b then b
  else if bool_decide (a = []) || Str.startswith (py "/") (reverse a)
       then a ++ b
       else a ++ py "/" ++ b.

(** "/" and "\", the separators of [ntpath]. *)
Definition nt_sep (c : N) : bool := (c =? 47) || (c =? 92).

(** [ntpath.join(a, b)] for an [a] that names no drive (the one call of the
    source passes [CACHE_DIR]): a [b] that is absolute or names a drive
    replaces [a]; otherwise "\" joins the two unless [a] is empty or ends
    in a separator. *)
Definition nt_join (a b : pystr) : pystr :=
  if match b with c :: _ => nt_sep c | [] => false end then b
  else if match b with _ :: c :: _ => c =? 58 | _ => false end then b
  else if match reverse a with c :: _ => negb (nt_sep c) | [] => false end
       then a ++ [92] ++ b
       else a ++ b.

(** [os.path.join(a, b)] *)
Definition os_path_join `{Platform} (a b : pystr) : pystr :=
  if windows then nt_join a b else posix_join a b.

(** The [safe_title] of [AnimeManager.get_cached_image_path]. *)
Definition safe_title `{UnicodeDB} (title : pystr) : pystr :=
  Str.rstrip
    (List.filter (λ c, Str.isalnum c || bool_decide (c ∈ py " -_")) title).

Definition get_cached_image_path `{UnicodeDB} `{Platform} (title : pystr)
  : pystr :=
  os_path_join CACHE_DIR (safe_title title ++ py ".jpg").

(** ** Python values and exceptions *)

(** The exceptions the modelled code can meet.  Every one of them derives
    from [Exception], so an [except Exception] clause catches it. *)
Inductive exn :=
| ValueError | KeyError | IndexError | TypeError | AttributeError
| ZeroDivisionError | OSError
| RequestException       (* requests: connection errors, HTTPError, bad URL *)
| JSONDecodeError
| APIError               (* qbittorrentapi *)
| UnicodeEncodeError.    (* a text the encoding of a stream cannot take *)

(** The outcome of an expression that may raise. *)
Inductive Res (A : Type) := Ok (a : A) | Raise (e : exn).
Arguments Ok {A} a.
Arguments Raise {A} e.

#[global] Instance Res_ret : MRet Res := @Ok.
#[global] Instance Res_bind : MBind Res := λ A B f m,
  match m with Ok a => f a | Raise e => Raise e end.

(** A [for] loop whose body may raise: the first exception ends the loop. *)
Fixpoint for_each {A S : Type} (l : list A) (body : A → S → Res S) (s : S)
  : Res S :=
  match l with
  | [] => Ok s
  | x :: l' => s' ← body x s; for_each l' body s'
  end.

(** [l.index(x)] *)
Fixpoint list_index (x : pystr) (l : list pystr) : Res Z :=
  match l with
  | [] => Raise ValueError
  | y :: l' => if bool_decide (x = y) then Ok 0%Z
               else i ← list_index x l'; Ok (i + 1)%Z
  end.

(** [str(n)] for an [int]. *)
Definition str_of_int (n : Z) : pystr :=
  py (DecimalString.NilZero.string_of_int (Z.to_int n)).

(** A value decoded by [json.loads] / [response.json()].  A dict lists its
    items in insertion order. *)
#[local] Unset Elimination Schemes.
Inductive json :=
| JNull
| JBool (b : bool)
| JInt (n : Z)
| JFloat (q : Q)
| JStr (s : pystr)
| JList (l : list json)
| JDict (items : list (pystr * json)).
#[local] Set Elimination Schemes.

Module Json.

(** Truth value of [j] in an [if]. *)
Definition truthy (j : json) : bool :=
  match j with
  | JNull => false
  | JBool b => b
  | JInt n => negb (n =? 0)%Z
  | JFloat q => negb (Qeq_bool q 0)
  | JStr s => negb (bool_decide (s = []))
  | JList l => match l with [] => false | _ => true end
  | JDict kv => match kv with [] => false | _ => true end
  end.

Fixpoint assoc (k : pystr) (kv : list (pystr * json)) : option json :=
  match kv with
  | [] => None
  | (k', v) :: kv' => if bool_decide (k = k') then Some v else assoc k kv'
  end.

(** [j[k]] for a string key. *)
Definition getitem (j : json) (k : pystr) : Res json :=
  match j with
  | JDict kv => match assoc k kv with Some v => Ok v | None => Raise KeyError end
  | _ => Raise TypeError
  end.

(** [j[0]] *)
Definition getitem0 (j : json) : Res json :=
  match j with
  | JList (x :: _) => Ok x
  | JList [] => Raise IndexError
  | JStr (c :: _) => Ok (JStr [c])
  | JStr [] => Raise IndexError
  | JDict _ => Raise KeyError
  | _ => Raise TypeError
  end.

(** [j.get(k)] *)
Definition get (j : json) (k : pystr) : Res json :=
  match j with
  | JDict kv => Ok (default JNull (assoc k kv))
  | _ => Raise AttributeError
  end.

(** [j.items()] *)
Definition items (j : json) : Res (list (pystr * json)) :=
  match j with
  | JDict kv => Ok kv
  | _ => Raise AttributeError
  end.

(** The elements a [for x in j] loop visits. *)
Definition iter (j : json) : Res (list json) :=
  match j with
  | JList l => Ok l
  | JDict kv => Ok ((λ p, JStr p.1) <$> kv)
  | JStr s => Ok ((λ c, JStr [c]) <$> s)
  | _ => Raise TypeError
  end.

Definition is_str (s : pystr) (j : json) : bool :=
  match j with JStr s' => bool_decide (s = s') | _ => false end.

(** [s in j] for a string [s]. *)
Definition contains (s : pystr) (j : json) : Res bool :=
  match j with
  | JStr t => Ok (Str.contains s t)
  | JList l => Ok (existsb (is_str s) l)
  | JDict kv => Ok (bool_decide (is_Some (assoc s kv)))
  | _ => Raise TypeError
  end.

End Json.

(** ** [datetime] *)

Record datetime := mk_datetime {
  year : Z; month : Z; day : Z;
  hour : Z; minute : Z; second : Z; microsecond : Z
}.

Record timedelta := mk_timedelta {
  td_days : Z; td_seconds : Z; td_microseconds : Z
}.

Module DateTime.
Local Open Scope Z_scope.

Definition is_leap (y : Z) : bool :=
  (y mod 4 =? 0) && (negb (y mod 100 =? 0) || (y mod 400 =? 0)).

Definition days_in_month (y m : Z) : Z :=
  if (m =? 2) && is_leap y then 29
  else nth (Z.to_nat m) [0; 31; 28; 31; 30; 31; 30; 31; 31; 30; 31; 30; 31] 0.

Definition days_before_year (y : Z) : Z :=
  let y := y - 1 in y * 365 + y / 4 - y / 100 + y / 400.

Definition days_before_month (y m : Z) : Z :=
  nth (Z.to_nat m) [0; 0; 31; 59; 90; 120; 151; 181; 212; 243; 273; 304; 334] 0
  + (if (2 <? m) && is_leap y then 1 else 0).

Definition toordinal (d : datetime) : Z :=
  days_before_year (year d) + days_before_month (year d) (month d) + day d.

(** Monday is 0, Sunday is 6. *)
Definition weekday (d : datetime) : Z := (toordinal d + 6) mod 7.

Definition valid_date (y m d : Z) : bool :=
  (1 <=? y) && (y <=? 9999) && (1 <=? m) && (m <=? 12)
  && (1 <=? d) && (d <=? days_in_month y m).

(** [dt.replace(year=y, month=m, day=d)]: the constructor checks the date
    and raises ValueError when the day does not exist in the month. *)
Definition replace (dt : datetime) (y m d : Z) : Res datetime :=
  if valid_date y m d
  then Ok (mk_datetime y m d (hour dt) (minute dt) (second dt) (microsecond dt))
  else Raise ValueError.

(** Tuples compare lexicographically. *)
Fixpoint lex_lt (a b : list Z) : bool :=
  match a, b with
  | x :: a', y :: b' => (x <? y) || ((x =? y) && lex_lt a' b')
  | [], _ :: _ => true
  | _, [] => false
  end.

(** [a < b] on naive datetimes. *)
Definition lt (a b : datetime) : bool :=
  let key d := [year d; month d; day d; hour d; minute d; second d;
                microsecond d] in
  lex_lt (key a) (key b).

Definition us_per_second : Z := 1000000.
Definition us_per_day : Z := 86400 * us_per_second.

(** [a - b], normalised as [timedelta] does. *)
Definition sub (a b : datetime) : timedelta :=
  let secs d := second d + minute d * 60 + hour d * 3600 in
  let us := ((toordinal a - toordinal b) * 86400 + (secs a - secs b))
            * us_per_second + (microsecond a - microsecond b) in
  mk_timedelta (us / us_per_day)
               (us mod us_per_day / us_per_second)
               (us mod us_per_second).

(** [td.total_seconds()], kept exact in microseconds.  The source takes
    [% (24 * 3600) // 3600] and [% 3600 // 60] of the float; a value with
    six decimals of this size and its nearest double lie on the same side
    of every whole second, so the floors agree. *)
Definition total_microseconds (td : timedelta) : Z :=
  (td_days td * 86400 + td_seconds td) * us_per_second + td_microseconds td.

Section Strptime.
Context `{UnicodeDB}.

(** The ways [(?P<H>2[0-3]|[0-1]\d|\d)] matches at the front of [s], in
    the order the regex engine tries them: value and remainder. *)
Definition match_H (s : pystr) : list (Z * pystr) :=
  (match s with
   | 50%N :: c :: r =>
       if (48 <=? c)%N && (c <=? 51)%N then [(20 + (Z.of_N c - 48), r)] else []
   | _ => []
   end)
  ++ (match s with
      | a :: c :: r =>
          if (48 <=? a)%N && (a <=? 49)%N
          then match Str.decimal c with
               | Some d => [((Z.of_N a - 48) * 10 + d, r)]
               | None => []
               end
          else []
      | _ => []
      end)
  ++ (match s with
      | c :: r => match Str.decimal c with Some d => [(d, r)] | None => [] end
      | _ => []
      end).

(** The same for [(?P<M>[0-5]\d|\d)]. *)
Definition match_M (s : pystr) : list (Z * pystr) :=
  (match s with
   | a :: c :: r =>
       if (48 <=? a)%N && (a <=? 53)%N
       then match Str.decimal c with
            | Some d => [((Z.of_N a - 48) * 10 + d, r)]
            | None => []
            end
       else []
   | _ => []
   end)
  ++ (match s with
      | c :: r => match Str.decimal c with Some d => [(d, r)] | None => [] end
      | _ => []
      end).

(** The first way the whole pattern [H:M] matches a prefix of [s]. *)
Definition match_HM (s : pystr) : option (Z * Z * pystr) :=
  head (omap (λ '(h, r),
                match r with
                | 58%N :: r' =>
                    match match_M r' with
                    | (m, r'') :: _ => Some (h, m, r'')
                    | [] => None
                    end
                | _ => None
                end) (match_H s)).

(** [datetime.strptime(s, "%H:%M")]: ValueError when the pattern does
    not match or when text remains after the match. *)
Definition strptime_HM (s : pystr) : Res datetime :=
  match match_HM s with
  | Some (h, m, []) => Ok (mk_datetime 1900 1 1 h m 0 0)
  | _ => Raise ValueError
  end.
End Strptime.

End DateTime.

(** ** The program state and the outside world *)

(** What a file holds. *)
Inductive file_data :=
| FText (s : pystr)                     (* written through [f.write] *)
| FBytes (b : list N)                   (* written in binary mode *)
| FJson (doc : gmap pystr pystr).       (* the text [json.dump] produces *)

(** An HTTP response of [requests]. *)
Record Response := mk_Response {
  status_code : Z;
  body_json : option json;      (* [None]: the body is not JSON *)
  content : list N
}.

(** An entry of the parsed feed; [get] returns None for a missing key. *)
Record FeedEntry := mk_FeedEntry {
  entry_title : option pystr;
  entry_link : option pystr
}.

(** [qbittorrentapi.Client] *)
Record Client := mk_Client {
  client_host : pystr; client_username : pystr; client_password : pystr
}.

Record RateLimiter := mk_RateLimiter {
  calls_per_second : Q;
  last_call : Q
}.

Record AnimeManager := mk_AnimeManager {
  settings : gmap pystr pystr;
  tracked_anime : list pystr;
  qb_client : option Client;
  jikan_limiter : RateLimiter
}.

(** Lines printed by the backend. *)
Inductive log_line :=
| LogCached (title : pystr)
| LogCachedOk (title : pystr)
| LogFetchError (title : pystr) (attempt : nat) (e : exn)
| LogError (what : pystr) (e : exn).

Inductive box_kind := Information | Warning | Critical.

(** What the program does to the outside, in order. *)
Inductive event :=
| EvHttpGet (url : pystr)
| EvPrint (line : log_line)
| EvWrite (path : pystr) (data : file_data)
| EvFeedParse (url : pystr)
| EvLogin (c : Client)
| EvTorrentsAdd (urls : list (option pystr)) (category : option pystr)
| EvMessageBox (kind : box_kind) (title text : pystr)
| EvSingleShot (msec : Z) (slot : pystr)
| EvStatusText (text : pystr).

Record World := mk_World {
  clock : Q;                          (* seconds, what [time.time()] reads *)
  steps : nat;                        (* questions put to the outside so far *)
  files : gmap pystr file_data;
  trace : list event
}.

Record Sys := mk_Sys { mgr : AnimeManager; world : World }.

(** The answers of the outside.  Each is indexed by [steps], so the same
    question can be answered differently at different moments. *)
Record Env := mk_Env {
  (** time that passes before a clock operation completes: a non-negative
      rational, numerator and denominator *)
  env_lag : nat → N * positive;
  env_utcnow : nat → datetime;
  env_http : nat → pystr → Res Response;
  (** whether [open(path, "w")] succeeds *)
  env_open : nat → pystr → bool;
  env_feed : nat → pystr → Res (list FeedEntry);
  env_login : nat → Client → Res ();
  env_torrents_add : nat → Client → list (option pystr) → option pystr → Res ();
  (** the connection attempts the user makes in a dialog before giving up *)
  env_dialog : nat → list (pystr * pystr * pystr);
  (** the code points above 127 that the encoding of standard output takes *)
  env_stdout : N → bool;
  (** the same for the encoding [open] gives a text file *)
  env_locale : N → bool;
  (** [str(e)] of the exception that is being reported *)
  env_str : nat → exn → pystr
}.

(** Effectful code: a state transformer that may raise. *)
Definition M (A : Type) : Type := Sys → Res A * Sys.

#[global] Instance M_ret : MRet M := λ A a s, (Ok a, s).
#[global] Instance M_bind : MBind M := λ A B f m s,
  match m s with
  | (Ok a, s') => f a s'
  | (Raise e, s') => (Raise e, s')
  end.

Definition lift {A} (r : Res A) : M A := λ s, (r, s).
Definition raise {A} (e : exn) : M A := lift (Raise e).

(** [try: body except Exception as e: handler e] *)
Definition try_except {A} (body : M A) (handler : exn → M A) : M A := λ s,
  match body s with
  | (Ok a, s') => (Ok a, s')
  | (Raise e, s') => handler e s'
  end.

Definition get_mgr : M AnimeManager := λ s, (Ok (mgr s), s).
Definition set_mgr (f : AnimeManager → AnimeManager) : M () := λ s,
  (Ok (), mk_Sys (f (mgr s)) (world s)).
Definition get_world : M World := λ s, (Ok (world s), s).
Definition set_world (f : World → World) : M () := λ s,
  (Ok (), mk_Sys (mgr s) (f (world s))).

Definition set_settings (x : gmap pystr pystr) (m : AnimeManager) :=
  mk_AnimeManager x (tracked_anime m) (qb_client m) (jikan_limiter m).
Definition set_tracked_anime (x : list pystr) (m : AnimeManager) :=
  mk_AnimeManager (settings m) x (qb_client m) (jikan_limiter m).
Definition set_qb_client (x : option Client) (m : AnimeManager) :=
  mk_AnimeManager (settings m) (tracked_anime m) x (jikan_limiter m).
Definition set_jikan_limiter (x : RateLimiter) (m : AnimeManager) :=
  mk_AnimeManager (settings m) (tracked_anime m) (qb_client m) x.

(** One more question has been put to the outside. *)
Definition tick (w : World) : World :=
  mk_World (clock w) (S (steps w)) (files w) (trace w).
Definition emit (e : event) (w : World) : World :=
  mk_World (clock w) (steps w) (files w) (trace w ++ [e]).
Definition advance (d : Q) (w : World) : World :=
  mk_World (clock w + d) (steps w) (files w) (trace w).
Definition store (path : pystr) (data : file_data) (w : World) : World :=
  mk_World (clock w) (steps w) (<[path := data]> (files w)) (trace w).

Definition lag_Q (l : N * positive) : Q := Z.of_N l.1 # l.2.

(** Whether an encoding takes a text: it takes ASCII, as every encoding
    Python gives a stream does, and of the other code points those of
    [table]. *)
Definition encodable (table : N → bool) (text : pystr) : bool :=
  forallb (λ c, (c <? 128)%N || table c) text.

(** The text of a printed line, given [str(e)]. *)
Definition line_text (str_e : exn → pystr) (line : log_line) : pystr :=
  match line with
  | LogCached title => py "Using cached image for " ++ title
  | LogCachedOk title => py "Successfully cached image for " ++ title
  | LogFetchError title attempt e =>
      py "Error fetching image for " ++ title ++ py " (attempt "
      ++ str_of_int (Z.of_nat attempt) ++ py "/"
      ++ str_of_int (Z.of_nat MAX_RETRIES) ++ py "): " ++ str_e e
  | LogError what e => what ++ py ": " ++ str_e e
  end.

(** What [open(path, "w")] leaves of a file before anything is written. *)
Definition truncated (data : file_data) : file_data :=
  match data with FBytes _ => FBytes [] | _ => FText [] end.

Section Effects.
Context `{Float64} (env : Env).

(** [time.time()]: the float nearest to the clock, read once the time
    [env_lag] gives has passed. *)
Definition time_time : M Q :=
  w ← get_world;
  set_world (λ w, tick (advance (lag_Q (env_lag env (steps w))) w));;
  w ← get_world;
  mret (double (clock w)).

(** [time.sleep(d)]: returns after at least [d] seconds; a negative [d]
    is a ValueError. *)
Definition time_sleep (d : Q) : M () :=
  if Qlt_le_dec d 0
  then raise ValueError
  else set_world (λ w, tick (advance (d + lag_Q (env_lag env (steps w))) w)).

(** [datetime.utcnow()] *)
Definition utcnow : M datetime :=
  w ← get_world;
  set_world tick;;
  mret (env_utcnow env (steps w)).

(** [print(text)]: the line goes out whole, or, when standard output cannot
    encode it, not at all and UnicodeEncodeError is raised. *)
Definition print (line : log_line) : M () :=
  w ← get_world;
  if encodable (env_stdout env) (line_text (env_str env (steps w)) line)
  then set_world (emit (EvPrint line))
  else raise UnicodeEncodeError.

(** [os.path.exists(path)] *)
Definition os_path_exists (path : pystr) : M bool :=
  w ← get_world; mret (bool_decide (is_Some (files w !! path))).

(** [with open(path, mode) as f: f.write(data)].  When [open] fails nothing
    has happened.  Once it has succeeded the file is empty; the write then
    stores the data, unless the data are a text that the encoding of the file
    cannot take: UnicodeEncodeError, and the file stays empty.  What
    [json.dump] writes is ASCII. *)
Definition write_file (path : pystr) (data : file_data) : M () :=
  w ← get_world;
  set_world tick;;
  if env_open env (steps w) path
  then match data with
       | FText s =>
           if encodable (env_locale env) s
           then set_world (λ w, emit (EvWrite path data) (store path data w))
           else set_world (store path (truncated data));;
                raise UnicodeEncodeError
       | _ => set_world (λ w, emit (EvWrite path data) (store path data w))
       end
  else raise OSError.

(** [requests.get(url)] *)
Definition requests_get (url : pystr) : M Response :=
  w ← get_world;
  set_world (λ w, emit (EvHttpGet url) (tick w));;
  lift (env_http env (steps w) url).

(** [response.raise_for_status()] *)
Definition raise_for_status (r : Response) : Res () :=
  if ((400 <=? status_code r) && (status_code r <? 600))%Z
  then Raise RequestException else Ok ().

(** [response.json()] *)
Definition response_json (r : Response) : Res json :=
  match body_json r with Some j => Ok j | None => Raise JSONDecodeError end.

(** [settings[key]] *)
Definition setting (key : pystr) : M pystr :=
  m ← get_mgr;
  match settings m !! key with
  | Some v => mret v
  | None => raise KeyError
  end.

End Effects.

(** ** [anime_backend.py] *)

Section Backend.
Context `{UnicodeDB} `{Platform} `{Float64} (env : Env).

(** [RateLimiter.__init__] *)
Definition RateLimiter_init (calls_per_second : Q) : RateLimiter :=
  mk_RateLimiter calls_per_second 0.

(** [RateLimiter.wait]: the value is [self] after the call.  The times are
    floats, and so are the difference, the quotient [1.0 / calls_per_second]
    and the length of the sleep.  The lock is not modelled: the callers
    considered here run on one thread. *)
Definition RateLimiter_wait (self : RateLimiter) : M RateLimiter :=
  current_time ← time_time env;
  let time_since_last_call := double (current_time - last_call self)%Q in
  interval ← lift (if Qeq_bool (calls_per_second self) 0
                   then Raise ZeroDivisionError
                   else Ok (double (1 / calls_per_second self)%Q));
  (if Qlt_le_dec time_since_last_call interval
   then time_sleep env (double (interval - time_since_last_call)%Q)
   else mret ());;
  now ← time_time env;
  mret (mk_RateLimiter (calls_per_second self) now).

(** [self.jikan_limiter.wait()] *)
Definition jikan_wait : M () :=
  m ← get_mgr;
  limiter ← RateLimiter_wait (jikan_limiter m);
  set_mgr (set_jikan_limiter limiter).

Definition save_settings (new_settings : gmap pystr pystr) : M () :=
  write_file env SETTINGS_FILE (FJson new_settings);;
  set_mgr (set_settings new_settings).

Definition save_tracked_anime (tracked : list pystr) : M () :=
  write_file env TRACKED_FILE (FText (Str.join [10] tracked));;
  set_mgr (set_tracked_anime tracked).

(** [data["data"][0]["images"]["jpg"]["large_image_url"]] *)
Definition large_image_url (data : json) : Res json :=
  d ← Json.getitem data (py "data");
  d ← Json.getitem0 d;
  d ← Json.getitem d (py "images");
  d ← Json.getitem d (py "jpg");
  Json.getitem d (py "large_image_url").

(** [requests.get(image_url)] for a value taken from JSON: anything but a
    string is refused by [requests] before any connection is made. *)
Definition requests_get_value (url : json) : M Response :=
  match url with
  | JStr u => requests_get env u
  | _ => raise RequestException
  end.

(** [f"https://api.jikan.moe/v4/anime?q={clean_title}&limit=1"] *)
Definition query_url (clean_title : pystr) : pystr :=
  py "https://api.jikan.moe/v4/anime?q=" ++ clean_title ++ py "&limit=1".

(** The body of the [try] in the retry loop of [fetch_anime_image].
    [Some path] is a [return path]; [None] falls out of the [try]. *)
Definition fetch_attempt (attempt : nat) (clean_title cache_path : pystr)
  : M (option pystr) :=
  jikan_wait;;
  let query_url := query_url clean_title in
  response ← requests_get env query_url;
  lift (raise_for_status response);;
  data ← lift (response_json response);
  found ← lift (d ← Json.get data (py "data");
                if Json.truthy d
                then d' ← Json.getitem data (py "data"); Ok (Json.truthy d')
                else Ok false);
  cached ← (if found : bool
            then image_url ← lift (large_image_url data);
                 if Json.truthy image_url
                 then img_response ← requests_get_value image_url;
                      lift (raise_for_status img_response);;
                      write_file env cache_path (FBytes (content img_response));;
                      print env (LogCachedOk clean_title);;
                      mret (Some cache_path)
                 else mret None
            else mret None);
  match cached with
  | Some path => mret (Some path)
  | None =>
      (if (attempt <? MAX_RETRIES - 1)%nat then time_sleep env 1 else mret ());;
      mret None
  end.

(** One pass of the retry loop: the [try] with its [except Exception]. *)
Definition fetch_try (attempt : nat) (clean_title cache_path : pystr)
  : M (option pystr) :=
  try_except
    (fetch_attempt attempt clean_title cache_path)
    (λ e, print env (LogFetchError clean_title (attempt + 1) e);;
          (if (attempt <? MAX_RETRIES - 1)%nat
           then time_sleep env 1 else mret ());;
          mret None).

(** [for attempt in range(MAX_RETRIES): ...], followed by
    [return PLACEHOLDER_IMAGE]. *)
Fixpoint fetch_retry (attempts : list nat) (clean_title cache_path : pystr)
  : M pystr :=
  match attempts with
  | [] => mret PLACEHOLDER_IMAGE
  | attempt :: rest =>
      r ← fetch_try attempt clean_title cache_path;
      match r with
      | Some path => mret path
      | None => fetch_retry rest clean_title cache_path
      end
  end.

Definition fetch_anime_image (title : pystr) : M pystr :=
  let clean_title := clean_title title in
  let cache_path := get_cached_image_path clean_title in
  cached ← os_path_exists cache_path;
  if cached : bool
  then print env (LogCached clean_title);; mret cache_path
  else fetch_retry (seq 0 MAX_RETRIES) clean_title cache_path.

(** [feedparser.parse(url)] *)
Definition feedparser_parse (url : pystr) : M (list FeedEntry) :=
  w ← get_world;
  set_world (λ w, emit (EvFeedParse url) (tick w));;
  lift (env_feed env (steps w) url).

(** The feed, or [None] when fetching raised. *)
Definition fetch_rss_feed : M (option (list FeedEntry)) :=
  try_except
    (url ← setting (py "rss_url");
     feed ← feedparser_parse url;
     mret (Some feed))
    (λ e, print env (LogError (py "Error fetching RSS feed") e);; mret None).

(** The decoded schedule, or [JNull] (Python's None) when fetching raised. *)
Definition fetch_schedule : M json :=
  try_except
    (response ← requests_get env
                  (py "https://subsplease.org/api/?f=schedule&tz=UTC");
     lift (raise_for_status response);;
     lift (response_json response))
    (λ e, print env (LogError (py "Error fetching schedule") e);; mret JNull).

(** [Client(...).auth_log_in()] *)
Definition auth_log_in (c : Client) : M () :=
  w ← get_world;
  set_world (λ w, emit (EvLogin c) (tick w));;
  lift (env_login env (steps w) c).

Definition setup_qbittorrent : M bool :=
  try_except
    (host ← setting (py "qb_host");
     username ← setting (py "qb_username");
     password ← setting (py "qb_password");
     let c := mk_Client host username password in
     set_mgr (set_qb_client (Some c));;
     auth_log_in c;;
     mret true)
    (λ e, print env (LogError (py "Failed to connect to qBittorrent") e);;
          mret false).

(** [self.qb_client.torrents_add(urls=urls, category=category)] *)
Definition torrents_add (c : Client) (urls : list (option pystr))
    (category : option pystr) : M () :=
  w ← get_world;
  set_world (λ w, emit (EvTorrentsAdd urls category) (tick w));;
  lift (env_torrents_add env (steps w) c urls category).

(** Truth value of an optional string argument: None and "" are false. *)
Definition truthy_arg (x : option pystr) : bool :=
  match x with Some (_ :: _) => true | _ => false end.

(** The search API fails: the call raises or answers with an error status. *)
Definition api_fails (r : Res Response) : Prop :=
  match r with
  | Raise _ => True
  | Ok response => (400 ≤ status_code response < 600)%Z
  end.

Definition add_torrent (link : option pystr) (category : option pystr)
  : M bool :=
  try_except
    (m ← get_mgr;
     match qb_client m with
     | None => mret false
     | Some c =>
         torrents_add c [link]
           (if truthy_arg category then Some (py "Anime") else None);;
         mret true
     end)
    (λ e, print env (LogError (py "Failed to add torrent") e);; mret false).

End Backend.

(** ** [anime_gui.py] *)

(** [any(series_name in anime for anime in tracked)] *)
Definition is_tracked (series_name : pystr) (tracked : list pystr) : bool :=
  existsb (Str.contains series_name) tracked.

(** [[anime for anime in tracked if series_name not in anime]] *)
Definition untrack (series_name : pystr) (tracked : list pystr) : list pystr :=
  List.filter (λ anime, negb (Str.contains series_name anime)) tracked.

(** How [on_anime_clicked] ends: one value per message box it can show. *)
Inductive click_result :=
| StoppedTracking        (* "Stopped tracking: ..." *)
| FeedUnavailable        (* "Could not fetch RSS feed" *)
| NotConnected           (* "Not connected to qBittorrent" *)
| StartedDownloading     (* "Started downloading: ..." *)
| FailedToStart          (* "Failed to start download for: ..." *)
| LinkNotFound.          (* "Could not find torrent link for: ..." *)

Definition weekday_names : list pystr :=
  py <$> ["monday"; "tuesday"; "wednesday"; "thursday"; "friday"; "saturday";
          "sunday"]%string.

(** The two lines of [update_countdown] that turn the weekday indices into
    a number of days:
    [days_until = day_index - current_day_index] and
    [if days_until <= 0: days_until += 7]. *)
Definition days_until (day_index current_day_index : Z) : Z :=
  let days_until := (day_index - current_day_index)%Z in
  if (days_until <=? 0)%Z then (days_until + 7)%Z else days_until.

Section Gui.
Context `{UnicodeDB} `{Platform} `{Float64} (env : Env).

Definition message_box (kind : box_kind) (title text : pystr) : M () :=
  set_world (emit (EvMessageBox kind title text)).

(** [QTimer.singleShot(msec, slot)] *)
Definition single_shot (msec : Z) (slot : string) : M () :=
  set_world (emit (EvSingleShot msec (py slot))).

Definition status_text (text : string) : M () :=
  set_world (emit (EvStatusText (py text))).

(** [QBittorrentDialog.try_connect]; true when the dialog is accepted. *)
Definition try_connect (host username password : pystr) : M bool :=
  m ← get_mgr;
  let new_settings :=
    <[py "qb_password" := password]>
      (<[py "qb_username" := username]>
         (<[py "qb_host" := host]> (settings m))) in
  save_settings env new_settings;;
  ok ← setup_qbittorrent env;
  if ok : bool then mret true
  else message_box Critical (py "Error")
         (py "Failed to connect to qBittorrent");;
       mret false.

(** The user presses Connect with the entries of the script, one after the
    other, until a connection succeeds; at the end of the script the user
    cancels. *)
Fixpoint dialog_attempts (script : list (pystr * pystr * pystr)) : M bool :=
  match script with
  | [] => mret false
  | (host, username, password) :: rest =>
      accepted ← try_connect host username password;
      if accepted : bool then mret true else dialog_attempts rest
  end.

(** [QBittorrentDialog(manager, self).exec() == Accepted]; the constructor
    reads the three connection settings. *)
Definition dialog_exec : M bool :=
  _ ← setting (py "qb_host");
  _ ← setting (py "qb_username");
  _ ← setting (py "qb_password");
  w ← get_world;
  set_world tick;;
  dialog_attempts (env_dialog env (steps w)).

Definition update_qbittorrent_status : M () :=
  try_except
    (m ← get_mgr;
     ok ← match qb_client m with
          | Some _ => setup_qbittorrent env
          | None => mret false
          end;
     if ok : bool then status_text "qBittorrent Connected"
     else status_text "qBittorrent Disconnected")
    (λ e, print env (LogError (py "Error updating qBittorrent status") e);;
          status_text "qBittorrent Error").

Definition ensure_qbittorrent_connection : M bool :=
  m ← get_mgr;
  ok ← match qb_client m with
       | Some _ => setup_qbittorrent env
       | None => mret false
       end;
  if ok : bool then mret true
  else accepted ← dialog_exec;
       if accepted : bool
       then update_qbittorrent_status;; mret true
       else mret false.

(** [MainWindow.on_anime_clicked] *)
Definition on_anime_clicked (title : pystr) : M click_result :=
  let series_name := series_name_of title in
  m ← get_mgr;
  if is_tracked series_name (tracked_anime m)
  then
    set_mgr (set_tracked_anime (untrack series_name (tracked_anime m)));;
    m ← get_mgr;
    save_tracked_anime env (tracked_anime m);;
    single_shot 0 "update_tracked_list";;
    single_shot 100 "refresh_card_statuses";;
    message_box Information (py "Success")
      (py "Stopped tracking: " ++ series_name);;
    mret StoppedTracking
  else
    feed ← fetch_rss_feed env;
    match feed with
    | None =>
        message_box Warning (py "Error") (py "Could not fetch RSS feed");;
        mret FeedUnavailable
    | Some entries =>
        match List.find (λ entry, bool_decide (entry_title entry = Some title))
                        entries with
        | None =>
            message_box Warning (py "Error")
              (py "Could not find torrent link for: " ++ title);;
            mret LinkNotFound
        | Some entry =>
            m ← get_mgr;
            connected ← match qb_client m with
                        | None => ensure_qbittorrent_connection
                        | Some _ => mret true
                        end;
            if negb connected
            then message_box Critical (py "Error")
                   (py "Not connected to qBittorrent");;
                 mret NotConnected
            else
              added ← add_torrent env (entry_link entry) (Some (py "Anime"));
              if added : bool
              then
                m ← get_mgr;
                set_mgr (set_tracked_anime (tracked_anime m ++ [series_name]));;
                m ← get_mgr;
                save_tracked_anime env (tracked_anime m);;
                single_shot 0 "update_tracked_list";;
                single_shot 100 "refresh_card_statuses";;
                message_box Information (py "Success")
                  (py "Started downloading: " ++ title ++ [10]
                   ++ py "Tracking series: " ++ series_name);;
                mret StartedDownloading
              else
                message_box Warning (py "Error")
                  (py "Failed to start download for: " ++ title);;
                mret FailedToStart
        end
    end.

(** One pass of the inner loop of [update_countdown]: [next_time] after
    looking at [show], listed under the key [day_name] (the loop variable
    [day] of the source). *)
Definition countdown_show (series_name : pystr) (current_time : datetime)
    (day_name : pystr) (show : json) (next_time : option datetime)
  : Res (option datetime) :=
  title ← Json.getitem show (py "title");
  hit ← Json.contains series_name title;
  if hit : bool then
    time_str ← Json.getitem show (py "time");
    anime_time ← match time_str with
                 | JStr s => DateTime.strptime_HM s
                 | _ => Raise TypeError
                 end;
    day_index ← list_index (Str.lower day_name) weekday_names;
    let current_day_index := DateTime.weekday current_time in
    let days_until := days_until day_index current_day_index in
    anime_time ← DateTime.replace anime_time (year current_time)
                    (month current_time) (day current_time + days_until)%Z;
    match next_time with
    | None => Ok (Some anime_time)
    | Some t => Ok (Some (if DateTime.lt anime_time t then anime_time else t))
    end
  else Ok next_time.

(** One pass of the outer loop. *)
Definition countdown_day (series_name : pystr) (current_time : datetime)
    (item : pystr * json) (next_time : option datetime)
  : Res (option datetime) :=
  shows ← Json.iter item.2;
  for_each shows (countdown_show series_name current_time item.1) next_time.

Definition next_episode_time (series_name : pystr) (current_time : datetime)
    (schedule_data : json) : Res (option datetime) :=
  schedule ← Json.getitem schedule_data (py "schedule");
  items ← Json.items schedule;
  for_each items (countdown_day series_name current_time) None.

Definition countdown_text (time_until : timedelta) : pystr :=
  let days := td_days time_until in
  let total := DateTime.total_microseconds time_until in
  let hours := ((total `mod` (24 * 3600 * DateTime.us_per_second))
                `div` (3600 * DateTime.us_per_second))%Z in
  let minutes := ((total `mod` (3600 * DateTime.us_per_second))
                  `div` (60 * DateTime.us_per_second))%Z in
  py "Next episode in: "
  ++ (if (0 <? days)%Z then str_of_int days ++ py "d " else [])
  ++ str_of_int hours ++ py "h " ++ str_of_int minutes ++ py "m".

(** [TrackedAnimeCard.update_countdown]; the value is the text the call
    puts on the countdown label. *)
Definition update_countdown (series_name : pystr) : M pystr :=
  try_except
    (schedule_data ← fetch_schedule env;
     if negb (Json.truthy schedule_data)
     then mret (py "Schedule unavailable")
     else
       current_time ← utcnow env;
       next_time ← lift (next_episode_time series_name current_time
                           schedule_data);
       match next_time with
       | Some next_time =>
           mret (countdown_text (DateTime.sub next_time current_time))
       | None => mret (py "No scheduled episodes found")
       end)
    (λ e, print env (LogError (py "Error updating countdown") e);;
          mret (py "Schedule unavailable")).

End Gui.

(** The submissions to the download client recorded in a trace: the [urls]
    and the [category] of each [torrents_add] call. *)
Definition submissions (t : list event)
  : list (list (option pystr) * option pystr) :=
  omap (λ e, match e with
             | EvTorrentsAdd urls category => Some (urls, category)
             | _ => None
             end) t.

(** A computation that leaves the tracked list of the manager alone,
    whatever its outcome. *)
Definition keeps_tracked {A} (m : M A) : Prop :=
  ∀ s r s', m s = (r, s') → tracked_anime (mgr s') = tracked_anime (mgr s).

(** A schedule entry for [series_name]: a dict whose title contains the
    name and whose time is the string [time_str]. *)
Definition broadcasts (series_name : pystr) (show : json) (time_str : pystr)
  : Prop :=
  ∃ fields title,
    show = JDict fields
    ∧ Json.assoc (py "title") fields = Some (JStr title)
    ∧ Str.contains series_name title = true
    ∧ Json.assoc (py "time") fields = Some (JStr time_str).

(** ** Sample data

    A Unicode table that knows ASCII only, a POSIX platform, arithmetic
    without rounding errors (no run below depends on a rounded value), an
    outside world in which every service answers, and the schedule of the
    specification's example.  The concrete runs below use them. *)

Definition ascii_only : UnicodeDB :=
  {| uni_isalnum := λ _, false; uni_decimal := λ _, None; uni_lower := λ s, s |}.

Definition posix : Platform := {| windows := false |}.

Definition exact_floats : Float64 :=
  {| double := λ x, x; double_nonneg := λ x Hx, Hx |}.

Definition sample_title : pystr := py "[SubsPlease] X - 01 (1080p) [AB12CD34].mkv".

(** Monday 1 January 2024, 09:00 UTC. *)
Definition monday_0900 : datetime := mk_datetime 2024 1 1 9 0 0 0.

(** {monday: [{time: "10:00", title: "X"}]} *)
Definition monday_schedule : json :=
  JDict [(py "schedule",
          JDict [(py "monday",
                  JList [JDict [(py "time", JStr (py "10:00"));
                                (py "title", JStr (py "X"))]])])].

(** Every service answers; the search API and the schedule API are one HTTP
    oracle, which here serves the schedule [doc] whatever the URL. *)
Definition sample_env (doc : json) (now : datetime) : Env :=
  {| env_lag := λ _, (0%N, 1%positive);
     env_utcnow := λ _, now;
     env_http := λ _ _, Ok (mk_Response 200 (Some doc) []);
     env_open := λ _ _, true;
     env_feed := λ _ _, Ok [mk_FeedEntry (Some sample_title)
                                         (Some (py "magnet:?xt=urn:btih:0"))];
     env_login := λ _ _, Ok ();
     env_torrents_add := λ _ _ _ _, Ok ();
     env_dialog := λ _, [];
     env_stdout := λ _, true;
     env_locale := λ _, true;
     env_str := λ _ _, py "error" |}.

(** The world of the specification's example: Monday morning. *)
Definition monday_env : Env := sample_env monday_schedule monday_0900.

(** The same world with the network down. *)
Definition offline_env : Env :=
  {| env_lag := λ _, (0%N, 1%positive);
     env_utcnow := λ _, mk_datetime 2024 1 1 9 0 0 0;
     env_http := λ _ _, Raise RequestException;
     env_open := λ _ _, true;
     env_feed := λ _ _, Raise RequestException;
     env_login := λ _ _, Raise APIError;
     env_torrents_add := λ _ _ _ _, Raise APIError;
     env_dialog := λ _, [];
     env_stdout := λ _, true;
     env_locale := λ _, true;
     env_str := λ _ _, py "error" |}.

(** A freshly started manager with a session of the download client. *)
Definition sample_sys : Sys :=
  {| mgr := {| settings := {[ py "rss_url" := py "https://subsplease.org/rss/?r=1080" ]};
               tracked_anime := [];
               qb_client := Some (mk_Client (py "http://127.0.0.1:8080")
                                            (py "admin") (py "adminadmin"));
               jikan_limiter := RateLimiter_init JIKAN_RATE_LIMIT |};
     world := {| clock := 0; steps := 0; files := ∅; trace := [] |} |}.

(** Monday 29 January 2024, 09:00 UTC. *)
Definition last_monday_0900 : datetime := mk_datetime 2024 1 29 9 0 0 0.

(** The same manager once the poster of [sample_title] has been cached. *)
Definition cached_sys : Sys :=
  {| mgr := mgr sample_sys;
     world := store (@get_cached_image_path ascii_only posix
                       (clean_title sample_title))
                    (FBytes []) (world sample_sys) |}.

(** ** More of Python's text and list operations *)

(** [s.endswith(suffix)] *)
Definition endswith (suffix s : pystr) : bool :=
  Str.startswith (reverse suffix) (reverse s).

(** [a < b] on [str]: code point by code point, a proper prefix first. *)
Fixpoint str_lt (a b : pystr) : bool :=
  match a, b with
  | [], [] => false
  | [], _ :: _ => true
  | _ :: _, [] => false
  | x :: a', y :: b' => (x <? y) || ((x =? y) && str_lt a' b')
  end.

Section Sorting.
Context {A : Type} (lt : A → A → bool).

(** [x] stood before every element of the sorted [l]: it goes in front of
    the first element that does not have to precede it. *)
Fixpoint insert_sorted (x : A) (l : list A) : list A :=
  match l with
  | [] => [x]
  | y :: l' => if lt y x then y :: insert_sorted x l' else x :: l
  end.

(** The stable sort for the strict order [lt], which is what [list.sort] and
    [sorted] compute: sorted, and elements that compare equal keep their
    order. *)
Definition stable_sort (l : list A) : list A := foldr insert_sorted [] l.

End Sorting.

(** [sorted(l)] for a list of [str]. *)
Definition sorted (l : list pystr) : list pystr := stable_sort str_lt l.

(** [sorted(set(l))]: the order in which the set yields its elements does
    not matter, two equal strings being the same string. *)
Definition sorted_set (l : list pystr) : list pystr := sorted (remove_dups l).

(** ** The rest of the backend and of the views *)

#[global] Instance Q_eq_dec : EqDecision Q.
Proof. solve_decision. Defined.

(** An entry of [os.listdir], with what [os.path.isfile] and
    [os.path.getmtime] say about it. *)
Record DirEntry := mk_DirEntry {
  entry_name : pystr;
  entry_isfile : bool;
  entry_mtime : Q
}.

(** What there is at a path that should be a folder. *)
Inductive folder_state :=
| NoSuchPath
| NotADirectory
| Directory (entries : list DirEntry).

(** The answers of the outside that the code below needs beyond [Env]. *)
Record Outside := mk_Outside {
  (** whether [open(path, "r")] succeeds on an existing file *)
  out_readable : nat → pystr → bool;
  (** the text of a file that was not written as text: decoded bytes, or
      the document [json.dump] produced *)
  out_decode : file_data → Res pystr;
  (** the download folder as one call sees it *)
  out_folder : nat → pystr → folder_state;
  (** [requests.get("https://api.jikan.moe/v4/anime",
                    params={"q": q, "limit": 1}, timeout=10)], by [q] *)
  out_search : nat → pystr → Res Response;
  (** [str(e)] *)
  out_str : exn → pystr
}.

(** Text mode reads with universal newlines: "\r\n" and a lone "\r" arrive
    as "\n". *)
Fixpoint universal_newlines (s : pystr) : pystr :=
  match s with
  | 13 :: 10 :: s' => 10 :: universal_newlines s'
  | 13 :: s' => 10 :: universal_newlines s'
  | c :: s' => c :: universal_newlines s'
  | [] => []
  end.

(** [f.readlines()]: the lines, each with its "\n", the last one without
    when the text does not end in "\n". *)
Fixpoint readlines (s : pystr) : list pystr :=
  match s with
  | [] => []
  | c :: s' =>
      if c =? 10 then [c] :: readlines s'
      else match readlines s' with
           | [] => [[c]]
           | line :: lines => (c :: line) :: lines
           end
  end.

(** [dict.get(key, default)] on a JSON value. *)
Definition json_get_default (j : json) (k : pystr) (d : json) : Res json :=
  match j with
  | JDict kv => Ok (default d (Json.assoc k kv))
  | _ => Raise AttributeError
  end.

(** [value.lower()] on a JSON value: only a string has the method. *)
Definition json_lower `{UnicodeDB} (j : json) : Res pystr :=
  match j with
  | JStr s => Ok (Str.lower s)
  | _ => Raise AttributeError
  end.

Definition mkv : pystr := py ".mkv".

(** [a] has the later modification time of two [(file, mod_time)] pairs. *)
Definition newer (a b : pystr * Q) : bool := negb (Qle_bool a.2 b.2).

(** [file.split(" - ")[1].split("[")[0].strip()] of [get_last_episode]. *)
Definition episode_label (file : pystr) : Res pystr :=
  match Str.split (py " - ") file with
  | _ :: piece :: _ => Ok (Str.strip (Str.first (Str.split (py "[") piece)))
  | _ => Raise IndexError
  end.

(** The loop of [TrackedAnimeCard.get_last_episode]; the bare [except]
    swallows the failure of the split. *)
Fixpoint last_episode_loop (series_name : pystr) (files : list pystr)
    (latest_episode : pystr) : pystr :=
  match files with
  | [] => latest_episode
  | file :: rest =>
      last_episode_loop series_name rest
        (if endswith mkv file && Str.contains series_name file
         then match episode_label file with
              | Ok episode => episode
              | Raise _ => latest_episode
              end
         else latest_episode)
  end.

(** The series of the cards [MainWindow.display_tracked_anime] creates, in
    the order of the cards. *)
Definition tracked_series (tracked downloaded_files : list pystr)
  : list pystr :=
  sorted_set ((series_name_of <$> tracked)
              ++ (series_name_of <$> List.filter (endswith mkv) downloaded_files)).

(** The verdicts of [check_series_status]. *)
Definition Ended : pystr := py "Ended".
Definition Ongoing : pystr := py "Ongoing".

Section More.
Context `{UnicodeDB} `{Platform} `{Float64} (env : Env) (out : Outside).

(** [with open(path, "r") as f: f.read()] *)
Definition read_text (path : pystr) : M pystr :=
  w ← get_world;
  set_world tick;;
  match files w !! path with
  | None => raise OSError
  | Some data =>
      if out_readable out (steps w) path
      then text ← lift (match data with
                        | FText s => Ok s
                        | _ => out_decode out data
                        end);
           mret (universal_newlines text)
      else raise OSError
  end.

(** [AnimeManager.load_tracked_anime] *)
Definition load_tracked_anime : M (list pystr) :=
  present ← os_path_exists TRACKED_FILE;
  if present : bool
  then text ← read_text TRACKED_FILE;
       mret (Str.strip <$> readlines text)
  else mret [].

(** [files.sort(key=lambda x: x[1], reverse=True)] *)
Definition newest_first (files : list (pystr * Q)) : list (pystr * Q) :=
  stable_sort newer files.

(** [AnimeManager.get_downloaded_files]; the folder is taken as it is at one
    moment of the call. *)
Definition get_downloaded_files : M (list pystr) :=
  folder ← setting (py "download_folder");
  w ← get_world;
  set_world tick;;
  match out_folder out (steps w) folder with
  | NoSuchPath => mret []
  | NotADirectory => raise OSError
  | Directory entries =>
      let files := (λ e, (entry_name e, entry_mtime e))
                   <$> List.filter entry_isfile entries in
      mret (fst <$> newest_first files)
  end.

(** [TrackedAnimeCard.get_last_episode] *)
Definition get_last_episode (series_name : pystr) : M pystr :=
  downloaded_files ← get_downloaded_files;
  mret (last_episode_loop series_name downloaded_files (py "None")).

(** [MainWindow.display_tracked_anime]: the series of the cards. *)
Definition display_tracked_anime : M (list pystr) :=
  m ← get_mgr;
  downloaded_files ← get_downloaded_files;
  mret (tracked_series (tracked_anime m) downloaded_files).

(** [MainWindow.display_downloads]: the file names of the cards. *)
Definition display_downloads : M (list pystr) :=
  downloaded_files ← get_downloaded_files;
  mret (sorted (List.filter (endswith mkv) downloaded_files)).

(** The search request of the status and description lookups. *)
Definition search_anime (q : pystr) : M Response :=
  w ← get_world;
  set_world (λ w, emit (EvHttpGet (py "https://api.jikan.moe/v4/anime")) (tick w));;
  lift (out_search out (steps w) q).

(** The body of the [try] of [check_series_status]: [Some] is what the
    branch with data returns, [None] falls through to [return "Ongoing"]. *)
Definition status_lookup (series_name : pystr) : M (option pystr) :=
  let search_title := Str.strip (Str.replace (py "[SubsPlease]") [] series_name) in
  response ← search_anime search_title;
  if (status_code response =? 200)%Z
  then data ← lift (response_json response);
       items ← lift (Json.getitem data (py "data"));
       if Json.truthy items
       then anime ← lift (Json.getitem0 items);
            status ← lift (s ← json_get_default anime (py "status") (JStr []);
                           json_lower s);
            mret (Some (if Str.contains (py "finished") status
                           || Str.contains (py "completed") status
                        then Ended else Ongoing))
       else mret None
  else mret None.

(** [TrackedAnimeCard.check_series_status] *)
Definition card_check_series_status (series_name : pystr) : M pystr :=
  try_except
    (r ← status_lookup series_name;
     mret (default Ongoing r))
    (λ _, mret Ongoing).

(** [MainWindow.check_series_status]: [cache] is [series_status_cache]
    before the call, the second component of the value is the cache after
    it. *)
Definition check_series_status (cache : gmap pystr pystr)
    (series_name : pystr) : M (pystr * gmap pystr pystr) :=
  match cache !! series_name with
  | Some verdict => mret (verdict, cache)
  | None =>
      try_except
        (r ← status_lookup series_name;
         mret (match r with
               | Some verdict => (verdict, <[series_name := verdict]> cache)
               | None => (Ongoing, cache)
               end))
        (λ _, mret (Ongoing, cache))
  end.

(** [MainWindow.save_settings], with the texts of the five entry fields. *)
Definition MainWindow_save_settings
    (folder rss_url qb_host qb_username qb_password : pystr) : M () :=
  let new_settings : gmap pystr pystr :=
    <[py "download_folder" := folder]>
      (<[py "rss_url" := rss_url]>
         (<[py "qb_host" := qb_host]>
            (<[py "qb_username" := qb_username]>
               (<[py "qb_password" := qb_password]> ∅)))) in
  try_except
    (save_settings env new_settings;;
     message_box Information (py "Success") (py "Settings saved successfully");;
     host ← setting (py "qb_host");
     changed ← (if negb (bool_decide (qb_host = host)) then mret true
                else username ← setting (py "qb_username");
                     if negb (bool_decide (qb_username = username)) then mret true
                     else password ← setting (py "qb_password");
                          mret (negb (bool_decide (qb_password = password))));
     if changed : bool
     then ok ← setup_qbittorrent env;
          set_world (emit (EvStatusText
            (if ok : bool then py "qBittorrent: Connected " ++ [10003]
             else py "qBittorrent: Disconnected " ++ [10007])))
     else mret ())
    (λ e, message_box Critical (py "Error")
            (py "Failed to save settings: " ++ out_str out e)).

End More.

(** The episode label a downloaded file contributes for [series_name] in
    [get_last_episode]: none when the file is not an ".mkv" of the series or
    has no " - " separator. *)
Definition names_episode (series_name file : pystr) : option pystr :=
  if endswith mkv file && Str.contains series_name file
  then match episode_label file with
       | Ok episode => Some episode
       | Raise _ => None
       end
  else None.

(** A computation whose every run, whatever its outcome, takes a state to
    one that [R] relates to it. *)
Definition respects {A} (R : Sys → Sys → Prop) (m : M A) : Prop :=
  ∀ s r s', m s = (r, s') → R s s'.

(** The search answers, and has nothing to offer: no error status, a JSON
    object, and nothing truthy under "data". *)
Definition no_results (r : Res Response) : Prop :=
  ∃ response items,
    r = Ok response
    ∧ ((400 <=? status_code response) && (status_code response <? 600))%Z = false
    ∧ body_json response = Some (JDict items)
    ∧ Json.truthy (default JNull (Json.assoc (py "data") items)) = false.

(** Only the file at [path] may differ between the two states. *)
Definition same_files_but (path : pystr) (s s' : Sys) : Prop :=
  ∀ q, q ≠ path → files (world s') !! q = files (world s) !! q.

(** The logins recorded in a trace. *)
Definition logins (t : list event) : list Client :=
  omap (λ e, match e with EvLogin c => Some c | _ => None end) t.

(** A search API that answers every request with an empty result list. *)
Definition empty_search_env : Env :=
  sample_env (JDict [(py "data", JList [])]) monday_0900.

(** The connection check of [on_anime_clicked]: the connection is looked
    after only when the manager has no client object at all. *)
Definition click_connection (env : Env) : M bool :=
  m ← get_mgr;
  match qb_client m with
  | None => ensure_qbittorrent_connection env
  | Some _ => mret true
  end.

(** The state after the message box that ends a click. *)
Definition boxed (kind : box_kind) (title text : pystr) (s : Sys) : Sys :=
  mk_Sys (mgr s) (emit (EvMessageBox kind title text) (world s)).

(** Nothing but the settings file may differ, and the tracked list is the
    same. *)
Definition tracking_untouched (s s' : Sys) : Prop :=
  tracked_anime (mgr s') = tracked_anime (mgr s)
  ∧ same_files_but SETTINGS_FILE s s'.

(** No submission to the download client between the two states. *)
Definition same_submissions (s s' : Sys) : Prop :=
  submissions (trace (world s')) = submissions (trace (world s)).

(** No login between the two states, and the same client object. *)
Definition same_session (s s' : Sys) : Prop :=
  logins (trace (world s')) = logins (trace (world s))
  ∧ qb_client (mgr s') = qb_client (mgr s).

(** The one submission a click can make: the link of the first entry of the
    feed that carries the clicked title, in the category "Anime". *)
Definition submits_clicked (env : Env) (title : pystr) (s : Sys)
    (subs : list (list (option pystr) * option pystr)) : Prop :=
  ∃ entries s1 entry,
    fetch_rss_feed env s = (Ok (Some entries), s1)
    ∧ List.find (λ entry, bool_decide (entry_title entry = Some title)) entries
      = Some entry
    ∧ subs = [([entry_link entry], Some (py "Anime"))].

(** [t] is dated one to seven days after [now], on a day that exists in the
    month of [now]. *)
Definition dated_ahead (now t : datetime) : Prop :=
  ∃ k : Z, (1 ≤ k ≤ 7)%Z
    ∧ year t = year now ∧ month t = month now
    ∧ day t = (day now + k)%Z
    ∧ (day t ≤ DateTime.days_in_month (year now) (month now))%Z.

(** ** More sample data *)

Definition episode_1 : pystr := sample_title.
Definition episode_2 : pystr := py "[SubsPlease] X - 02 (1080p) [EF56AB78].mkv".

(** A download folder: two episodes of one series, the second one newer,
    a sub-folder and a text file. *)
Definition sample_folder : list DirEntry :=
  [ mk_DirEntry (py "extras") false 30;
    mk_DirEntry episode_2 true 20;
    mk_DirEntry (py "notes.txt") true 5;
    mk_DirEntry episode_1 true 10 ].

(** An outside in which files can be read, the download folder is
    [sample_folder] and the status lookup finds a finished series. *)
Definition sample_out : Outside :=
  {| out_readable := λ _ _, true;
     out_decode := λ _, Raise ValueError;
     out_folder := λ _ _, Directory sample_folder;
     out_search := λ _ _,
       Ok (mk_Response 200
             (Some (JDict [(py "data",
                            JList [JDict [(py "status",
                                           JStr (py "Finished Airing"))]])]))
             []);
     out_str := λ _, py "error" |}.

(** A manager that has all five settings and no client object yet. *)
Definition settings_sys : Sys :=
  {| mgr := {| settings :=
                 {[ py "download_folder" := py "/downloads";
                    py "rss_url" := py "https://subsplease.org/rss/?r=1080";
                    py "qb_host" := py "http://127.0.0.1:8080";
                    py "qb_username" := py "admin";
                    py "qb_password" := py "adminadmin" ]};
               tracked_anime := [];
               qb_client := None;
               jikan_limiter := RateLimiter_init JIKAN_RATE_LIMIT |};
     world := world sample_sys |}.

(** A manager that tracks three series, two of them with names that contain
    "X". *)
Definition tracked_sys : Sys :=
  {| mgr := set_tracked_anime [py "X"; py "Y"; py "X Zero"] (mgr sample_sys);
     world := world sample_sys |}.

(** The search finds a series with a poster; the same answer serves as the
    image. *)
Definition poster_env : Env :=
  sample_env
    (JDict [(py "data",
             JList [JDict [(py "images",
                            JDict [(py "jpg",
                                    JDict [(py "large_image_url",
                                            JStr (py "https://cdn.example/x.jpg"))])])]])])
    monday_0900.

(** Every service answers, but no file can be written. *)
Definition readonly_env : Env :=
  {| env_lag := env_lag monday_env;
     env_utcnow := env_utcnow monday_env;
     env_http := env_http monday_env;
     env_open := λ _ _, false;
     env_feed := env_feed monday_env;
     env_login := env_login monday_env;
     env_torrents_add := env_torrents_add monday_env;
     env_dialog := env_dialog monday_env;
     env_stdout := env_stdout monday_env;
     env_locale := env_locale monday_env;
     env_str := env_str monday_env |}.

(** [base] with a standard output and text files that take ASCII only. *)
Definition ascii_streams (base : Env) : Env :=
  {| env_lag := env_lag base;
     env_utcnow := env_utcnow base;
     env_http := env_http base;
     env_open := env_open base;
     env_feed := env_feed base;
     env_login := env_login base;
     env_torrents_add := env_torrents_add base;
     env_dialog := env_dialog base;
     env_stdout := λ _, false;
     env_locale := λ _, false;
     env_str := env_str base |}.

(** Every service answers, except that the download client refuses the
    login. *)
Definition rejecting_env : Env :=
  {| env_lag := env_lag monday_env;
     env_utcnow := env_utcnow monday_env;
     env_http := env_http monday_env;
     env_open := env_open monday_env;
     env_feed := env_feed monday_env;
     env_login := λ _ _, Raise APIError;
     env_torrents_add := env_torrents_add monday_env;
     env_dialog := env_dialog monday_env;
     env_stdout := env_stdout monday_env;
     env_locale := env_locale monday_env;
     env_str := env_str monday_env |}.

(** "Café - 01": a title with a letter outside ASCII. *)
Definition cafe_title : pystr := py "Caf" ++ [233] ++ py " - 01".

(** A schedule entry of another series: a dict whose title is a string
    that does not contain [series_name]. *)
Definition other_show (series_name : pystr) (show : json) : Prop :=
  ∃ fields title,
    show = JDict fields
    ∧ Json.assoc (py "title") fields = Some (JStr title)
    ∧ Str.contains series_name title = false.

(** A day of the schedule that lists entries of other series only. *)
Definition other_day (series_name : pystr) (item : pystr * json) : Prop :=
  ∃ shows, item.2 = JList shows ∧ Forall (other_show series_name) shows.

(** The sample manager once the poster of [cafe_title] has been cached. *)
Definition cafe_cached_sys : Sys :=
  {| mgr := mgr sample_sys;
     world := store (@get_cached_image_path ascii_only posix
                       (clean_title cafe_title))
                    (FBytes []) (world sample_sys) |}.

(** The search answered with status 200 and something truthy under "data":
    the condition under which [check_series_status] looks at a status. *)
Definition has_data (answer : Res Response) : bool :=
  match answer with
  | Ok response =>
      (status_code response =? 200)%Z
      && match response_json response with
         | Ok data =>
             match Json.getitem data (py "data") with
             | Ok items => Json.truthy items
             | Raise _ => false
             end
         | Raise _ => false
         end
  | Raise _ => false
  end.

(** * Properties *)

(** ** Facts about the string operations *)

Section StrFacts.
Implicit Types s t p sub sep : pystr.

Lemma occurs_trans sub s t : occurs sub s → occurs s t → occurs sub t.
Proof.
  intros (a & b & ->) (a' & b' & ->).
  exists (a' ++ a), (b ++ b'). by rewrite <- !(assoc_L (++)).
Qed.

Lemma occurs_refl s : occurs s s.
Proof. exists [], []. by rewrite app_nil_r. Qed.

Lemma startswith_true p s : Str.startswith p s = true ↔ ∃ k, s = p ++ k.
Proof.
  revert s. induction p as [|a p IH]; intros s; simpl.
  - split; eauto.
  - destruct s as [|b s].
    + split; [done | by intros [k ?]].
    + rewrite andb_true_iff, N.eqb_eq, IH. split.
      * intros [-> [k ->]]. eauto.
      * intros [k [= -> ->]]. eauto.
Qed.

Lemma find_Some sub s i :
  Str.find sub s = Some i → s = take i s ++ sub ++ drop (i + length sub) s.
Proof.
  revert i. induction s as [|c s IH]; intros i; simpl.
  - destruct (Str.startswith sub []) eqn:E; [|done].
    intros [= <-]. apply startswith_true in E as [k E].
    symmetry in E. apply app_eq_nil in E as [-> ->]. done.
  - destruct (Str.startswith sub (c :: s)) eqn:E.
    + intros [= <-]. apply startswith_true in E as [k E].
      rewrite E at 1. simpl. by rewrite E, drop_app_length.
    + destruct (Str.find sub s) as [j|] eqn:Ej; [|done].
      intros [= <-]. simpl. f_equal. by apply IH.
Qed.

(** [find] returns the leftmost occurrence. *)
Lemma find_min sub s i a b :
  Str.find sub s = Some i → s = a ++ sub ++ b → (i ≤ length a)%nat.
Proof.
  revert i a. induction s as [|c s IH]; intros i a; simpl.
  - destruct (Str.startswith sub []); [|done]. intros [= <-]. lia.
  - destruct (Str.startswith sub (c :: s)) eqn:E; [intros [= <-]; lia|].
    destruct (Str.find sub s) as [j|] eqn:Ej; [|done].
    intros [= <-] Hs. destruct a as [|c' a]; simpl in *.
    + assert (Str.startswith sub (c :: s) = true) as E'
        by (apply startswith_true; eauto).
      congruence.
    + injection Hs as -> ->. apply le_n_S. by eapply IH.
Qed.

Lemma find_None sub s : Str.find sub s = None ↔ ¬ occurs sub s.
Proof.
  induction s as [|c s IH]; simpl.
  - destruct (Str.startswith sub []) eqn:E.
    + split; [done|]. intros []. apply startswith_true in E as [k ->].
      by exists [], k.
    + split; [|done]. intros _ (a & b & Hab).
      symmetry in Hab. apply app_eq_nil in Hab as [-> Hab].
      apply app_eq_nil in Hab as [-> ->]. done.
  - destruct (Str.startswith sub (c :: s)) eqn:E.
    + split; [done|]. intros []. apply startswith_true in E as [k ->].
      by exists [], k.
    + destruct (Str.find sub s) as [j|] eqn:Ej; simpl.
      * split; [done|]. intros [].
        apply find_Some in Ej. rewrite Ej.
        by exists (c :: take j s), (drop (j + length sub) s).
      * split; [|done]. intros _ (a & b & Hab).
        destruct a as [|c' a]; simpl in *.
        -- assert (Str.startswith sub (c :: s) = true)
             by (apply startswith_true; eauto).
           congruence.
        -- injection Hab as -> ->. apply IH; [done|]. by exists a, b.
Qed.

Lemma contains_false sub s : Str.contains sub s = false ↔ ¬ occurs sub s.
Proof.
  unfold Str.contains. rewrite <- find_None.
  destruct (Str.find sub s); naive_solver.
Qed.

Lemma contains_true sub s : Str.contains sub s = true ↔ occurs sub s.
Proof.
  destruct (Str.contains sub s) eqn:E.
  - split; [|done]. intros _.
    unfold Str.contains in E. destruct (Str.find sub s) as [i|] eqn:Ei; [|done].
    apply find_Some in Ei. rewrite Ei. by eexists _, _.
  - apply contains_false in E. naive_solver.
Qed.

(** The first piece of a split: a prefix that holds no separator. *)
Lemma split_first_prefix sep s : ∃ b, s = Str.first (Str.split sep s) ++ b.
Proof.
  unfold Str.split. destruct (length s) as [|n]; simpl.
  - exists []. by rewrite app_nil_r.
  - destruct (Str.find sep s) as [i|] eqn:Ei; simpl.
    + exists (drop i s). by rewrite take_drop.
    + exists []. by rewrite app_nil_r.
Qed.

Lemma split_first_no_sep sep s :
  sep ≠ [] → ¬ occurs sep (Str.first (Str.split sep s)).
Proof.
  intros Hsep. unfold Str.split. destruct (length s) as [|n] eqn:En; simpl.
  - apply nil_length_inv in En as ->. intros (a & b & Hab).
    symmetry in Hab. apply app_eq_nil in Hab as [_ Hab].
    by apply app_eq_nil in Hab as [? _].
  - destruct (Str.find sep s) as [i|] eqn:Ei; simpl.
    + intros (a & b & Hab).
      assert (s = a ++ sep ++ (b ++ drop i s)) as Hs.
      { rewrite <- (take_drop i s) at 1. rewrite Hab.
        by rewrite <- !(assoc_L (++)). }
      pose proof (find_min _ _ _ _ _ Ei Hs) as Hle.
      assert (length (take i s) ≤ i)%nat as Hlen by (rewrite length_take; lia).
      rewrite Hab, !length_app in Hlen.
      destruct sep; [done|]. simpl in Hlen. lia.
    + by apply find_None.
Qed.

Lemma find_nil sub : sub ≠ [] → Str.find sub [] = None.
Proof. by destruct sub. Qed.

Lemma find_bound sub s i :
  Str.find sub s = Some i → (i + length sub ≤ length s)%nat.
Proof.
  revert i. induction s as [|c s IH]; intros i; simpl.
  - destruct sub; [|done]. by intros [= <-].
  - destruct (Str.startswith sub (c :: s)) eqn:E.
    + intros [= <-]. apply startswith_true in E as [k E].
      apply (f_equal length) in E. rewrite length_app in E. simpl in *. lia.
    + destruct (Str.find sub s) as [j|]; [|done].
      intros [= <-]. specialize (IH j eq_refl). lia.
Qed.

(** The fuel [length s] is enough: more of it changes nothing. *)
Lemma split_fuel_enough sep s n m :
  sep ≠ [] → (length s ≤ n)%nat → (length s ≤ m)%nat →
  Str.split_fuel n sep s = Str.split_fuel m sep s.
Proof.
  intros Hsep. revert m s. induction n as [|n IH]; intros m s Hn Hm.
  - apply Nat.le_0_r, nil_length_inv in Hn as ->.
    destruct m; [done|]. cbn [Str.split_fuel]. by rewrite find_nil.
  - destruct m as [|m].
    + apply Nat.le_0_r, nil_length_inv in Hm as ->.
      cbn [Str.split_fuel]. by rewrite find_nil.
    + cbn [Str.split_fuel]. destruct (Str.find sep s) as [i|] eqn:Ei; [|done].
      apply find_bound in Ei. f_equal.
      destruct sep; [done|]. simpl in Ei.
      apply IH; rewrite length_drop; simpl; lia.
Qed.

Lemma replace_fuel_enough old new s n m :
  old ≠ [] → (length s ≤ n)%nat → (length s ≤ m)%nat →
  Str.replace_fuel n old new s = Str.replace_fuel m old new s.
Proof.
  intros Hold. revert m s. induction n as [|n IH]; intros m s Hn Hm.
  - apply Nat.le_0_r, nil_length_inv in Hn as ->.
    destruct m; [done|]. cbn [Str.replace_fuel]. by rewrite find_nil.
  - destruct m as [|m].
    + apply Nat.le_0_r, nil_length_inv in Hm as ->.
      cbn [Str.replace_fuel]. by rewrite find_nil.
    + cbn [Str.replace_fuel]. destruct (Str.find old s) as [i|] eqn:Ei; [|done].
      apply find_bound in Ei. do 2 f_equal.
      destruct old; [done|]. simpl in Ei.
      apply IH; rewrite length_drop; simpl; lia.
Qed.

Lemma split_first_absent sep s :
  ¬ occurs sep s → Str.first (Str.split sep s) = s.
Proof.
  intros Hno. apply find_None in Hno. unfold Str.split.
  destruct (length s); simpl; [done|]. by rewrite Hno.
Qed.

Lemma replace_absent old new s : ¬ occurs old s → Str.replace old new s = s.
Proof.
  intros Hno. apply find_None in Hno. unfold Str.replace.
  destruct (length s); simpl; [done|]. by rewrite Hno.
Qed.

Lemma lstrip_suffix s : ∃ a, s = a ++ Str.lstrip s.
Proof.
  induction s as [|c s [a IH]]; simpl; [by exists []|].
  destruct (Str.isspace c); [|by exists []].
  exists (c :: a). simpl. by f_equal.
Qed.

Lemma rstrip_prefix s : ∃ b, s = Str.rstrip s ++ b.
Proof.
  induction s as [|c s [b IH]]; simpl; [by exists []|].
  destruct (Str.rstrip s) as [|d r] eqn:E.
  - destruct (Str.isspace c).
    + by exists (c :: s).
    + exists b. simpl. by f_equal.
  - exists b. simpl. by f_equal.
Qed.

Lemma rstrip_snoc s c :
  Str.rstrip (s ++ [c]) = if Str.isspace c then Str.rstrip s else s ++ [c].
Proof.
  induction s as [|a s IH]; [done|].
  change (Str.rstrip ((a :: s) ++ [c])) with
    (match Str.rstrip (s ++ [c]) with
     | [] => if Str.isspace a then [] else [a]
     | r => a :: r
     end).
  rewrite IH. destruct (Str.isspace c); [done|]. by destruct s.
Qed.

(** [rstrip] is [lstrip] seen from the other end. *)
Lemma rstrip_reverse s : Str.rstrip s = reverse (Str.lstrip (reverse s)).
Proof.
  induction s as [|c s IH] using rev_ind; [done|].
  rewrite rstrip_snoc, reverse_snoc. simpl.
  destruct (Str.isspace c); [done|].
  by rewrite reverse_cons, reverse_involutive.
Qed.

Lemma strip_occurs s : occurs (Str.strip s) s.
Proof.
  unfold Str.strip. destruct (lstrip_suffix s) as [a Ha].
  destruct (rstrip_prefix (Str.lstrip s)) as [b Hb].
  exists a, b. by rewrite <- Hb.
Qed.

Lemma rstrip_idem s : Str.rstrip (Str.rstrip s) = Str.rstrip s.
Proof.
  induction s as [|c s IH]; simpl; [done|].
  destruct (Str.rstrip s) as [|d r] eqn:E.
  - destruct (Str.isspace c) eqn:Ec; simpl; [done|]. by rewrite Ec.
  - change (Str.rstrip (c :: d :: r)) with
      (match Str.rstrip (d :: r) with
       | [] => if Str.isspace c then [] else [c]
       | r' => c :: r'
       end).
    by rewrite IH.
Qed.

(** A string that starts with a visible character keeps it under [rstrip]. *)
Lemma rstrip_keeps_head c s :
  Str.isspace c = false → ∃ r, Str.rstrip (c :: s) = c :: r.
Proof.
  intros Hc. simpl. destruct (Str.rstrip s); rewrite ?Hc; eauto.
Qed.

Lemma lstrip_head s :
  Str.lstrip s = [] ∨ ∃ c r, Str.lstrip s = c :: r ∧ Str.isspace c = false.
Proof.
  induction s as [|c s IH]; simpl; [by left|].
  destruct (Str.isspace c) eqn:Ec; [done|]. right; eauto.
Qed.

Lemma strip_idem s : Str.strip (Str.strip s) = Str.strip s.
Proof.
  unfold Str.strip.
  destruct (lstrip_head s) as [-> | (c & r & -> & Hc)]; [done|].
  destruct (rstrip_keeps_head c r Hc) as [r' Hr]. rewrite Hr.
  simpl Str.lstrip. rewrite Hc, <- Hr. apply rstrip_idem.
Qed.

Lemma rstrip_Forall (P : N → Prop) s : Forall P s → Forall P (Str.rstrip s).
Proof.
  destruct (rstrip_prefix s) as [b Hb]. rewrite Hb at 1.
  by intros [? _]%Forall_app.
Qed.

Lemma occurs_elem c sub s : c ∈ sub → occurs sub s → c ∈ s.
Proof. intros Hc (a & b & ->). set_solver. Qed.

End StrFacts.

(** ** Title normalisation and cache keys *)

Section Titles.
Context `{UnicodeDB}.

Lemma clean_title_shape title :
  let c := clean_title title in
  Str.strip c = c ∧ ¬ occurs (py " - ") c ∧ ¬ occurs (py "[") c.
Proof.
  unfold clean_title.
  set (t1 := Str.strip (Str.replace (py "[SubsPlease]") [] title)).
  set (t2 := Str.strip (Str.first (Str.split (py " - ") t1))).
  set (t3 := Str.strip (Str.first (Str.split (py "[") t2))).
  assert (occurs t3 t2) as H32.
  { eapply occurs_trans; [apply strip_occurs|].
    destruct (split_first_prefix (py "[") t2) as [b Hb].
    exists [], b. done. }
  simpl. split_and!.
  - apply strip_idem.
  - intros Hocc.
    apply (split_first_no_sep (py " - ") t1); [done|].
    eapply occurs_trans; [|apply strip_occurs].
    by eapply occurs_trans.
  - intros Hocc.
    apply (split_first_no_sep (py "[") t2); [done|].
    eapply occurs_trans; [|apply strip_occurs]. done.
Qed.

(** C6. The canonical series name of [fetch_anime_image] (drop the
    "[SubsPlease]" tag, keep what precedes " - ", keep what precedes "[",
    trimming after each step) is idempotent: deriving it from its own
    result changes nothing. *)
Theorem clean_title_idempotent (title : pystr) :
  clean_title (clean_title title) = clean_title title.
Proof.
  destruct (clean_title_shape title) as (Hstrip & Hdash & Hbr).
  set (c := clean_title title) in *.
  assert (¬ occurs (py "[SubsPlease]") c) as Htag.
  { intros (a & b & Hab). apply Hbr.
    exists a, (py "SubsPlease]" ++ b). by rewrite Hab. }
  unfold clean_title at 1.
  rewrite (replace_absent _ _ c Htag), Hstrip.
  rewrite (split_first_absent _ c Hdash), Hstrip.
  by rewrite (split_first_absent _ c Hbr).
Qed.

Lemma safe_title_chars title :
  Forall (λ c, Str.isalnum c || bool_decide (c ∈ py " -_") = true)
         (safe_title title).
Proof.
  unfold safe_title. apply rstrip_Forall.
  apply Forall_forall. intros c Hc%list_elem_of_In.
  by apply List.filter_In in Hc as [_ Hc].
Qed.

(** C7. The sanitised cache key never holds a path-traversal character:
    no "/", no backslash and no "..", whatever the title. *)
Theorem safe_title_no_traversal (title : pystr) :
  Str.contains (py "/") (safe_title title) = false
  ∧ Str.contains (py "\") (safe_title title) = false
  ∧ Str.contains (py "..") (safe_title title) = false.
Proof.
  pose proof (safe_title_chars title) as Hall.
  rewrite Forall_forall in Hall.
  assert (∀ c sub, c ∈ sub → occurs sub (safe_title title) →
          Str.isalnum c || bool_decide (c ∈ py " -_") = false → False) as Hno.
  { intros c sub Hc Hocc Hkeep. apply (occurs_elem c) in Hocc; [|done].
    apply Hall in Hocc. congruence. }
  split_and!; apply contains_false; intros Hocc.
  - apply (Hno 47 _ ltac:(by left) Hocc). reflexivity.
  - apply (Hno 92 _ ltac:(by left) Hocc). reflexivity.
  - apply (Hno 46 _ ltac:(by left) Hocc). reflexivity.
Qed.

End Titles.
(** ** The rate limiter *)

Section Limiter.
Context `{Float64} (env : Env).
Local Open Scope Q_scope.

(** A run is known once its final state is, then its value. *)
Lemma run_eq {A} (r r' : Res A) (s s' : Sys) :
  s = s' → r = r' → (r, s) = (r', s').
Proof. by intros -> ->. Qed.

Lemma lag_Q_nonneg l : 0 <= lag_Q l.
Proof. unfold lag_Q, Qle. simpl. lia. Qed.

(** One call: with a rate that is not zero it returns, having recorded the
    time it read last; it touches nothing but the clock, which does not go
    back.  Nothing is said here about how long the call takes: that depends
    on the rounding of the floats. *)
Lemma RateLimiter_wait_spec (self : RateLimiter) (s : Sys) :
  ¬ calls_per_second self == 0 →
  ∃ s', RateLimiter_wait env self s
        = (Ok (mk_RateLimiter (calls_per_second self)
                 (double (clock (world s')))), s')
        ∧ mgr s' = mgr s
        ∧ trace (world s') = trace (world s)
        ∧ files (world s') = files (world s)
        ∧ clock (world s) <= clock (world s').
Proof.
  intros Hcps.
  assert (Qeq_bool (calls_per_second self) 0 = false) as Hz.
  { destruct (Qeq_bool _ 0) eqn:E; [|done]. by apply Qeq_bool_iff in E. }
  unfold RateLimiter_wait, time_time, time_sleep, lift, raise.
  unfold mbind, M_bind, mret, M_ret, get_world, set_world. simpl.
  rewrite Hz.
  set (iv := double (1 / calls_per_second self)).
  set (since := double _).
  pose proof (lag_Q_nonneg (env_lag env (steps (world s)))) as L0.
  pose proof (lag_Q_nonneg (env_lag env (S (steps (world s))))) as L1.
  pose proof (lag_Q_nonneg (env_lag env (S (S (steps (world s)))))) as L2.
  destruct (Qlt_le_dec since iv) as [Hlt|Hge].
  - assert (0 <= double (iv - since)) as Hd by (apply double_nonneg; lra).
    destruct (Qlt_le_dec _ 0) as [Hneg|_]; [lra|].
    eexists. split; [apply run_eq; reflexivity|].
    simpl. split_and!; [done..|]. lra.
  - eexists. split; [apply run_eq; reflexivity|].
    simpl. split_and!; [done..|]. lra.
Qed.

End Limiter.
(** ** The poster cache *)

Section Runs.
Context {A B : Type}.

Lemma bind_ok (m : M A) (f : A → M B) (s s' : Sys) (a : A) :
  m s = (Ok a, s') → (m ≫= f) s = f a s'.
Proof. intros Hm. unfold mbind, M_bind. by rewrite Hm. Qed.

Lemma bind_raise (m : M A) (f : A → M B) (s s' : Sys) (e : exn) :
  m s = (Raise e, s') → (m ≫= f) s = (Raise e, s').
Proof. intros Hm. unfold mbind, M_bind. by rewrite Hm. Qed.
End Runs.

(** *** Printing *)

Section Printing.
Context (env : Env).

Lemma encodable_app (table : N → bool) (a b : pystr) :
  encodable table (a ++ b) = encodable table a && encodable table b.
Proof. apply forallb_app. Qed.

Lemma uint_ascii (d : Decimal.uint) :
  encodable (λ _, false) (py (NilEmpty.string_of_uint d)) = true.
Proof. induction d; simpl; done. Qed.

(** The digits and the sign of a number are ASCII. *)
Lemma str_of_int_ascii (n : Z) : encodable (λ _, false) (str_of_int n) = true.
Proof.
  unfold str_of_int, NilZero.string_of_int, NilZero.string_of_uint.
  destruct (Z.to_int n) as [d|d].
  - destruct d; try apply uint_ascii; done.
  - change (py (String "-" ?s)) with (45%N :: py s).
    destruct d; try apply uint_ascii; done.
Qed.

(** What an encoding without any table takes, every encoding takes. *)
Lemma encodable_ascii (table : N → bool) (text : pystr) :
  encodable (λ _, false) text = true → encodable table text = true.
Proof.
  unfold encodable. rewrite !forallb_forall. intros Hall c Hc.
  specialize (Hall c Hc). rewrite orb_false_r in Hall. by rewrite Hall.
Qed.

Lemma print_ok (line : log_line) (s : Sys) :
  encodable (env_stdout env) (line_text (env_str env (steps (world s))) line)
  = true →
  print env line s = (Ok (), mk_Sys (mgr s) (emit (EvPrint line) (world s))).
Proof.
  intros Henc. unfold print. erewrite bind_ok by reflexivity. by rewrite Henc.
Qed.

Lemma print_fails (line : log_line) (s : Sys) :
  encodable (env_stdout env) (line_text (env_str env (steps (world s))) line)
  = false →
  print env line s = (Raise UnicodeEncodeError, s).
Proof.
  intros Henc. unfold print. erewrite bind_ok by reflexivity. by rewrite Henc.
Qed.

(** A print either puts out its line or raises UnicodeEncodeError and
    changes nothing. *)
Lemma print_cases (line : log_line) (s : Sys) :
  (encodable (env_stdout env) (line_text (env_str env (steps (world s))) line)
   = true
   ∧ print env line s
     = (Ok (), mk_Sys (mgr s) (emit (EvPrint line) (world s))))
  ∨ (encodable (env_stdout env)
       (line_text (env_str env (steps (world s))) line) = false
     ∧ print env line s = (Raise UnicodeEncodeError, s)).
Proof.
  destruct (encodable (env_stdout env)
              (line_text (env_str env (steps (world s))) line)) eqn:Henc.
  - left. split; [done|]. by apply print_ok.
  - right. split; [done|]. by apply print_fails.
Qed.

Lemma encodable_cached (title : pystr) (str_e : exn → pystr) :
  encodable (env_stdout env) (line_text str_e (LogCached title))
  = encodable (env_stdout env) title.
Proof.
  cbn [line_text]. rewrite encodable_app.
  by rewrite (encodable_ascii (env_stdout env) (py "Using cached image for ")) by reflexivity.
Qed.

Lemma encodable_cached_ok (title : pystr) (str_e : exn → pystr) :
  encodable (env_stdout env) (line_text str_e (LogCachedOk title))
  = encodable (env_stdout env) title.
Proof.
  cbn [line_text]. rewrite encodable_app.
  by rewrite (encodable_ascii (env_stdout env) (py "Successfully cached image for "))
    by reflexivity.
Qed.

Lemma encodable_fetch_error (title : pystr) (attempt : nat) (e : exn)
    (str_e : exn → pystr) :
  encodable (env_stdout env) title = true →
  encodable (env_stdout env) (str_e e) = true →
  encodable (env_stdout env) (line_text str_e (LogFetchError title attempt e))
  = true.
Proof.
  intros Ht He. cbn [line_text].
  rewrite !encodable_app, Ht, He.
  rewrite !(encodable_ascii (env_stdout env) _ (str_of_int_ascii _)).
  rewrite (encodable_ascii (env_stdout env) (py "Error fetching image for ")) by reflexivity.
  rewrite (encodable_ascii (env_stdout env) (py " (attempt ")) by reflexivity.
  rewrite (encodable_ascii (env_stdout env) (py "/")) by reflexivity.
  by rewrite (encodable_ascii (env_stdout env) (py "): ")) by reflexivity.
Qed.

End Printing.

Section Cache.
Context `{UnicodeDB} `{Platform} `{Float64} (env : Env).

Lemma jikan_wait_spec (s : Sys) :
  ¬ (calls_per_second (jikan_limiter (mgr s)) == 0)%Q →
  ∃ s', jikan_wait env s = (Ok (), s')
        ∧ calls_per_second (jikan_limiter (mgr s'))
          = calls_per_second (jikan_limiter (mgr s))
        ∧ trace (world s') = trace (world s)
        ∧ files (world s') = files (world s).
Proof.
  intros Hcps.
  destruct (RateLimiter_wait_spec env _ s Hcps)
    as (s1 & Hw & Hmgr & Htr & Hfs & _).
  unfold jikan_wait.
  erewrite bind_ok by reflexivity. erewrite bind_ok by exact Hw.
  eexists. split; [reflexivity|]. done.
Qed.

Lemma requests_get_run (url : pystr) (s : Sys) :
  requests_get env url s
  = (env_http env (steps (world s)) url,
     mk_Sys (mgr s) (emit (EvHttpGet url) (tick (world s)))).
Proof. reflexivity. Qed.

(** The pause between two attempts touches the clock only. *)
Lemma backoff_run (attempt : nat) (s : Sys) :
  ∃ s', (if (attempt <? MAX_RETRIES - 1)%nat
         then time_sleep env 1 else mret ()) s = (Ok (), s')
        ∧ mgr s' = mgr s
        ∧ trace (world s') = trace (world s)
        ∧ files (world s') = files (world s).
Proof.
  destruct (attempt <? MAX_RETRIES - 1)%nat.
  - unfold time_sleep. destruct (Qlt_le_dec 1 0) as [Hneg|_]; [lra|].
    eexists. split; [reflexivity|]. done.
  - eexists. split; [reflexivity|]. done.
Qed.

(** The request of a pass of the loop against a failing API: it raises,
    one request into the pass. *)
Lemma fetch_attempt_fails (attempt : nat) (clean_title cache_path : pystr)
    (s : Sys) :
  ¬ (calls_per_second (jikan_limiter (mgr s)) == 0)%Q →
  (∀ n url, api_fails (env_http env n url)) →
  ∃ e s', fetch_attempt env attempt clean_title cache_path s = (Raise e, s')
          ∧ calls_per_second (jikan_limiter (mgr s'))
            = calls_per_second (jikan_limiter (mgr s))
          ∧ trace (world s')
            = trace (world s) ++ [EvHttpGet (query_url clean_title)]
          ∧ files (world s') = files (world s).
Proof.
  intros Hcps Hfail.
  destruct (jikan_wait_spec s Hcps) as (s1 & Hw & Hcps1 & Htr & Hfs).
  set (s2 := mk_Sys (mgr s1)
               (emit (EvHttpGet (query_url clean_title)) (tick (world s1)))).
  assert (∃ e, fetch_attempt env attempt clean_title cache_path s
               = (Raise e, s2)) as [e Hbody].
  { unfold fetch_attempt. cbv zeta.
    rewrite (bind_ok _ _ _ _ _ Hw).
    specialize (Hfail (steps (world s1)) (query_url clean_title)).
    destruct (env_http env (steps (world s1)) (query_url clean_title))
      as [response|e] eqn:Ehttp.
    - exists RequestException.
      erewrite bind_ok by (rewrite requests_get_run, Ehttp; reflexivity).
      apply bind_raise. unfold lift, raise_for_status.
      destruct Hfail as [Hlo%Z.leb_le Hhi%Z.ltb_lt]. by rewrite Hlo, Hhi.
    - exists e. apply bind_raise. by rewrite requests_get_run, Ehttp. }
  exists e, s2. split; [done|]. simpl. by rewrite Htr, Hfs.
Qed.

(** A pass of the loop against a failing API, with a standard output that
    takes the line of the error: one request, one logged error, and the
    loop goes on. *)
Lemma fetch_try_fails (attempt : nat) (clean_title cache_path : pystr)
    (s : Sys) :
  ¬ (calls_per_second (jikan_limiter (mgr s)) == 0)%Q →
  (∀ n url, api_fails (env_http env n url)) →
  encodable (env_stdout env) clean_title = true →
  (∀ n e, encodable (env_stdout env) (env_str env n e) = true) →
  ∃ e s', fetch_try env attempt clean_title cache_path s = (Ok None, s')
          ∧ calls_per_second (jikan_limiter (mgr s'))
            = calls_per_second (jikan_limiter (mgr s))
          ∧ trace (world s')
            = trace (world s)
              ++ [EvHttpGet (query_url clean_title);
                  EvPrint (LogFetchError clean_title (attempt + 1) e)]
          ∧ files (world s') = files (world s).
Proof.
  intros Hcps Hfail Htitle Hstr.
  destruct (fetch_attempt_fails attempt clean_title cache_path s Hcps Hfail)
    as (e & s2 & Hbody & Hcps2 & Htr & Hfs).
  set (s3 := mk_Sys (mgr s2)
               (emit (EvPrint (LogFetchError clean_title (attempt + 1) e))
                  (world s2))).
  destruct (backoff_run attempt s3) as (s' & Hb & Hm & Ht & Hf).
  exists e, s'. split.
  - unfold fetch_try, try_except. rewrite Hbody.
    erewrite bind_ok
      by (apply print_ok, encodable_fetch_error; [exact Htitle|apply Hstr]).
    fold s3. erewrite bind_ok by exact Hb. reflexivity.
  - rewrite Hm, Ht, Hf. simpl. rewrite Htr, Hfs, Hcps2, <- (assoc_L (++)). done.
Qed.



End Cache.

(** ** Tracking, untracking and the download client *)

Section RunsInv.
Context {A B : Type}.

Lemma bind_inv (m : M A) (f : A → M B) (s s' : Sys) (b : B) :
  (m ≫= f) s = (Ok b, s') →
  ∃ a s1, m s = (Ok a, s1) ∧ f a s1 = (Ok b, s').
Proof.
  unfold mbind, M_bind. destruct (m s) as [[a|e] s1]; [eauto|done].
Qed.

Lemma keeps_bind (m : M A) (f : A → M B) :
  keeps_tracked m → (∀ a, keeps_tracked (f a)) → keeps_tracked (m ≫= f).
Proof.
  intros Hm Hf s r s'. unfold mbind, M_bind.
  destruct (m s) as [[a|e] s1] eqn:E.
  - intros Hfa. rewrite (Hf _ _ _ _ Hfa). by eapply Hm.
  - intros [= <- <-]. by eapply Hm.
Qed.

Lemma keeps_try (m : M A) (h : exn → M A) :
  keeps_tracked m → (∀ e, keeps_tracked (h e)) →
  keeps_tracked (try_except m h).
Proof.
  intros Hm Hh s r s'. unfold try_except.
  destruct (m s) as [[a|e] s1] eqn:E.
  - intros [= <- <-]. by eapply Hm.
  - intros He. rewrite (Hh _ _ _ _ He). by eapply Hm.
Qed.
End RunsInv.

Create HintDb keeps.

Section Keeps.
Context (env : Env).

Lemma keeps_ret {A} (a : A) : keeps_tracked (mret a).
Proof. by intros s r s' [= <- <-]. Qed.

Lemma keeps_lift {A} (r : Res A) : keeps_tracked (lift r).
Proof. by intros s r' s' [= <- <-]. Qed.

Lemma keeps_raise {A} (e : exn) : keeps_tracked (@raise A e).
Proof. apply keeps_lift. Qed.

Lemma keeps_get_mgr : keeps_tracked get_mgr.
Proof. by intros s r s' [= <- <-]. Qed.

Lemma keeps_get_world : keeps_tracked get_world.
Proof. by intros s r s' [= <- <-]. Qed.

Lemma keeps_set_world f : keeps_tracked (set_world f).
Proof. by intros s r s' [= <- <-]. Qed.

Lemma keeps_set_settings x : keeps_tracked (set_mgr (set_settings x)).
Proof. by intros s r s' [= <- <-]. Qed.

Lemma keeps_set_qb_client x : keeps_tracked (set_mgr (set_qb_client x)).
Proof. by intros s r s' [= <- <-]. Qed.

Hint Resolve keeps_ret keeps_lift keeps_raise keeps_get_mgr keeps_get_world
  keeps_set_world keeps_set_settings keeps_set_qb_client : keeps.

Ltac keeps :=
  repeat first
    [ progress eauto with keeps
    | apply keeps_bind; [|intros ?]
    | apply keeps_try; [|intros ?]
    | match goal with
      | |- keeps_tracked (match ?x with _ => _ end) => destruct x
      | |- keeps_tracked (if ?x then _ else _) => destruct x
      end ].

Lemma keeps_print line : keeps_tracked (print env line).
Proof. unfold print. keeps. Qed.

Lemma keeps_message_box k t x : keeps_tracked (message_box k t x).
Proof. apply keeps_set_world. Qed.

Lemma keeps_status_text t : keeps_tracked (status_text t).
Proof. apply keeps_set_world. Qed.

Lemma keeps_single_shot d t : keeps_tracked (single_shot d t).
Proof. apply keeps_set_world. Qed.

Hint Resolve keeps_print keeps_message_box keeps_status_text
  keeps_single_shot : keeps.

Lemma keeps_setting key : keeps_tracked (setting key).
Proof. unfold setting. keeps. Qed.

Lemma keeps_write_file path data : keeps_tracked (write_file env path data).
Proof. unfold write_file. keeps. Qed.

Hint Resolve keeps_setting keeps_write_file : keeps.

Lemma keeps_save_settings x : keeps_tracked (save_settings env x).
Proof. unfold save_settings. keeps. Qed.

Lemma keeps_fetch_rss_feed : keeps_tracked (fetch_rss_feed env).
Proof. unfold fetch_rss_feed, feedparser_parse. keeps. Qed.

Lemma keeps_setup_qbittorrent : keeps_tracked (setup_qbittorrent env).
Proof. unfold setup_qbittorrent, auth_log_in. keeps. Qed.

Lemma keeps_add_torrent link category :
  keeps_tracked (add_torrent env link category).
Proof. unfold add_torrent, torrents_add. keeps. Qed.

Hint Resolve keeps_save_settings keeps_fetch_rss_feed
  keeps_setup_qbittorrent keeps_add_torrent : keeps.

Lemma keeps_try_connect h u p : keeps_tracked (try_connect env h u p).
Proof. unfold try_connect. keeps. Qed.

Hint Resolve keeps_try_connect : keeps.

Lemma keeps_dialog_attempts script : keeps_tracked (dialog_attempts env script).
Proof.
  induction script as [|[[h u] p] script IH]; simpl; keeps.
Qed.

Hint Resolve keeps_dialog_attempts : keeps.

Lemma keeps_ensure_qbittorrent_connection :
  keeps_tracked (ensure_qbittorrent_connection env).
Proof.
  unfold ensure_qbittorrent_connection, dialog_exec,
    update_qbittorrent_status.
  keeps.
Qed.

(** C10. [add_torrent] never forwards the category it is given: with a
    session, the one submission it makes carries "Anime" when the argument
    is truthy and no category when it is None or empty; without a session
    it submits nothing. *)
Theorem add_torrent_category (link category : option pystr) (s : Sys) :
  submissions (trace (world (add_torrent env link category s).2))
  = submissions (trace (world s))
    ++ match qb_client (mgr s) with
       | Some _ =>
           [([link], if truthy_arg category then Some (py "Anime") else None)]
       | None => []
       end.
Proof.
  unfold add_torrent, try_except, mbind, M_bind, get_mgr.
  destruct (qb_client (mgr s)) as [c|]; simpl; [|by rewrite app_nil_r].
  destruct (env_torrents_add env _ c _ _) as [[]|e]; simpl.
  - unfold submissions. rewrite omap_app. simpl. done.
  - match goal with |- context [print env ?line ?s0] =>
      destruct (print_cases env line s0) as [[_ ->] | [_ ->]]
    end; simpl; unfold submissions; rewrite ?omap_app; simpl;
      by rewrite ?app_nil_r.
Qed.

(** [save_tracked_anime], outcome by outcome: the list in memory is set
    only after the write. *)
Lemma save_tracked_anime_run tracked (s : Sys) :
  save_tracked_anime env tracked s
  = if env_open env (steps (world s)) TRACKED_FILE
    then if encodable (env_locale env) (Str.join [10] tracked)
         then (Ok (),
               mk_Sys (set_tracked_anime tracked (mgr s))
                 (emit (EvWrite TRACKED_FILE (FText (Str.join [10] tracked)))
                    (store TRACKED_FILE (FText (Str.join [10] tracked))
                       (tick (world s)))))
         else (Raise UnicodeEncodeError,
               mk_Sys (mgr s) (store TRACKED_FILE (FText []) (tick (world s))))
    else (Raise OSError, mk_Sys (mgr s) (tick (world s))).
Proof.
  unfold save_tracked_anime, write_file, mbind, M_bind, get_world, set_world,
    set_mgr, raise, lift. simpl.
  destruct (env_open env (steps (world s)) TRACKED_FILE); [|done].
  by destruct (encodable _ _).
Qed.

Lemma save_tracked_anime_ok tracked (s s' : Sys) :
  save_tracked_anime env tracked s = (Ok (), s') →
  tracked_anime (mgr s') = tracked
  ∧ files (world s') !! TRACKED_FILE = Some (FText (Str.join [10] tracked))
  ∧ encodable (env_locale env) (Str.join [10] tracked) = true.
Proof.
  rewrite save_tracked_anime_run.
  destruct (env_open env (steps (world s)) TRACKED_FILE); [|done].
  destruct (encodable _ _); [|done].
  intros [= <-]. simpl. by rewrite lookup_insert_eq.
Qed.

(** The text of the tracked file can be written when each entry can. *)
Lemma encodable_join (table : N → bool) (l : list pystr) :
  encodable table (Str.join [10] l) = forallb (encodable table) l.
Proof.
  induction l as [|t l IH]; [done|].
  destruct l as [|t' l]; [simpl; by rewrite andb_true_r|].
  change (Str.join [10] (t :: t' :: l))
    with (t ++ [10] ++ Str.join [10] (t' :: l)).
  rewrite !encodable_app, IH. done.
Qed.

End Keeps.

Section Clicks.
Context (env : Env).

Ltac inv_bind H :=
  let a := fresh "a" in let s := fresh "s" in let E := fresh "E" in
  apply bind_inv in H as (a & s & E & H).

(** What a click that ends in "Started downloading" has done. *)
Lemma on_anime_clicked_started (title : pystr) (s s' : Sys) :
  on_anime_clicked env title s = (Ok StartedDownloading, s') →
  is_tracked (series_name_of title) (tracked_anime (mgr s)) = false
  ∧ tracked_anime (mgr s')
    = tracked_anime (mgr s) ++ [series_name_of title]
  ∧ files (world s') !! TRACKED_FILE
    = Some (FText (Str.join [10] (tracked_anime (mgr s'))))
  ∧ encodable (env_locale env) (Str.join [10] (tracked_anime (mgr s')))
    = true.
Proof.
  unfold on_anime_clicked. intros Hrun.
  inv_bind Hrun. injection E as <- <-.
  destruct (is_tracked _ _) eqn:Htr.
  { repeat inv_bind Hrun. done. }
  split; [done|].
  inv_bind Hrun. apply keeps_fetch_rss_feed in E as Hk1.
  destruct a as [entries|]; [|repeat inv_bind Hrun; done].
  destruct (List.find _ entries) as [entry|]; [|repeat inv_bind Hrun; done].
  inv_bind Hrun. injection E0 as <- <-.
  inv_bind Hrun.
  assert (tracked_anime (mgr s1) = tracked_anime (mgr s0)) as Hk2.
  { destruct (qb_client (mgr s0)).
    - by injection E0 as <- <-.
    - by apply keeps_ensure_qbittorrent_connection in E0. }
  destruct a; simpl in Hrun; [|repeat inv_bind Hrun; done].
  inv_bind Hrun. apply keeps_add_torrent in E1 as Hk3.
  destruct a; [|repeat inv_bind Hrun; done].
  inv_bind Hrun. injection E2 as <- <-.
  inv_bind Hrun. injection E2 as <- <-.
  inv_bind Hrun. injection E2 as <- <-.
  inv_bind Hrun. destruct a.
  apply save_tracked_anime_ok in E2 as (Hsaved & Hfile & Henc).
  simpl in Hsaved, Hfile, Henc.
  repeat inv_bind Hrun. injection Hrun as <-.
  repeat match goal with
         | E : single_shot _ _ _ = _ |- _ => injection E as <- <-
         | E : message_box _ _ _ _ = _ |- _ => injection E as <- <-
         end.
  cbn [mgr world tracked_anime files emit].
  rewrite Hsaved, Hfile, Hk3, Hk2, Hk1 in *. done.
Qed.

End Clicks.

Section TrackUntrack.
Context (env : Env).

Lemma contains_self (s : pystr) : Str.contains s s = true.
Proof. apply contains_true, occurs_refl. Qed.

Lemma untrack_appended (series_name : pystr) (tracked : list pystr) :
  is_tracked series_name tracked = false →
  is_tracked series_name (tracked ++ [series_name]) = true
  ∧ untrack series_name (tracked ++ [series_name]) = tracked.
Proof.
  unfold is_tracked, untrack. induction tracked as [|a l IH]; simpl.
  - intros _. by rewrite contains_self.
  - intros [Ha Hl]%orb_false_elim. rewrite Ha. simpl.
    destruct (IH Hl) as [-> ->]. done.
Qed.


(** C3. After a click has tracked a title, a second click on the same
    title takes the untracking branch and leaves the tracked list exactly
    as it was before the first click (same entries, same order), also when
    the tracked file cannot be rewritten. *)
Theorem track_then_untrack (title : pystr) (s s1 s2 : Sys)
    (r : Res click_result) :
  on_anime_clicked env title s = (Ok StartedDownloading, s1) →
  on_anime_clicked env title s1 = (r, s2) →
  (r = Ok StoppedTracking ∨ r = Raise OSError)
  ∧ tracked_anime (mgr s2) = tracked_anime (mgr s).
Proof.
  intros (Hfresh & Happ & _ & Henc)%on_anime_clicked_started.
  destruct (untrack_appended _ _ Hfresh) as [Hin Hout].
  rewrite <- Happ in Hin, Hout.
  assert (encodable (env_locale env) (Str.join [10] (tracked_anime (mgr s)))
          = true) as Hold.
  { rewrite Happ, encodable_join, forallb_app in Henc.
    rewrite encodable_join. by apply andb_true_iff in Henc as [? _]. }
  unfold on_anime_clicked.
  erewrite bind_ok by reflexivity. rewrite Hin.
  erewrite bind_ok by reflexivity. erewrite bind_ok by reflexivity.
  cbn [mgr world tracked_anime set_tracked_anime]. rewrite Hout.
  match goal with |- (save_tracked_anime env ?l ≫= _) ?s0 = _ → _ =>
    pose proof (save_tracked_anime_run env l s0) as Hsave
  end.
  cbn [mgr world steps] in Hsave. rewrite Hold in Hsave.
  destruct (env_open env (steps (world s1)) TRACKED_FILE).
  - rewrite (bind_ok _ _ _ _ _ Hsave).
    unfold single_shot, message_box, mbind, M_bind, mret, M_ret, set_world.
    intros [= <- <-]. auto.
  - rewrite (bind_raise _ _ _ _ _ Hsave). intros [= <- <-]. auto.
Qed.

End TrackUntrack.

(** ** The countdown *)

(** The broadcast of today is always counted for next week, and no entry is
    ever less than a day or more than a week away in days. *)
Lemma days_until_same_day (d : Z) : days_until d d = 7%Z.
Proof. unfold days_until. by rewrite Z.sub_diag. Qed.

Lemma days_until_range (day_index current_day_index : Z) :
  (0 ≤ day_index ≤ 6)%Z → (0 ≤ current_day_index ≤ 6)%Z →
  (1 ≤ days_until day_index current_day_index ≤ 7)%Z.
Proof.
  intros Hd Hc. unfold days_until.
  destruct (Z.leb_spec (day_index - current_day_index) 0); lia.
Qed.

Section Countdown.
Context `{UnicodeDB}.

(** A loop raises as soon as one element makes its body raise from every
    state: that element is reached unless an earlier one raised. *)
Lemma for_each_raises {A S} (l : list A) (body : A → S → Res S) (x : A) :
  x ∈ l → (∀ st, ∃ e, body x st = Raise e) →
  ∀ st, ∃ e, for_each l body st = Raise e.
Proof.
  intros Hx Hbody. induction l as [|y l IH]; intros st.
  - by apply elem_of_nil in Hx.
  - simpl. unfold mbind, Res_bind.
    destruct (body y st) as [st'|e] eqn:Ey; [|eauto].
    apply elem_of_cons in Hx as [<- | Hx]; [|by apply IH].
    destruct (Hbody st) as [e He]. congruence.
Qed.

Lemma replace_overflow (dt : datetime) (y m d : Z) :
  (DateTime.days_in_month y m < d)%Z →
  DateTime.replace dt y m d = Raise ValueError.
Proof.
  intros Hd. unfold DateTime.replace, DateTime.valid_date.
  assert ((d <=? DateTime.days_in_month y m)%Z = false) as ->
    by by apply Z.leb_gt.
  by rewrite andb_false_r.
Qed.

(** The date arithmetic raises on an entry whose day falls past the end of
    the current month. *)
Lemma countdown_show_overflow (series_name : pystr) (now : datetime)
    (day_name : pystr) (show : json) (time_str : pystr)
    (anime_time : datetime) (day_index : Z) (next_time : option datetime) :
  broadcasts series_name show time_str →
  DateTime.strptime_HM time_str = Ok anime_time →
  list_index (Str.lower day_name) weekday_names = Ok day_index →
  (DateTime.days_in_month (year now) (month now)
   < day now + days_until day_index (DateTime.weekday now))%Z →
  countdown_show series_name now day_name show next_time = Raise ValueError.
Proof.
  intros (fields & title & -> & Htitle & Hhit & Htime) Hparse Hday Hover.
  unfold countdown_show, mbind, Res_bind, Json.getitem, Json.contains.
  rewrite Htitle, Hhit, Htime, Hparse, Hday.
  by rewrite replace_overflow.
Qed.

(** The state in which the handler of [update_countdown] starts when the
    loop raised: the schedule has been fetched and the clock read. *)
Lemma update_countdown_raises (env : Env) (series_name : pystr) (s s1 : Sys)
    (payload : list (pystr * json)) (e : exn) :
  fetch_schedule env s = (Ok (JDict payload), s1) →
  payload ≠ [] →
  next_episode_time series_name (env_utcnow env (steps (world s1)))
    (JDict payload) = Raise e →
  update_countdown env series_name s
  = (print env (LogError (py "Error updating countdown") e);;
     mret (py "Schedule unavailable")) (mk_Sys (mgr s1) (tick (world s1))).
Proof.
  intros Hfetch Hsome Hraise.
  unfold update_countdown, try_except.
  rewrite (bind_ok _ _ _ _ _ Hfetch).
  assert (Json.truthy (JDict payload) = true) as ->
    by (by destruct payload).
  change (negb true) with false. cbv iota.
  erewrite bind_ok by reflexivity.
  erewrite bind_raise; [reflexivity|].
  unfold lift. by rewrite Hraise.
Qed.

Lemma update_countdown_overflow (env : Env) (series_name : pystr)
    (s s1 : Sys) (payload schedule : list (pystr * json))
    (day_name : pystr) (shows : list json) (show : json)
    (time_str : pystr) (anime_time : datetime) (day_index : Z) :
  fetch_schedule env s = (Ok (JDict payload), s1) →
  Json.assoc (py "schedule") payload = Some (JDict schedule) →
  (day_name, JList shows) ∈ schedule →
  show ∈ shows →
  broadcasts series_name show time_str →
  DateTime.strptime_HM time_str = Ok anime_time →
  list_index (Str.lower day_name) weekday_names = Ok day_index →
  (let now := env_utcnow env (steps (world s1)) in
   DateTime.days_in_month (year now) (month now)
   < day now + days_until day_index (DateTime.weekday now))%Z →
  let now := env_utcnow env (steps (world s1)) in
  let s2 := mk_Sys (mgr s1) (tick (world s1)) in
  (∀ next_time,
     countdown_show series_name now day_name show next_time = Raise ValueError)
  ∧ ∃ e,
      next_episode_time series_name now (JDict payload) = Raise e
      ∧ update_countdown env series_name s
        = if encodable (env_stdout env)
               (line_text (env_str env (steps (world s2)))
                  (LogError (py "Error updating countdown") e))
          then (Ok (py "Schedule unavailable"),
                mk_Sys (mgr s2)
                  (emit (EvPrint (LogError (py "Error updating countdown") e))
                     (world s2)))
          else (Raise UnicodeEncodeError, s2).
Proof.
  intros Hfetch Hsched Hday Hshow Hb Hparse Hidx Hover now s2.
  assert (∀ next_time,
            countdown_show series_name now day_name show next_time
            = Raise ValueError) as Hentry.
  { intros next_time. by eapply countdown_show_overflow. }
  split; [exact Hentry|].
  assert (∃ e, next_episode_time series_name now (JDict payload) = Raise e)
    as [e Hraise].
  { unfold next_episode_time. simpl. rewrite Hsched. simpl.
    apply (for_each_raises _ _ (day_name, JList shows)); [done|].
    intros st. unfold countdown_day. simpl.
    apply (for_each_raises _ _ show); [done|].
    intros st'. exists ValueError. apply Hentry. }
  exists e. split; [exact Hraise|].
  rewrite (update_countdown_raises env series_name s s1 payload e);
    [|done|by intros ->|done].
  fold s2.
  destruct (print_cases env (LogError (py "Error updating countdown") e) s2)
    as [[Henc Hprint] | [Henc Hprint]]; rewrite Henc.
  - by rewrite (bind_ok _ _ _ _ _ Hprint).
  - by rewrite (bind_raise _ _ _ _ _ Hprint).
Qed.

End Countdown.

(** C1. The specification's example, run on the code: with the schedule
    {monday: [{time: "10:00", title: "X"}]} and the clock at Monday 09:00
    UTC, the label for series "X" reads 7 days 1 hour, not 1 hour: a
    broadcast later on the same day is pushed a week ahead. *)
Theorem countdown_same_day_pushed_a_week :
  (@update_countdown ascii_only monday_env
     (py "X") sample_sys).1
  = Ok (py "Next episode in: 7d 1h 0m").
Proof. vm_compute. reflexivity. Qed.

(** C9. There is an instant and a schedule with a matching entry for which
    the countdown fails inside and the label reads "Schedule unavailable"
    (Monday 29 January 2024, 09:00, and a Monday 10:00 broadcast: the
    computation raises ValueError, the handler prints the error and sets the
    label).  In general, whenever the day of the month plus the days until
    the broadcast exceeds the length of the current month, the date
    arithmetic raises ValueError at that entry, the computation of the next
    episode raises, and the run is that of the error branch: the error is
    printed and the label reads "Schedule unavailable", unless standard
    output cannot encode the printed line, in which case the print itself
    raises. *)
Theorem countdown_month_overflow :
  (let env := sample_env monday_schedule last_monday_0900 in
   @next_episode_time ascii_only (py "X") last_monday_0900 monday_schedule
   = Raise ValueError
   ∧ ∃ s', @update_countdown ascii_only env (py "X") sample_sys
           = (Ok (py "Schedule unavailable"), s')
           ∧ trace (world s')
             = [EvHttpGet (py "https://subsplease.org/api/?f=schedule&tz=UTC");
                EvPrint (LogError (py "Error updating countdown") ValueError)])
  ∧ ∀ (U : UnicodeDB) (env : Env) (series_name : pystr) (s s1 : Sys)
      (payload schedule : list (pystr * json)) (day_name : pystr)
      (shows : list json) (show : json) (time_str : pystr)
      (anime_time : datetime) (day_index : Z),
      fetch_schedule env s = (Ok (JDict payload), s1) →
      Json.assoc (py "schedule") payload = Some (JDict schedule) →
      (day_name, JList shows) ∈ schedule →
      show ∈ shows →
      broadcasts series_name show time_str →
      DateTime.strptime_HM time_str = Ok anime_time →
      list_index (Str.lower day_name) weekday_names = Ok day_index →
      (let now := env_utcnow env (steps (world s1)) in
       DateTime.days_in_month (year now) (month now)
       < day now + days_until day_index (DateTime.weekday now))%Z →
      let now := env_utcnow env (steps (world s1)) in
      let s2 := mk_Sys (mgr s1) (tick (world s1)) in
      (∀ next_time,
         countdown_show series_name now day_name show next_time
         = Raise ValueError)
      ∧ ∃ e,
          next_episode_time series_name now (JDict payload) = Raise e
          ∧ update_countdown env series_name s
            = if encodable (env_stdout env)
                   (line_text (env_str env (steps (world s2)))
                      (LogError (py "Error updating countdown") e))
              then (Ok (py "Schedule unavailable"),
                    mk_Sys (mgr s2)
                      (emit (EvPrint
                               (LogError (py "Error updating countdown") e))
                         (world s2)))
              else (Raise UnicodeEncodeError, s2).
Proof.
  split.
  - split; [vm_compute; reflexivity|].
    eexists. split; vm_compute; reflexivity.
  - intros. by eapply update_countdown_overflow.
Qed.

(** ** Concrete runs *)

Section SampleRuns.
#[local] Existing Instance ascii_only.
#[local] Existing Instance posix.
#[local] Existing Instance exact_floats.

(** [on_anime_clicked] derives its series name without the cut at "[" and
    without the last trim; unlike [clean_title], that shorter derivation is
    not idempotent. *)
Example series_name_of_twice :
  series_name_of (py "A  - 01") = py "A "
  ∧ series_name_of (series_name_of (py "A  - 01")) = py "A".
Proof. split; reflexivity. Qed.

(** The second half of the specification's example: at Monday 11:00 the
    label reads 7 days minus 1 hour. *)
Example countdown_after_broadcast :
  (update_countdown
     (sample_env monday_schedule (mk_datetime 2024 1 1 11 0 0 0))
     (py "X") sample_sys).1
  = Ok (py "Next episode in: 6d 23h 0m").
Proof. vm_compute. reflexivity. Qed.



Lemma track_then_untrack_witness :
  let first := on_anime_clicked monday_env sample_title sample_sys in
  let second := on_anime_clicked monday_env sample_title first.2 in
  first = (Ok StartedDownloading, first.2)
  ∧ second = (second.1, second.2)
  ∧ (second.1 = Ok StoppedTracking ∨ second.1 = Raise OSError)
  ∧ tracked_anime (mgr second.2) = tracked_anime (mgr sample_sys).
Proof.
  intros first second.
  assert (first = (Ok StartedDownloading, first.2)) as H1
    by (vm_compute; reflexivity).
  assert (second = (second.1, second.2)) as H2 by (by destruct second).
  split; [exact H1|]. split; [exact H2|].
  exact (track_then_untrack monday_env sample_title sample_sys first.2 second.2
           second.1 H1 H2).
Defined.





Lemma countdown_month_overflow_witness :
  let env := sample_env monday_schedule last_monday_0900 in
  let show := JDict [(py "time", JStr (py "10:00"));
                     (py "title", JStr (py "X"))] in
  let schedule := [(py "monday", JList [show])] in
  let payload := [(py "schedule", JDict schedule)] in
  let s1 := (fetch_schedule env sample_sys).2 in
  let now := env_utcnow env (steps (world s1)) in
  let s2 := mk_Sys (mgr s1) (tick (world s1)) in
  fetch_schedule env sample_sys = (Ok (JDict payload), s1)
  ∧ Json.assoc (py "schedule") payload = Some (JDict schedule)
  ∧ (py "monday", JList [show]) ∈ schedule
  ∧ show ∈ [show]
  ∧ broadcasts (py "X") show (py "10:00")
  ∧ DateTime.strptime_HM (py "10:00") = Ok (mk_datetime 1900 1 1 10 0 0 0)
  ∧ list_index (Str.lower (py "monday")) weekday_names = Ok 0%Z
  ∧ (DateTime.days_in_month (year now) (month now)
     < day now + days_until 0 (DateTime.weekday now))%Z
  ∧ (∀ next_time,
       countdown_show (py "X") now (py "monday") show next_time
       = Raise ValueError)
  ∧ ∃ e,
      next_episode_time (py "X") now (JDict payload) = Raise e
      ∧ update_countdown env (py "X") sample_sys
        = if encodable (env_stdout env)
               (line_text (env_str env (steps (world s2)))
                  (LogError (py "Error updating countdown") e))
          then (Ok (py "Schedule unavailable"),
                mk_Sys (mgr s2)
                  (emit (EvPrint (LogError (py "Error updating countdown") e))
                     (world s2)))
          else (Raise UnicodeEncodeError, s2).
Proof.
  intros env show schedule payload s1 now s2.
  assert (fetch_schedule env sample_sys = (Ok (JDict payload), s1)) as H1
    by reflexivity.
  assert (Json.assoc (py "schedule") payload = Some (JDict schedule)) as H2
    by reflexivity.
  assert ((py "monday", JList [show]) ∈ schedule) as H3 by (by left).
  assert (show ∈ [show]) as H4 by (by left).
  assert (broadcasts (py "X") show (py "10:00")) as H5
    by (eexists _, _; split_and!; reflexivity).
  assert (DateTime.strptime_HM (py "10:00")
          = Ok (mk_datetime 1900 1 1 10 0 0 0)) as H6 by reflexivity.
  assert (list_index (Str.lower (py "monday")) weekday_names = Ok 0%Z) as H7
    by reflexivity.
  assert (DateTime.days_in_month (year now) (month now)
          < day now + days_until 0 (DateTime.weekday now))%Z as H8
    by reflexivity.
  split_and!; try assumption.
  - exact (proj1 (proj2 countdown_month_overflow ascii_only env (py "X")
                    sample_sys s1 payload schedule (py "monday") [show] show
                    (py "10:00") (mk_datetime 1900 1 1 10 0 0 0) 0%Z
                    H1 H2 H3 H4 H5 H6 H7 H8)).
  - exact (proj2 (proj2 countdown_month_overflow ascii_only env (py "X")
                    sample_sys s1 payload schedule (py "monday") [show] show
                    (py "10:00") (mk_datetime 1900 1 1 10 0 0 0) 0%Z
                    H1 H2 H3 H4 H5 H6 H7 H8)).
Defined.

End SampleRuns.

(** * Further properties of the code *)

(** ** Sorting *)

Section SortingFacts.
Context {A : Type} (lt : A → A → bool).
Hypothesis lt_asym : ∀ a b, lt a b = true → lt b a = false.
Hypothesis lt_negtrans : ∀ a b c, lt a b = false → lt b c = false → lt a c = false.

Lemma insert_sorted_perm (x : A) (l : list A) : insert_sorted lt x l ≡ₚ x :: l.
Proof.
  induction l as [|y l IH]; simpl; [done|].
  destruct (lt y x); [|done]. rewrite IH. apply Permutation_swap.
Qed.

Lemma stable_sort_perm (l : list A) : stable_sort lt l ≡ₚ l.
Proof.
  induction l as [|x l IH]; simpl; [done|].
  by rewrite insert_sorted_perm, IH.
Qed.

Lemma insert_sorted_sorted (x : A) (l : list A) :
  StronglySorted (λ a b, lt b a = false) l →
  StronglySorted (λ a b, lt b a = false) (insert_sorted lt x l).
Proof using Type*.
  induction l as [|y l IH]; simpl; intros Hl.
  - repeat constructor.
  - apply StronglySorted_cons in Hl as [Hy Hl].
    destruct (lt y x) eqn:E.
    + apply StronglySorted_cons. split; [|by apply IH].
      rewrite insert_sorted_perm. constructor; [by apply lt_asym|done].
    + apply StronglySorted_cons. split.
      * constructor; [done|]. eapply Forall_impl; [exact Hy|].
        intros z Hz. simpl in Hz. by apply (lt_negtrans z y x).
      * by apply StronglySorted_cons.
Qed.

Lemma stable_sort_sorted (l : list A) :
  StronglySorted (λ a b, lt b a = false) (stable_sort lt l).
Proof using Type*.
  induction l as [|x l IH]; simpl; [constructor|].
  by apply insert_sorted_sorted.
Qed.

(** Stability: the elements that satisfy a predicate which [lt] cannot tell
    apart (all of one key) come out in the order they went in. *)
Lemma insert_sorted_filter (P : A → bool) (x : A) (l : list A) :
  (∀ a b, P a = true → P b = true → lt a b = false) →
  List.filter P (insert_sorted lt x l) = List.filter P (x :: l).
Proof.
  intros HP. induction l as [|y l IH]; [done|].
  cbn [insert_sorted]. destruct (lt y x) eqn:E; [|done].
  cbn [List.filter] in *. rewrite IH.
  destruct (P y) eqn:Ey, (P x) eqn:Ex; try done.
  by rewrite HP in E.
Qed.

Lemma stable_sort_filter (P : A → bool) (l : list A) :
  (∀ a b, P a = true → P b = true → lt a b = false) →
  List.filter P (stable_sort lt l) = List.filter P l.
Proof.
  intros HP. induction l as [|x l IH]; [done|].
  cbn [stable_sort foldr]. rewrite insert_sorted_filter by done.
  cbn [List.filter]. fold (stable_sort lt l). by rewrite IH.
Qed.

End SortingFacts.

Section StrOrder.
Implicit Types a b c : pystr.

Lemma str_lt_irrefl a : str_lt a a = false.
Proof.
  induction a as [|x a IH]; [done|]. simpl.
  by rewrite N.ltb_irrefl, N.eqb_refl, IH.
Qed.

Lemma str_lt_asym a b : str_lt a b = true → str_lt b a = false.
Proof.
  revert b. induction a as [|x a IH]; intros [|y b]; simpl; try done.
  intros [Hlt | [Heq Hab]%andb_true_iff]%orb_true_iff.
  - apply N.ltb_lt in Hlt.
    assert ((y <? x) = false) as -> by (apply N.ltb_ge; lia).
    assert ((y =? x) = false) as -> by (apply N.eqb_neq; lia). done.
  - apply N.eqb_eq in Heq as ->.
    by rewrite N.ltb_irrefl, N.eqb_refl, (IH _ Hab).
Qed.

Lemma str_lt_negtrans a b c :
  str_lt a b = false → str_lt b c = false → str_lt a c = false.
Proof.
  revert b c. induction a as [|x a IH]; intros [|y b] [|z c]; simpl; try done.
  intros [Hxy Hab]%orb_false_iff [Hyz Hbc]%orb_false_iff.
  apply N.ltb_ge in Hxy, Hyz. apply orb_false_iff.
  split; [apply N.ltb_ge; lia|].
  destruct (x =? z) eqn:Exz; [|done]. apply N.eqb_eq in Exz as ->.
  assert (y = z) as -> by lia.
  rewrite N.eqb_refl in Hab, Hbc. simpl in *. by eapply IH.
Qed.

Lemma str_lt_antisym a b : str_lt a b = false → str_lt b a = false → a = b.
Proof.
  revert b. induction a as [|x a IH]; intros [|y b]; simpl; try done.
  intros [Hxy Hab]%orb_false_iff [Hyx Hba]%orb_false_iff.
  apply N.ltb_ge in Hxy, Hyx. assert (x = y) as -> by lia.
  rewrite N.eqb_refl in Hab, Hba. f_equal. by apply IH.
Qed.

Lemma sorted_perm (l : list pystr) : sorted l ≡ₚ l.
Proof. apply stable_sort_perm. Qed.

Lemma sorted_sorted (l : list pystr) :
  StronglySorted (λ a b, str_lt b a = false) (sorted l).
Proof. apply stable_sort_sorted; [apply str_lt_asym|apply str_lt_negtrans]. Qed.

(** The result of [sorted] depends on the elements only, not on their order
    in the argument. *)
Lemma sorted_order_irrelevant (l l' : list pystr) :
  l ≡ₚ l' → sorted l = sorted l'.
Proof.
  intros Hp.
  apply (StronglySorted_unique_strong (λ a b, str_lt b a = false));
    [|apply sorted_sorted..|by rewrite !sorted_perm].
  intros a b _ _ Hab Hba. by apply str_lt_antisym.
Qed.

Lemma sorted_set_strict (l : list pystr) :
  StronglySorted (λ a b, str_lt a b = true) (sorted_set l).
Proof.
  unfold sorted_set.
  assert (NoDup (sorted (remove_dups l))) as Hnd
    by (rewrite sorted_perm; apply NoDup_remove_dups).
  pose proof (sorted_sorted (remove_dups l)) as Hs.
  induction Hs as [|a k Hk IH Ha]; [constructor|].
  apply NoDup_cons in Hnd as [Hak Hnd]. constructor; [by apply IH|].
  rewrite Forall_forall in Ha |- *. intros b Hb.
  destruct (str_lt a b) eqn:E; [done|].
  exfalso. apply Hak. by rewrite (str_lt_antisym a b E (Ha b Hb)).
Qed.

End StrOrder.

(** ** Cache keys *)

Section CacheKeys.
Context `{UnicodeDB} `{Platform}.

Lemma startswith_slash_false (s : pystr) :
  (∀ c, head s = Some c → c ≠ 47) → Str.startswith (py "/") s = false.
Proof.
  destruct s as [|c s]; [done|]. intros Hc.
  change (py "/") with [47]. cbn [Str.startswith].
  destruct (N.eqb_spec 47 c) as [<-|]; [|done]. by destruct (Hc 47).
Qed.

(** A character the sanitiser keeps is no separator and no colon. *)
Lemma kept_char_plain (c : N) :
  Str.isalnum c || bool_decide (c ∈ py " -_") = true →
  c ≠ 47 ∧ c ≠ 92 ∧ c ≠ 58.
Proof.
  intros Hc. split_and!; intros ->; by vm_compute in Hc.
Qed.

(** X1. On either platform [os.path.join] keeps the cache folder: the cache
    path of a title is "image_cache", the separator of the platform, the
    sanitised title and ".jpg".  No title makes the second component
    absolute or puts it on a drive of its own, which is what would make the
    join drop the folder. *)
Theorem cache_path_inside_cache_dir (title : pystr) :
  get_cached_image_path title
  = CACHE_DIR ++ [if windows then 92 else 47] ++ safe_title title ++ py ".jpg".
Proof.
  pose proof (safe_title_chars title) as Hall.
  unfold get_cached_image_path, os_path_join.
  destruct windows.
  - unfold nt_join.
    destruct (safe_title title) as [|k ks]; [reflexivity|].
    apply Forall_cons in Hall as [Hk Hks].
    apply kept_char_plain in Hk as (Hk1 & Hk2 & _).
    cbn [app]. unfold nt_sep at 1.
    destruct (N.eqb_spec k 47) as [?|_]; [done|].
    destruct (N.eqb_spec k 92) as [?|_]; [done|]. cbn [orb].
    destruct ks as [|k' ks].
    + reflexivity.
    + apply Forall_cons in Hks as [Hk' _].
      apply kept_char_plain in Hk' as (_ & _ & Hk3).
      cbn [app]. destruct (N.eqb_spec k' 58) as [?|_]; [done|].
      reflexivity.
  - unfold posix_join. rewrite startswith_slash_false; [done|].
    intros c Hc. destruct (safe_title title) as [|k ks] eqn:Ek.
    + by injection Hc as <-.
    + injection Hc as <-. apply Forall_cons in Hall as [Hk _].
      by apply kept_char_plain in Hk as (? & _).
Qed.

(** X2. Characters that the sanitiser drops do not count: two titles that
    differ by such a character (punctuation, for one) share one cache
    file. *)
Theorem safe_title_ignores_dropped (a b : pystr) (c : N) :
  Str.isalnum c || bool_decide (c ∈ py " -_") = false →
  get_cached_image_path (a ++ c :: b) = get_cached_image_path (a ++ b).
Proof.
  intros Hc. unfold get_cached_image_path, safe_title.
  rewrite !List.filter_app. cbn [List.filter]. by rewrite Hc.
Qed.

End CacheKeys.

(** ** The tracked file *)

Section TrackedFile.
Implicit Types s t : pystr.

Lemma universal_newlines_id s : 13 ∉ s → universal_newlines s = s.
Proof.
  induction s as [|c s IH]; [done|].
  intros [Hc Hs]%not_elem_of_cons. cbn [universal_newlines].
  rewrite (IH Hs).
  destruct c as [|p]; [done|].
  do 4 (destruct p as [p|p|]; try done).
Qed.

Lemma readlines_line t rest :
  10 ∉ t → readlines (t ++ 10 :: rest) = (t ++ [10]) :: readlines rest.
Proof.
  induction t as [|c t IH]; [done|].
  intros [Hc Ht]%not_elem_of_cons. cbn [readlines app].
  rewrite (IH Ht). by destruct (N.eqb_spec c 10) as [->|_].
Qed.

Lemma readlines_last t : 10 ∉ t → t ≠ [] → readlines t = [t].
Proof.
  induction t as [|c t IH]; [done|].
  intros [Hc Ht]%not_elem_of_cons _. cbn [readlines].
  destruct (N.eqb_spec c 10) as [->|_]; [done|].
  destruct t as [|d t]; [done|]. by rewrite IH.
Qed.

Lemma lstrip_snoc_space t c :
  Str.isspace c = true →
  Str.lstrip (t ++ [c]) = match Str.lstrip t with [] => [] | r => r ++ [c] end.
Proof.
  intros Hc. induction t as [|a t IH]; simpl; [by rewrite Hc|].
  destruct (Str.isspace a); [done|]. done.
Qed.

(** A trailing white space character, such as the end of a line, does not
    survive [strip]. *)
Lemma strip_snoc_space t c :
  Str.isspace c = true → Str.strip (t ++ [c]) = Str.strip t.
Proof.
  intros Hc. unfold Str.strip. rewrite lstrip_snoc_space by done.
  destruct (Str.lstrip t) as [|a r]; [done|].
  change (a :: r ++ [c]) with ((a :: r) ++ [c]).
  by rewrite rstrip_snoc, Hc.
Qed.

Lemma join_cons sep t (l : list pystr) :
  l ≠ [] → Str.join sep (t :: l) = t ++ sep ++ Str.join sep l.
Proof. by destruct l. Qed.

(** Reading back what [save_tracked_anime] wrote. *)
Lemma readlines_join (tracked : list pystr) :
  Forall (λ t, 10 ∉ t) tracked →
  last tracked ≠ Some [] →
  Str.strip <$> readlines (Str.join [10] tracked) = Str.strip <$> tracked.
Proof.
  induction tracked as [|t l IH]; [done|].
  intros [Ht Hl]%Forall_cons Hlast.
  destruct l as [|t' l].
  - simpl in *. rewrite readlines_last; [done..|]. by intros ->.
  - rewrite join_cons by done. cbn [app].
    rewrite readlines_line by done. rewrite !fmap_cons.
    rewrite strip_snoc_space by done. f_equal.
    apply IH; [done|]. by rewrite last_cons_cons in Hlast.
Qed.

Lemma not_elem_of_join (c : N) (sep : pystr) (l : list pystr) :
  c ∉ sep → Forall (λ t, c ∉ t) l → c ∉ Str.join sep l.
Proof.
  intros Hsep. induction l as [|t l IH]; [intros _; apply not_elem_of_nil|].
  intros [Ht Hl]%Forall_cons. destruct l as [|t' l]; [done|].
  rewrite join_cons by done. rewrite !not_elem_of_app. auto.
Qed.

End TrackedFile.

Section TrackedFileRuns.
Context (env : Env) (out : Outside).

Lemma load_tracked_anime_run (tracked : list pystr) (s : Sys) :
  files (world s) !! TRACKED_FILE = Some (FText (Str.join [10] tracked)) →
  out_readable out (steps (world s)) TRACKED_FILE = true →
  Forall (λ t, (10 ∉ t) ∧ (13 ∉ t)) tracked →
  last tracked ≠ Some [] →
  load_tracked_anime out s
  = (Ok (Str.strip <$> tracked), mk_Sys (mgr s) (tick (world s))).
Proof.
  intros Hfile Hread Hchars Hlast.
  assert (os_path_exists TRACKED_FILE s = (Ok true, s)) as Hex.
  { unfold os_path_exists. erewrite bind_ok by reflexivity.
    rewrite Hfile. by rewrite bool_decide_true by eauto. }
  assert (read_text out TRACKED_FILE s
          = (Ok (universal_newlines (Str.join [10] tracked)),
             mk_Sys (mgr s) (tick (world s)))) as Hrd.
  { unfold read_text. erewrite bind_ok by reflexivity.
    erewrite bind_ok by reflexivity. cbn [world mgr].
    rewrite Hfile, Hread. by erewrite bind_ok by reflexivity. }
  unfold load_tracked_anime.
  rewrite (bind_ok _ _ _ _ _ Hex), (bind_ok _ _ _ _ _ Hrd).
  unfold mret, M_ret. do 2 f_equal.
  rewrite universal_newlines_id.
  - rewrite readlines_join; [done| |done].
    eapply Forall_impl; [exact Hchars|]. by intros t [? ?].
  - apply not_elem_of_join; [by intros ?%list_elem_of_singleton|].
    eapply Forall_impl; [exact Hchars|]. by intros t [? ?].
Qed.


(** On a first run, without a tracked file, the tracked list loads as the
    empty list and nothing is asked of the outside. *)
Lemma load_tracked_anime_first_run (s : Sys) :
  files (world s) !! TRACKED_FILE = None →
  load_tracked_anime out s = (Ok [], s).
Proof.
  intros Hnone.
  assert (os_path_exists TRACKED_FILE s = (Ok false, s)) as Hex.
  { unfold os_path_exists. erewrite bind_ok by reflexivity.
    rewrite Hnone. by rewrite bool_decide_false by (by intros [? ?]). }
  unfold load_tracked_anime. by rewrite (bind_ok _ _ _ _ _ Hex).
Qed.

End TrackedFileRuns.

(** ** Downloaded files and the views built on them *)

Section Downloads.
Context (env : Env) (out : Outside).

Lemma StronglySorted_weaken {A} (R R' : A → A → Prop) (l : list A) :
  (∀ a b, R a b → R' a b) → StronglySorted R l → StronglySorted R' l.
Proof.
  intros HR. induction 1 as [|a l _ IH Ha]; constructor; [done|].
  eapply Forall_impl; [exact Ha|]. intros b. apply HR.
Qed.

Lemma newer_asym a b : newer a b = true → newer b a = false.
Proof.
  unfold newer. intros Hab%negb_true_iff. apply negb_false_iff, Qle_bool_iff.
  destruct (Qle_bool a.2 b.2) eqn:E; [done|].
  destruct (Qlt_le_dec b.2 a.2) as [Hlt|Hle]; [by apply Qlt_le_weak|].
  apply Qle_bool_iff in Hle. congruence.
Qed.

Lemma newer_negtrans a b c :
  newer a b = false → newer b c = false → newer a c = false.
Proof.
  unfold newer. rewrite !negb_false_iff, !Qle_bool_iff. apply Qle_trans.
Qed.

Lemma get_downloaded_files_run (folder : pystr) (s : Sys) :
  settings (mgr s) !! py "download_folder" = Some folder →
  get_downloaded_files out s
  = (match out_folder out (steps (world s)) folder with
     | NoSuchPath => Ok []
     | NotADirectory => Raise OSError
     | Directory entries =>
         Ok (fst <$> newest_first
                       ((λ e, (entry_name e, entry_mtime e))
                        <$> List.filter entry_isfile entries))
     end,
     mk_Sys (mgr s) (tick (world s))).
Proof.
  intros Hfolder. unfold get_downloaded_files.
  assert (setting (py "download_folder") s = (Ok folder, s)) as Hset.
  { unfold setting. erewrite bind_ok by reflexivity. by rewrite Hfolder. }
  rewrite (bind_ok _ _ _ _ _ Hset).
  erewrite bind_ok by reflexivity. erewrite bind_ok by reflexivity.
  cbn [world mgr]. by destruct (out_folder out (steps (world s)) folder).
Qed.


(** X5. The downloads view shows ".mkv" files only, each downloaded ".mkv"
    file once, sorted by file name. *)
Theorem display_downloads_sorted_mkv (s s' : Sys) (names : list pystr) :
  display_downloads out s = (Ok names, s') →
  Forall (λ f, endswith mkv f = true) names
  ∧ StronglySorted (λ a b, str_lt b a = false) names
  ∧ ∃ files, get_downloaded_files out s = (Ok files, s')
             ∧ names ≡ₚ List.filter (endswith mkv) files.
Proof.
  unfold display_downloads. intros (files & s1 & Hfiles & [= <- <-])%bind_inv.
  split_and!.
  - rewrite sorted_perm. apply Forall_forall. intros f Hf%list_elem_of_In.
    by apply List.filter_In in Hf as [_ Hf].
  - apply sorted_sorted.
  - exists files. split; [done|]. apply sorted_perm.
Qed.

(** X6. The tracked view holds one card per series, in strictly increasing
    order of the names: the series named by a tracked entry and the series
    of the downloaded ".mkv" files, so a series that is no longer tracked
    stays in view while one of its files is there. *)
Theorem tracked_series_sorted_union (tracked downloaded_files : list pystr) :
  StronglySorted (λ a b, str_lt a b = true)
    (tracked_series tracked downloaded_files)
  ∧ ∀ series,
      series ∈ tracked_series tracked downloaded_files
      ↔ (∃ anime, anime ∈ tracked ∧ series = series_name_of anime)
        ∨ (∃ file, file ∈ downloaded_files ∧ endswith mkv file = true
                   ∧ series = series_name_of file).
Proof.
  split; [apply sorted_set_strict|].
  intros series. unfold tracked_series, sorted_set.
  rewrite sorted_perm, elem_of_remove_dups, elem_of_app, !list_elem_of_fmap.
  split.
  - intros [(anime & -> & Ha) | (file & -> & Hf%list_elem_of_In%List.filter_In)].
    + left. eauto.
    + destruct Hf as [Hf%list_elem_of_In Hm]. right. eauto.
  - intros [(anime & Ha & ->) | (file & Hf & Hm & ->)].
    + left. eauto.
    + right. exists file. split; [done|].
      apply list_elem_of_In, List.filter_In. by rewrite <- list_elem_of_In.
Qed.

Lemma last_episode_loop_app (series_name : pystr) (a b : list pystr)
    (latest : pystr) :
  last_episode_loop series_name (a ++ b) latest
  = last_episode_loop series_name b (last_episode_loop series_name a latest).
Proof. revert latest. induction a as [|f a IH]; intros latest; simpl; [done|]. apply IH. Qed.

Lemma last_episode_loop_none (series_name : pystr) (l : list pystr)
    (latest : pystr) :
  Forall (λ f, names_episode series_name f = None) l →
  last_episode_loop series_name l latest = latest.
Proof.
  induction 1 as [|f l Hf _ IH]; [done|]. cbn [last_episode_loop].
  unfold names_episode in Hf.
  destruct (endswith mkv f && Str.contains series_name f); [|done].
  by destruct (episode_label f).
Qed.

(** The loop keeps the label of the last file of the list that has one. *)
Lemma last_episode_loop_last (series_name : pystr) (before after : list pystr)
    (file episode latest : pystr) :
  names_episode series_name file = Some episode →
  Forall (λ f, names_episode series_name f = None) after →
  last_episode_loop series_name (before ++ file :: after) latest = episode.
Proof.
  intros Hfile Hafter. rewrite last_episode_loop_app. cbn [last_episode_loop].
  rewrite last_episode_loop_none by done.
  unfold names_episode in Hfile.
  destruct (endswith mkv file && Str.contains series_name file); [|done].
  destruct (episode_label file); by simplify_eq.
Qed.

(** X7. The "last episode" of a tracked card is the label of the oldest
    downloaded file of the series, not of the newest: the files come newest
    first and the loop keeps the last label it meets.  Here [oldest] is a
    regular file of the folder that yields a label, and every other regular
    file that yields one is strictly newer. *)
Theorem get_last_episode_is_oldest (series_name folder episode : pystr)
    (entries : list DirEntry) (oldest : DirEntry) (s : Sys) :
  settings (mgr s) !! py "download_folder" = Some folder →
  out_folder out (steps (world s)) folder = Directory entries →
  oldest ∈ entries →
  entry_isfile oldest = true →
  names_episode series_name (entry_name oldest) = Some episode →
  (∀ e, e ∈ entries → entry_isfile e = true →
        names_episode series_name (entry_name e) ≠ None →
        (entry_name e, entry_mtime e) = (entry_name oldest, entry_mtime oldest)
        ∨ (entry_mtime oldest < entry_mtime e)%Q) →
  (get_last_episode out series_name s).1 = Ok episode.
Proof.
  intros Hfolder Hdir Hin Hfile Hlabel Hnewer.
  unfold get_last_episode.
  erewrite bind_ok by (rewrite (get_downloaded_files_run folder s Hfolder), Hdir;
                       reflexivity).
  cbn [fst mret M_ret]. f_equal.
  set (regular := (λ e, (entry_name e, entry_mtime e))
                  <$> List.filter entry_isfile entries).
  set (p := (entry_name oldest, entry_mtime oldest)).
  assert (p ∈ newest_first regular) as Hp.
  { unfold newest_first. rewrite stable_sort_perm. apply list_elem_of_fmap.
    exists oldest. split; [done|].
    apply list_elem_of_In, List.filter_In. by rewrite <- list_elem_of_In. }
  assert (StronglySorted (λ a b, newer b a = false) (newest_first regular))
    as Hsorted by apply (stable_sort_sorted newer newer_asym newer_negtrans).
  assert (∀ q, q ∈ newest_first regular →
               names_episode series_name q.1 ≠ None →
               q = p ∨ (p.2 < q.2)%Q) as Hq.
  { intros q Hq Hne. unfold newest_first in Hq.
    rewrite stable_sort_perm in Hq.
    apply list_elem_of_fmap in Hq as (e & -> & He%list_elem_of_In%List.filter_In).
    destruct He as [He%list_elem_of_In Hreg]. by apply Hnewer. }
  (* cut the sorted list after the last occurrence of [p] *)
  assert (∃ l1 l2, newest_first regular = l1 ++ p :: l2 ∧ p ∉ l2)
    as (l1 & l2 & Hsplit & Hlast).
  { clear -Hp. induction (newest_first regular) as [|x l IH];
      [by apply elem_of_nil in Hp|].
    destruct (decide (p ∈ l)) as [Hl|Hl].
    - destruct (IH Hl) as (l1 & l2 & -> & ?). by exists (x :: l1), l2.
    - apply elem_of_cons in Hp as [<-|?]; [|done]. by exists [], l. }
  rewrite Hsplit, fmap_app, fmap_cons.
  apply last_episode_loop_last; [done|].
  apply Forall_fmap, Forall_forall. intros q Hql2. simpl.
  destruct (names_episode series_name q.1) eqn:Eq; [|done]. exfalso.
  rewrite Hsplit in Hsorted, Hq.
  apply StronglySorted_app_1_r, StronglySorted_cons in Hsorted as [Hall _].
  rewrite Forall_forall in Hall. specialize (Hall q Hql2).
  apply negb_false_iff, Qle_bool_iff in Hall.
  destruct (Hq q) as [-> | Hlt].
  - apply elem_of_app. right. by right.
  - by rewrite Eq.
  - done.
  - simpl in *. unfold p in Hlt. simpl in Hlt.
    apply (Qlt_irrefl (entry_mtime oldest)). by eapply Qlt_le_trans.
Qed.

End Downloads.

(** ** Invariants of runs *)

Section Respects.
Context (R : Sys → Sys → Prop).
Hypothesis R_refl : ∀ s, R s s.
Hypothesis R_trans : ∀ s1 s2 s3, R s1 s2 → R s2 s3 → R s1 s3.

Lemma respects_ret {A} (a : A) : respects R (mret a).
Proof using R_refl. intros s r s' [= <- <-]. apply R_refl. Qed.

Lemma respects_lift {A} (x : Res A) : respects R (lift x).
Proof using R_refl. intros s r s' [= <- <-]. apply R_refl. Qed.

Lemma respects_raise {A} (e : exn) : respects R (@raise A e).
Proof using R_refl. apply respects_lift. Qed.

Lemma respects_get_mgr : respects R get_mgr.
Proof using R_refl. intros s r s' [= <- <-]. apply R_refl. Qed.

Lemma respects_get_world : respects R get_world.
Proof using R_refl. intros s r s' [= <- <-]. apply R_refl. Qed.

Lemma respects_bind {A B} (m : M A) (f : A → M B) :
  respects R m → (∀ a, respects R (f a)) → respects R (m ≫= f).
Proof using R_trans.
  intros Hm Hf s r s'. unfold mbind, M_bind.
  destruct (m s) as [[a|e] s1] eqn:E.
  - intros Hfa. eapply R_trans; [by eapply Hm|by eapply Hf].
  - intros [= <- <-]. by eapply Hm.
Qed.

Lemma respects_try {A} (m : M A) (h : exn → M A) :
  respects R m → (∀ e, respects R (h e)) → respects R (try_except m h).
Proof using R_trans.
  intros Hm Hh s r s'. unfold try_except.
  destruct (m s) as [[a|e] s1] eqn:E.
  - intros [= <- <-]. by eapply Hm.
  - intros He. eapply R_trans; [by eapply Hm|by eapply Hh].
Qed.

Lemma respects_set_world (f : World → World) :
  (∀ s, R s (mk_Sys (mgr s) (f (world s)))) → respects R (set_world f).
Proof. intros Hf s r s' [= <- <-]. apply Hf. Qed.

Lemma respects_set_mgr (f : AnimeManager → AnimeManager) :
  (∀ s, R s (mk_Sys (f (mgr s)) (world s))) → respects R (set_mgr f).
Proof. intros Hf s r s' [= <- <-]. apply Hf. Qed.

End Respects.

(** Breaks a goal [respects R m] down along the structure of [m]; what is
    left are the writes to the state. *)
Ltac respects_step :=
  first
    [ apply respects_ret; [done..]
    | apply respects_lift; [done..]
    | apply respects_raise; [done..]
    | apply respects_get_mgr; [done..]
    | apply respects_get_world; [done..]
    | apply respects_bind; [done..| |intros ?]
    | apply respects_try; [done..| |intros ?]
    | match goal with
      | |- respects _ (match ?x with _ => _ end) => destruct x
      | |- respects _ (if ?x then _ else _) => destruct x
      end ].

Ltac respects_auto := repeat respects_step.

Ltac respects_by refl trans tac :=
  repeat first
    [ apply (respects_ret _ refl)
    | apply (respects_lift _ refl)
    | apply (respects_raise _ refl)
    | apply (respects_get_mgr _ refl)
    | apply (respects_get_world _ refl)
    | apply (respects_bind _ trans); [|intros ?]
    | apply (respects_try _ trans); [|intros ?]
    | apply respects_set_world; intros ?; tac
    | apply respects_set_mgr; intros ?; tac
    | match goal with
      | |- respects _ (match ?x with _ => _ end) => destruct x
      | |- respects _ (if ?x then _ else _) => destruct x
      end ].

(** ** The outcome of fetching a poster *)

Section FetchOutcome.
Context `{UnicodeDB} `{Platform} `{Float64} (env : Env).

Lemma same_files_but_refl (path : pystr) (s : Sys) : same_files_but path s s.
Proof. by intros q _. Qed.

Lemma same_files_but_trans (path : pystr) (s1 s2 s3 : Sys) :
  same_files_but path s1 s2 → same_files_but path s2 s3 →
  same_files_but path s1 s3.
Proof. intros H12 H23 q Hq. by rewrite H23, H12. Qed.

Ltac files_but :=
  respects_by uconstr:(same_files_but_refl _) uconstr:(same_files_but_trans _)
    ltac:(intros ? ?; simpl; try done; apply lookup_insert_ne; congruence).

Lemma fetch_attempt_files (attempt : nat) (clean_title cache_path : pystr) :
  respects (same_files_but cache_path)
    (fetch_attempt env attempt clean_title cache_path).
Proof.
  unfold fetch_attempt, jikan_wait, RateLimiter_wait, requests_get_value,
    requests_get, write_file, print, time_time, time_sleep, raise.
  files_but.
Qed.

Lemma fetch_try_files (attempt : nat) (clean_title cache_path : pystr) :
  respects (same_files_but cache_path)
    (fetch_try env attempt clean_title cache_path).
Proof.
  unfold fetch_try.
  apply (respects_try _ (same_files_but_trans _));
    [apply fetch_attempt_files|intros e].
  unfold print, time_sleep, raise. files_but.
Qed.

Lemma fetch_retry_files (attempts : list nat) (clean_title cache_path : pystr) :
  respects (same_files_but cache_path)
    (fetch_retry env attempts clean_title cache_path).
Proof.
  induction attempts as [|attempt rest IH]; simpl.
  - apply (respects_ret _ (same_files_but_refl _)).
  - apply (respects_bind _ (same_files_but_trans _));
      [apply fetch_try_files|intros [path|]]; [|exact IH].
    apply (respects_ret _ (same_files_but_refl _)).
Qed.

Lemma write_file_stores (path : pystr) (data : file_data) (s s' : Sys) :
  write_file env path data s = (Ok (), s') →
  files (world s') !! path = Some data.
Proof.
  unfold write_file. intros Hrun.
  apply bind_inv in Hrun as (w & s1 & [= <- <-] & Hrun).
  apply bind_inv in Hrun as (? & s2 & [= <-] & Hrun).
  destruct (env_open env (steps (world s)) path); [|done].
  destruct data as [text|bytes|doc].
  - destruct (encodable (env_locale env) text).
    + injection Hrun as <-. simpl. apply lookup_insert_eq.
    + by apply bind_inv in Hrun as (? & ? & _ & Hrun).
  - injection Hrun as <-. simpl. apply lookup_insert_eq.
  - injection Hrun as <-. simpl. apply lookup_insert_eq.
Qed.

Lemma print_inv (line : log_line) (s s' : Sys) :
  print env line s = (Ok (), s') →
  encodable (env_stdout env) (line_text (env_str env (steps (world s))) line)
  = true
  ∧ s' = mk_Sys (mgr s) (emit (EvPrint line) (world s)).
Proof.
  destruct (print_cases env line s) as [[Henc ->] | [_ ->]]; [|done].
  by intros [= <-].
Qed.

(** A pass that returns a path returns the cache path; it has just written
    the file there and printed a line with the title. *)
Lemma fetch_attempt_some (attempt : nat) (clean_title cache_path : pystr)
    (s s' : Sys) (p : pystr) :
  fetch_attempt env attempt clean_title cache_path s = (Ok (Some p), s') →
  p = cache_path
  ∧ is_Some (files (world s') !! cache_path)
  ∧ encodable (env_stdout env) clean_title = true.
Proof.
  unfold fetch_attempt. cbv zeta. intros Hrun.
  apply bind_inv in Hrun as (? & s1 & _ & Hrun).
  apply bind_inv in Hrun as (response & s2 & _ & Hrun).
  apply bind_inv in Hrun as (? & s3 & _ & Hrun).
  apply bind_inv in Hrun as (data & s4 & _ & Hrun).
  apply bind_inv in Hrun as (found & s5 & _ & Hrun).
  apply bind_inv in Hrun as (cached & s6 & Hc & Hrun).
  destruct cached as [path|].
  - injection Hrun as -> ->.
    destruct found; [|done].
    apply bind_inv in Hc as (image_url & s7 & _ & Hc).
    destruct (Json.truthy image_url); [|done].
    apply bind_inv in Hc as (img & s8 & _ & Hc).
    apply bind_inv in Hc as (? & s9 & _ & Hc).
    apply bind_inv in Hc as ([] & s10 & Hw & Hc).
    apply bind_inv in Hc as ([] & s11 & Hp & [= <- <-]).
    apply print_inv in Hp as [Henc ->]. rewrite encodable_cached_ok in Henc.
    apply write_file_stores in Hw. split; [done|]. simpl. by rewrite Hw.
  - apply bind_inv in Hrun as (? & ? & _ & Hrun). done.
Qed.

(** A pass of the loop lets nothing escape but the UnicodeEncodeError of
    the print in its except clause, and that only when standard output
    cannot encode the title or the text of the error. *)
Lemma fetch_try_outcome (attempt : nat) (clean_title cache_path : pystr)
    (s : Sys) :
  ∃ r s', fetch_try env attempt clean_title cache_path s = (r, s')
          ∧ (r = Ok None
             ∨ (r = Ok (Some cache_path)
                ∧ is_Some (files (world s') !! cache_path)
                ∧ encodable (env_stdout env) clean_title = true)
             ∨ r = Raise UnicodeEncodeError)
          ∧ (encodable (env_stdout env) clean_title = true →
             (∀ n e, encodable (env_stdout env) (env_str env n e) = true) →
             r ≠ Raise UnicodeEncodeError).
Proof.
  unfold fetch_try, try_except.
  destruct (fetch_attempt env attempt clean_title cache_path s)
    as [[[p|]|e] s1] eqn:Hbody.
  - apply fetch_attempt_some in Hbody as (-> & Hfile & Henc).
    eexists _, _. split; [done|]. split; [|done]. right. left. done.
  - eexists _, _. split; [done|]. split; [|done]. by left.
  - destruct (print_cases env (LogFetchError clean_title (attempt + 1) e) s1)
      as [[_ Hprint] | [Henc Hprint]].
    + rewrite (bind_ok _ _ _ _ _ Hprint).
      match goal with |- context [(_ ≫= _) ?s0] =>
        destruct (backoff_run env attempt s0) as (s' & Hb & _) end.
      erewrite bind_ok by exact Hb.
      eexists _, _. split; [reflexivity|]. split; [|done]. by left.
    + rewrite (bind_raise _ _ _ _ _ Hprint).
      eexists _, _. split; [reflexivity|]. split; [by right; right|].
      intros Htitle Hstr.
      rewrite encodable_fetch_error in Henc; [done|done|apply Hstr].
Qed.

Lemma fetch_retry_outcome (attempts : list nat) (clean_title cache_path : pystr)
    (s : Sys) :
  ∃ r s', fetch_retry env attempts clean_title cache_path s = (r, s')
          ∧ (r = Ok PLACEHOLDER_IMAGE
             ∨ (r = Ok cache_path
                ∧ is_Some (files (world s') !! cache_path)
                ∧ encodable (env_stdout env) clean_title = true)
             ∨ r = Raise UnicodeEncodeError)
          ∧ (encodable (env_stdout env) clean_title = true →
             (∀ n e, encodable (env_stdout env) (env_str env n e) = true) →
             r ≠ Raise UnicodeEncodeError).
Proof.
  revert s. induction attempts as [|attempt rest IH]; intros s; simpl.
  - eexists _, _. split; [reflexivity|]. split; [by left|done].
  - destruct (fetch_try_outcome attempt clean_title cache_path s)
      as (r & s1 & Hrun & Hr & Hsafe).
    destruct Hr as [-> | [(-> & Hfile & Henc) | ->]].
    + rewrite (bind_ok _ _ _ _ _ Hrun). apply IH.
    + rewrite (bind_ok _ _ _ _ _ Hrun).
      eexists _, _. split; [reflexivity|]. split; [|done]. right. left. done.
    + rewrite (bind_raise _ _ _ _ _ Hrun).
      eexists _, _. split; [reflexivity|]. split; [by right; right|].
      intros Htitle Hstr. by destruct (Hsafe Htitle Hstr).
Qed.

Lemma os_path_exists_run (path : pystr) (s : Sys) :
  os_path_exists path s
  = (Ok (bool_decide (is_Some (files (world s) !! path))), s).
Proof. reflexivity. Qed.

Lemma fetch_anime_image_hit (title : pystr) (s : Sys) :
  is_Some (files (world s) !! get_cached_image_path (clean_title title)) →
  encodable (env_stdout env) (clean_title title) = true →
  fetch_anime_image env title s
  = (Ok (get_cached_image_path (clean_title title)),
     mk_Sys (mgr s) (emit (EvPrint (LogCached (clean_title title))) (world s))).
Proof.
  intros Hhit Henc. unfold fetch_anime_image. cbv zeta.
  rewrite (bind_ok _ _ _ _ _ (os_path_exists_run _ s)).
  rewrite bool_decide_true by done.
  erewrite bind_ok by (apply print_ok; rewrite encodable_cached; exact Henc).
  reflexivity.
Qed.


(** X9. Once a fetch has returned something else than the placeholder, a
    fetch for any title with the same cleaned title (another episode of the
    series, say) is answered from the cache: it returns the same path and
    only prints a line. *)
Theorem fetch_anime_image_second_time (title title' : pystr) (s s1 : Sys)
    (p : pystr) :
  fetch_anime_image env title s = (Ok p, s1) →
  p ≠ PLACEHOLDER_IMAGE →
  clean_title title' = clean_title title →
  fetch_anime_image env title' s1
  = (Ok p, mk_Sys (mgr s1)
             (emit (EvPrint (LogCached (clean_title title))) (world s1))).
Proof.
  intros Hrun Hp Hsame.
  set (cache_path := get_cached_image_path (clean_title title)).
  assert (p = cache_path
          ∧ is_Some (files (world s1) !! cache_path)
          ∧ encodable (env_stdout env) (clean_title title) = true)
    as (-> & Hfile & Henc).
  { revert Hrun. unfold fetch_anime_image. cbv zeta. fold cache_path.
    rewrite (bind_ok _ _ _ _ _ (os_path_exists_run cache_path s)).
    case_bool_decide as Hhit.
    - destruct (print_cases env (LogCached (clean_title title)) s)
        as [[Henc Hprint] | [_ Hprint]].
      + rewrite (bind_ok _ _ _ _ _ Hprint). intros [= <- <-].
        by rewrite encodable_cached in Henc.
      + by rewrite (bind_raise _ _ _ _ _ Hprint).
    - destruct (fetch_retry_outcome (seq 0 MAX_RETRIES) (clean_title title)
                  cache_path s) as (r & s' & Hrun' & Hout & _).
      rewrite Hrun'. intros [= -> <-].
      by destruct Hout as [[= ->] | [([= ->] & Hfile & Henc) | [=]]]. }
  unfold cache_path in *. rewrite <- Hsame in Hfile, Henc |- *.
  by apply fetch_anime_image_hit.
Qed.

End FetchOutcome.

Section NoResults.
Context `{UnicodeDB} `{Platform} `{Float64} (env : Env).

(** A pass of the loop against a search that finds nothing: one request,
    nothing printed, and the loop goes on. *)
Lemma fetch_try_no_results (attempt : nat) (clean_title cache_path : pystr)
    (s : Sys) :
  ¬ (calls_per_second (jikan_limiter (mgr s)) == 0)%Q →
  (∀ n url, no_results (env_http env n url)) →
  ∃ s', fetch_try env attempt clean_title cache_path s = (Ok None, s')
        ∧ calls_per_second (jikan_limiter (mgr s'))
          = calls_per_second (jikan_limiter (mgr s))
        ∧ trace (world s')
          = trace (world s) ++ [EvHttpGet (query_url clean_title)]
        ∧ files (world s') = files (world s).
Proof.
  intros Hcps Hno.
  destruct (jikan_wait_spec env s Hcps) as (s1 & Hw & Hcps1 & Htr & Hfs).
  set (s2 := mk_Sys (mgr s1)
               (emit (EvHttpGet (query_url clean_title)) (tick (world s1)))).
  destruct (backoff_run env attempt s2) as (s' & Hb & Hm & Ht & Hf).
  exists s'. split.
  - unfold fetch_try, try_except.
    assert (fetch_attempt env attempt clean_title cache_path s = (Ok None, s'))
      as ->; [|done].
    unfold fetch_attempt. cbv zeta.
    rewrite (bind_ok _ _ _ _ _ Hw).
    destruct (Hno (steps (world s1)) (query_url clean_title))
      as (response & items & Ehttp & Hst & Hbody & Hdata).
    erewrite bind_ok by (rewrite requests_get_run, Ehttp; reflexivity).
    fold s2.
    erewrite bind_ok
      by (unfold lift, raise_for_status; rewrite Hst; reflexivity).
    erewrite bind_ok
      by (unfold lift, response_json; rewrite Hbody; reflexivity).
    erewrite bind_ok by (unfold lift; simpl; rewrite Hdata; reflexivity).
    erewrite bind_ok by reflexivity. cbv beta iota.
    erewrite bind_ok by exact Hb. reflexivity.
  - rewrite Hm, Ht, Hf. simpl. by rewrite Htr, Hfs.
Qed.

(** X10. When the search answers every request but finds nothing, fetching
    the poster of a title that is not cached asks three times, prints
    nothing, writes nothing and returns the placeholder path. *)
Theorem fetch_anime_image_no_results (title : pystr) (s : Sys) :
  files (world s) !! get_cached_image_path (clean_title title) = None →
  ¬ (calls_per_second (jikan_limiter (mgr s)) == 0)%Q →
  (∀ n url, no_results (env_http env n url)) →
  ∃ s',
    fetch_anime_image env title s = (Ok PLACEHOLDER_IMAGE, s')
    ∧ trace (world s')
      = trace (world s)
        ++ [EvHttpGet (query_url (clean_title title));
            EvHttpGet (query_url (clean_title title));
            EvHttpGet (query_url (clean_title title))]
    ∧ files (world s') = files (world s).
Proof.
  intros Hmiss Hcps Hno.
  set (ct := clean_title title) in *.
  set (cp := get_cached_image_path ct) in *.
  destruct (fetch_try_no_results 0 ct cp s Hcps Hno) as (s1 & E1 & C1 & T1 & F1).
  rewrite <- C1 in Hcps.
  destruct (fetch_try_no_results 1 ct cp s1 Hcps Hno) as (s2 & E2 & C2 & T2 & F2).
  rewrite <- C2 in Hcps.
  destruct (fetch_try_no_results 2 ct cp s2 Hcps Hno) as (s3 & E3 & C3 & T3 & F3).
  exists s3. split.
  - unfold fetch_anime_image. fold ct. fold cp.
    rewrite (bind_ok _ _ _ _ _ (os_path_exists_run cp s)).
    rewrite Hmiss, bool_decide_false by (by intros [? ?]).
    cbn [fetch_retry seq MAX_RETRIES].
    rewrite (bind_ok _ _ _ _ _ E1), (bind_ok _ _ _ _ _ E2),
      (bind_ok _ _ _ _ _ E3).
    reflexivity.
  - rewrite T3, T2, T1, F3, F2, F1, <- !(assoc_L (++)). done.
Qed.

End NoResults.

(** ** Clicks on a card *)

Section ClickOutcomes.
Context (env : Env).

(** A click on a title whose series is tracked, in full: the list is cut
    down in memory first, then written; the messages come after the write. *)
Lemma on_anime_clicked_untracking (title : pystr) (s : Sys) :
  is_tracked (series_name_of title) (tracked_anime (mgr s)) = true →
  let kept := untrack (series_name_of title) (tracked_anime (mgr s)) in
  let m' := set_tracked_anime kept (mgr s) in
  on_anime_clicked env title s
  = if env_open env (steps (world s)) TRACKED_FILE
    then if encodable (env_locale env) (Str.join [10] kept)
         then (Ok StoppedTracking,
               mk_Sys m'
                 (emit (EvMessageBox Information (py "Success")
                          (py "Stopped tracking: " ++ series_name_of title))
                    (emit (EvSingleShot 100 (py "refresh_card_statuses"))
                       (emit (EvSingleShot 0 (py "update_tracked_list"))
                          (emit (EvWrite TRACKED_FILE
                                   (FText (Str.join [10] kept)))
                             (store TRACKED_FILE (FText (Str.join [10] kept))
                                (tick (world s))))))))
         else (Raise UnicodeEncodeError,
               mk_Sys m' (store TRACKED_FILE (FText []) (tick (world s))))
    else (Raise OSError, mk_Sys m' (tick (world s))).
Proof.
  intros Hin kept m'.
  unfold on_anime_clicked.
  erewrite bind_ok by reflexivity. rewrite Hin.
  erewrite bind_ok by reflexivity. erewrite bind_ok by reflexivity.
  cbn [mgr world tracked_anime set_tracked_anime]. fold kept.
  match goal with |- (save_tracked_anime env ?l ≫= _) ?s0 = _ =>
    pose proof (save_tracked_anime_run env l s0) as Hsave
  end.
  cbn [mgr world steps] in Hsave.
  destruct (env_open env (steps (world s)) TRACKED_FILE).
  - destruct (encodable (env_locale env) (Str.join [10] kept)).
    + by rewrite (bind_ok _ _ _ _ _ Hsave).
    + by rewrite (bind_raise _ _ _ _ _ Hsave).
  - by rewrite (bind_raise _ _ _ _ _ Hsave).
Qed.

Lemma tracked_after_untracking (title : pystr) (s s' : Sys)
    (r : Res click_result) :
  is_tracked (series_name_of title) (tracked_anime (mgr s)) = true →
  on_anime_clicked env title s = (r, s') →
  tracked_anime (mgr s')
  = untrack (series_name_of title) (tracked_anime (mgr s)).
Proof.
  intros Hin Hrun.
  rewrite (on_anime_clicked_untracking title s Hin) in Hrun.
  by destruct (env_open _ _ _); [destruct (encodable _ _)|];
    injection Hrun as <- <-.
Qed.

(** X12. A click on a title whose series is tracked leaves in the tracked
    list exactly the entries that do not contain the series name, each as
    often as before and in the order they had: an entry goes when the
    series name occurs anywhere in it, not only when it equals the name.
    This holds in memory also when the write of the tracked file fails. *)
Theorem untrack_click_drops_every_match (title : pystr) (s s' : Sys)
    (r : Res click_result) :
  is_tracked (series_name_of title) (tracked_anime (mgr s)) = true →
  on_anime_clicked env title s = (r, s') →
  tracked_anime (mgr s')
  = List.filter (λ anime, negb (Str.contains (series_name_of title) anime))
      (tracked_anime (mgr s))
  ∧ ∀ anime, Str.contains (series_name_of title) anime = true
             ↔ occurs (series_name_of title) anime.
Proof.
  intros Hin Hrun. split.
  - by rewrite (tracked_after_untracking title s s' r Hin Hrun).
  - intros anime. apply contains_true.
Qed.

(** X13. When the tracked file cannot be written, the click that untracks
    raises the error of [open] after the list in memory has been cut down:
    the series is untracked in memory, the file is as before, and no
    message is shown. *)
Theorem untrack_click_write_failure (title : pystr) (s : Sys) :
  is_tracked (series_name_of title) (tracked_anime (mgr s)) = true →
  env_open env (steps (world s)) TRACKED_FILE = false →
  ∃ s', on_anime_clicked env title s = (Raise OSError, s')
        ∧ is_tracked (series_name_of title) (tracked_anime (mgr s')) = false
        ∧ files (world s') = files (world s)
        ∧ trace (world s') = trace (world s).
Proof.
  intros Hin Hopen.
  rewrite (on_anime_clicked_untracking title s Hin), Hopen.
  eexists. split; [reflexivity|]. split; [|done].
  cbn [mgr tracked_anime set_tracked_anime].
  unfold is_tracked, untrack. clear Hin.
  induction (tracked_anime (mgr s)) as [|a l IH]; [done|].
  simpl. destruct (Str.contains _ a) eqn:Ea; simpl; [done|]. by rewrite Ea.
Qed.

(** X14. The empty string is contained in every string: a click on a title
    whose series name is empty (the bare group tag, or a title that starts
    with the separator) untracks every series. *)
Theorem click_on_empty_series_name (title : pystr) (s s' : Sys)
    (r : Res click_result) :
  series_name_of title = [] →
  tracked_anime (mgr s) ≠ [] →
  on_anime_clicked env title s = (r, s') →
  (r = Ok StoppedTracking ∨ r = Raise OSError)
  ∧ tracked_anime (mgr s') = [].
Proof.
  intros Hname Hsome Hrun.
  assert (∀ anime, Str.contains [] anime = true) as Hall.
  { intros anime. apply contains_true. by exists [], anime. }
  assert (is_tracked (series_name_of title) (tracked_anime (mgr s)) = true)
    as Hin.
  { rewrite Hname. unfold is_tracked.
    destruct (tracked_anime (mgr s)) as [|a l]; [done|].
    simpl. by rewrite Hall. }
  rewrite (on_anime_clicked_untracking title s Hin) in Hrun.
  assert (untrack (series_name_of title) (tracked_anime (mgr s)) = []) as Hnone.
  { rewrite Hname. unfold untrack. clear Hsome Hin Hrun.
    induction (tracked_anime (mgr s)) as [|a l IH]; [done|].
    simpl. by rewrite Hall. }
  rewrite Hnone in Hrun. change (encodable _ (Str.join [10] [])) with true in Hrun.
  destruct (env_open _ _ _); injection Hrun as <- <-;
    cbn [mgr tracked_anime set_tracked_anime]; auto.
Qed.

End ClickOutcomes.

Section FreshClicks.
Context (env : Env).

Lemma bind_cases {A B} (m : M A) (f : A → M B) (s s' : Sys) (r : Res B) :
  (m ≫= f) s = (r, s') →
  (∃ e, m s = (Raise e, s') ∧ r = Raise e)
  ∨ (∃ a s1, m s = (Ok a, s1) ∧ f a s1 = (r, s')).
Proof.
  unfold mbind, M_bind. destruct (m s) as [[a|e] s1].
  - eauto.
  - intros [= <- <-]. eauto.
Qed.

(** A click on a title whose series is not tracked, step by step.  What
    escapes [fetch_rss_feed] or [add_torrent] (the error of a print in
    their except clauses) ends the click. *)
Lemma on_anime_clicked_fresh (title : pystr) (s s' : Sys)
    (r : Res click_result) :
  is_tracked (series_name_of title) (tracked_anime (mgr s)) = false →
  on_anime_clicked env title s = (r, s') →
  ∃ feed s1,
    fetch_rss_feed env s = (feed, s1)
    ∧ match feed with
      | Raise e => r = Raise e ∧ s' = s1
      | Ok None =>
          r = Ok FeedUnavailable
          ∧ s' = boxed Warning (py "Error") (py "Could not fetch RSS feed") s1
      | Ok (Some entries) =>
          match List.find (λ entry, bool_decide (entry_title entry = Some title))
                          entries with
          | None =>
              r = Ok LinkNotFound
              ∧ s' = boxed Warning (py "Error")
                       (py "Could not find torrent link for: " ++ title) s1
          | Some entry =>
              ∃ connected s2,
                click_connection env s1 = (connected, s2)
                ∧ match connected with
                  | Raise e => r = Raise e ∧ s' = s2
                  | Ok false =>
                      r = Ok NotConnected
                      ∧ s' = boxed Critical (py "Error")
                               (py "Not connected to qBittorrent") s2
                  | Ok true =>
                      ∃ added s3,
                        add_torrent env (entry_link entry) (Some (py "Anime")) s2
                        = (added, s3)
                        ∧ match added with
                          | Raise e => r = Raise e ∧ s' = s3
                          | Ok true =>
                              let tracked :=
                                tracked_anime (mgr s3)
                                ++ [series_name_of title] in
                              (r = Ok StartedDownloading ∨ r = Raise OSError
                               ∨ r = Raise UnicodeEncodeError)
                              ∧ tracked_anime (mgr s') = tracked
                              ∧ submissions (trace (world s'))
                                = submissions (trace (world s3))
                              ∧ logins (trace (world s'))
                                = logins (trace (world s3))
                          | Ok false =>
                              r = Ok FailedToStart
                              ∧ s' = boxed Warning (py "Error")
                                       (py "Failed to start download for: "
                                        ++ title) s3
                          end
                  end
          end
      end.
Proof.
  intros Hfresh Hrun. unfold on_anime_clicked in Hrun. cbv zeta in Hrun.
  erewrite bind_ok in Hrun by reflexivity. rewrite Hfresh in Hrun.
  apply bind_cases in Hrun as [(e & Hfeed & ->)|(feed & s1 & Hfeed & Hrun)].
  { by exists (Raise e), s'. }
  exists (Ok feed), s1. split; [done|].
  destruct feed as [entries|]; [|by injection Hrun as <- <-].
  destruct (List.find _ entries) as [entry|]; [|by injection Hrun as <- <-].
  erewrite bind_ok in Hrun by reflexivity.
  apply bind_cases in Hrun as [(e & Hc & ->)|(connected & s2 & Hc & Hrun)].
  { exists (Raise e), s'. split; [|done].
    unfold click_connection. by erewrite bind_ok by reflexivity. }
  exists (Ok connected), s2. split.
  { unfold click_connection. by erewrite bind_ok by reflexivity. }
  destruct connected; [|by injection Hrun as <- <-].
  change (negb true) with false in Hrun. cbv iota in Hrun.
  apply bind_cases in Hrun as [(e & Hadd & ->)|(added & s3 & Hadd & Hrun)].
  { by exists (Raise e), s'. }
  exists (Ok added), s3. split; [done|].
  destruct added; [|by injection Hrun as <- <-].
  erewrite bind_ok in Hrun by reflexivity.
  erewrite bind_ok in Hrun by reflexivity.
  erewrite bind_ok in Hrun by reflexivity.
  cbn [mgr world tracked_anime set_tracked_anime] in Hrun.
  revert Hrun.
  match goal with |- (save_tracked_anime env ?l ≫= _) ?s0 = _ → _ =>
    pose proof (save_tracked_anime_run env l s0) as Hsave
  end.
  cbn [mgr world steps] in Hsave.
  destruct (env_open env (steps (world s3)) TRACKED_FILE);
    [destruct (encodable _ _)|].
  - rewrite (bind_ok _ _ _ _ _ Hsave).
    unfold single_shot, message_box, mbind, M_bind, mret, M_ret, set_world.
    intros [= <- <-]. cbn [mgr world tracked_anime set_tracked_anime trace
                             emit tick store].
    unfold submissions, logins. rewrite !omap_app. simpl.
    rewrite !app_nil_r. auto.
  - rewrite (bind_raise _ _ _ _ _ Hsave). intros [= <- <-].
    cbn [mgr world tracked_anime set_tracked_anime trace tick store]. auto 6.
  - rewrite (bind_raise _ _ _ _ _ Hsave). intros [= <- <-].
    cbn [mgr world tracked_anime set_tracked_anime trace tick]. auto 6.
Qed.

End FreshClicks.

Section ClickInvariants.
Context (env : Env).

Lemma tracking_untouched_refl (s : Sys) : tracking_untouched s s.
Proof. by split. Qed.

Lemma tracking_untouched_trans (s1 s2 s3 : Sys) :
  tracking_untouched s1 s2 → tracking_untouched s2 s3 →
  tracking_untouched s1 s3.
Proof.
  intros [T12 F12] [T23 F23]. split; [congruence|].
  intros q Hq. by rewrite F23, F12.
Qed.

Ltac untouched :=
  respects_by uconstr:(tracking_untouched_refl)
    uconstr:(tracking_untouched_trans)
    ltac:(split; [done|]; intros ? ?; simpl; try done;
          apply lookup_insert_ne; congruence).

Lemma untouched_fetch_rss_feed :
  respects tracking_untouched (fetch_rss_feed env).
Proof. unfold fetch_rss_feed, feedparser_parse, setting, print, raise. untouched. Qed.

Lemma untouched_setup_qbittorrent :
  respects tracking_untouched (setup_qbittorrent env).
Proof.
  unfold setup_qbittorrent, auth_log_in, setting, print, raise. untouched.
Qed.

Lemma untouched_add_torrent (link category : option pystr) :
  respects tracking_untouched (add_torrent env link category).
Proof. unfold add_torrent, torrents_add, print. untouched. Qed.

Lemma untouched_try_connect (h u p : pystr) :
  respects tracking_untouched (try_connect env h u p).
Proof.
  unfold try_connect.
  apply (respects_bind _ tracking_untouched_trans);
    [apply (respects_get_mgr _ tracking_untouched_refl)|intros m].
  apply (respects_bind _ tracking_untouched_trans).
  { unfold save_settings, write_file, raise. untouched. }
  intros _. apply (respects_bind _ tracking_untouched_trans);
    [apply untouched_setup_qbittorrent|intros ok].
  unfold message_box. untouched.
Qed.

Lemma untouched_dialog_attempts (script : list (pystr * pystr * pystr)) :
  respects tracking_untouched (dialog_attempts env script).
Proof.
  induction script as [|[[h u] p] script IH]; simpl.
  - apply (respects_ret _ tracking_untouched_refl).
  - apply (respects_bind _ tracking_untouched_trans);
      [apply untouched_try_connect|intros [|]]; [|exact IH].
    apply (respects_ret _ tracking_untouched_refl).
Qed.

Lemma untouched_click_connection :
  respects tracking_untouched (click_connection env).
Proof.
  unfold click_connection.
  apply (respects_bind _ tracking_untouched_trans);
    [apply (respects_get_mgr _ tracking_untouched_refl)|intros m].
  destruct (qb_client m); [apply (respects_ret _ tracking_untouched_refl)|].
  unfold ensure_qbittorrent_connection.
  apply (respects_bind _ tracking_untouched_trans);
    [apply (respects_get_mgr _ tracking_untouched_refl)|intros m'].
  apply (respects_bind _ tracking_untouched_trans).
  { destruct (qb_client m');
      [apply untouched_setup_qbittorrent
      |apply (respects_ret _ tracking_untouched_refl)]. }
  intros [|]; [apply (respects_ret _ tracking_untouched_refl)|].
  apply (respects_bind _ tracking_untouched_trans).
  { unfold dialog_exec.
    do 3 (apply (respects_bind _ tracking_untouched_trans);
          [unfold setting, raise; untouched|intros ?]).
    apply (respects_bind _ tracking_untouched_trans);
      [apply (respects_get_world _ tracking_untouched_refl)|intros w].
    apply (respects_bind _ tracking_untouched_trans);
      [untouched|intros _]. apply untouched_dialog_attempts. }
  intros [|]; [|apply (respects_ret _ tracking_untouched_refl)].
  apply (respects_bind _ tracking_untouched_trans);
    [|intros _; apply (respects_ret _ tracking_untouched_refl)].
  unfold update_qbittorrent_status.
  apply (respects_try _ tracking_untouched_trans);
    [|intros e; unfold print, status_text; untouched].
  apply (respects_bind _ tracking_untouched_trans);
    [apply (respects_get_mgr _ tracking_untouched_refl)|intros m2].
  apply (respects_bind _ tracking_untouched_trans).
  { destruct (qb_client m2);
      [apply untouched_setup_qbittorrent
      |apply (respects_ret _ tracking_untouched_refl)]. }
  intros [|]; unfold status_text; untouched.
Qed.

Lemma untouched_boxed (kind : box_kind) (title text : pystr) (s : Sys) :
  tracking_untouched s (boxed kind title text s).
Proof. by split. Qed.

(** X15. A click that ends with one of the four error messages (feed
    unavailable, link not found, not connected, download not started) has
    left the tracked list as it was and has written no file but, through
    the connection dialog, the settings file; the tracked file in
    particular is as before. *)
Theorem failed_click_changes_nothing (title : pystr) (s s' : Sys)
    (r : click_result) :
  on_anime_clicked env title s = (Ok r, s') →
  r ≠ StoppedTracking →
  r ≠ StartedDownloading →
  tracked_anime (mgr s') = tracked_anime (mgr s)
  ∧ (∀ q, q ≠ SETTINGS_FILE → files (world s') !! q = files (world s) !! q)
  ∧ files (world s') !! TRACKED_FILE = files (world s) !! TRACKED_FILE.
Proof.
  intros Hrun Hstop Hstart.
  assert (tracking_untouched s s') as [Htracked Hfiles];
    [|split_and!; [done..|by apply Hfiles]].
  destruct (is_tracked (series_name_of title) (tracked_anime (mgr s))) eqn:Hin.
  { rewrite (on_anime_clicked_untracking env title s Hin) in Hrun.
    destruct (env_open _ _ _); [destruct (encodable _ _)|]; [|done..].
    by injection Hrun as <- _. }
  apply on_anime_clicked_fresh in Hrun as (feed & s1 & Hfeed & Hrun); [|done].
  apply untouched_fetch_rss_feed in Hfeed.
  destruct feed as [[entries|]|e]; [| |by destruct Hrun].
  2: { destruct Hrun as [_ ->].
       eapply tracking_untouched_trans; [done|apply untouched_boxed]. }
  destruct (List.find _ entries) as [entry|]; [|destruct Hrun as [_ ->]].
  2: { eapply tracking_untouched_trans; [done|apply untouched_boxed]. }
  destruct Hrun as (connected & s2 & Hc & Hrun).
  apply untouched_click_connection in Hc.
  destruct connected as [[|]|e]; [| |by destruct Hrun].
  - destruct Hrun as (added & s3 & Hadd & Hrun).
    apply untouched_add_torrent in Hadd.
    destruct added as [[|]|e]; [| |by destruct Hrun].
    + destruct Hrun as ([[= ->]|[[=]|[=]]] & _). done.
    + destruct Hrun as [_ ->].
      eapply tracking_untouched_trans; [done|].
      eapply tracking_untouched_trans; [done|].
      eapply tracking_untouched_trans; [done|apply untouched_boxed].
  - destruct Hrun as [_ ->].
    eapply tracking_untouched_trans; [done|].
    eapply tracking_untouched_trans; [done|apply untouched_boxed].
Qed.

End ClickInvariants.

Ltac respects_with refl trans leaf known :=
  repeat first
    [ known
    | apply (respects_ret _ refl)
    | apply (respects_lift _ refl)
    | apply (respects_raise _ refl)
    | apply (respects_get_mgr _ refl)
    | apply (respects_get_world _ refl)
    | apply (respects_bind _ trans); [|intros ?]
    | apply (respects_try _ trans); [|intros ?]
    | apply respects_set_world; intros ?; leaf
    | apply respects_set_mgr; intros ?; leaf
    | match goal with
      | |- respects _ (match ?x with _ => _ end) => destruct x
      | |- respects _ (if ?x then _ else _) => destruct x
      end ].

Section ClickSubmissions.
Context (env : Env).

Lemma same_submissions_refl (s : Sys) : same_submissions s s.
Proof. done. Qed.

Lemma same_submissions_trans (s1 s2 s3 : Sys) :
  same_submissions s1 s2 → same_submissions s2 s3 → same_submissions s1 s3.
Proof. unfold same_submissions. congruence. Qed.

Ltac quiet known :=
  respects_with uconstr:(same_submissions_refl)
    uconstr:(same_submissions_trans)
    ltac:(unfold same_submissions; simpl; unfold submissions;
          rewrite ?omap_app; simpl; by rewrite ?app_nil_r)
    known.

Lemma quiet_fetch_rss_feed : respects same_submissions (fetch_rss_feed env).
Proof.
  unfold fetch_rss_feed, feedparser_parse, setting, print, raise.
  quiet fail.
Qed.

Lemma quiet_setup_qbittorrent :
  respects same_submissions (setup_qbittorrent env).
Proof.
  unfold setup_qbittorrent, auth_log_in, setting, print, raise. quiet fail.
Qed.

Lemma quiet_dialog_attempts (script : list (pystr * pystr * pystr)) :
  respects same_submissions (dialog_attempts env script).
Proof.
  induction script as [|[[h u] p] script IH]; simpl.
  - quiet fail.
  - unfold try_connect, save_settings, write_file, message_box, raise.
    quiet ltac:(first [apply quiet_setup_qbittorrent|exact IH]).
Qed.

Lemma quiet_click_connection :
  respects same_submissions (click_connection env).
Proof.
  unfold click_connection, ensure_qbittorrent_connection, dialog_exec,
    update_qbittorrent_status, setting, print, status_text, raise.
  quiet ltac:(first [apply quiet_setup_qbittorrent
                    |apply quiet_dialog_attempts]).
Qed.

Lemma add_torrent_submits (link category : option pystr) (s s' : Sys)
    (r : Res bool) :
  add_torrent env link category s = (r, s') →
  (r ≠ Ok false → is_Some (qb_client (mgr s)))
  ∧ submissions (trace (world s'))
    = submissions (trace (world s))
      ++ match qb_client (mgr s) with
         | Some _ =>
             [([link], if truthy_arg category then Some (py "Anime") else None)]
         | None => []
         end.
Proof.
  unfold add_torrent, try_except.
  erewrite bind_ok by reflexivity.
  destruct (qb_client (mgr s)) as [c|].
  - unfold torrents_add, mbind, M_bind, get_world, set_world, lift, mret, M_ret.
    cbn [mgr world steps].
    destruct (env_torrents_add env _ c _ _) as [[]|e].
    + intros [= <- <-]. split; [by eauto|].
      simpl. unfold submissions. by rewrite omap_app.
    + match goal with |- context [print env ?line ?s0] =>
        destruct (print_cases env line s0) as [[_ ->] | [_ ->]]
      end; intros [= <- <-]; (split; [by eauto|]);
        simpl; unfold submissions; rewrite ?omap_app; simpl;
        by rewrite ?app_nil_r.
  - intros [= <- <-]. split; [done|]. by rewrite app_nil_r.
Qed.

(** X16. A click submits at most one torrent, and only ever the link of
    the first feed entry that carries the clicked title, in the category
    "Anime".  A click that ends with "Started downloading" has made that
    submission; one that ends with "Stopped tracking", "Could not fetch RSS
    feed", "Could not find torrent link" or "Not connected" has made
    none. *)
Theorem click_submissions (title : pystr) (s s' : Sys) (r : Res click_result) :
  on_anime_clicked env title s = (r, s') →
  ∃ subs,
    submissions (trace (world s')) = submissions (trace (world s)) ++ subs
    ∧ match r with
      | Ok StartedDownloading => submits_clicked env title s subs
      | Ok FailedToStart | Raise _ =>
          subs = [] ∨ submits_clicked env title s subs
      | Ok _ => subs = []
      end.
Proof.
  intros Hrun.
  assert (∀ (k : box_kind) (t x : pystr) (s0 : Sys),
            submissions (trace (world (boxed k t x s0)))
            = submissions (trace (world s0))) as Hbox.
  { intros k t x s0. simpl. unfold submissions.
    by rewrite omap_app, app_nil_r. }
  destruct (is_tracked (series_name_of title) (tracked_anime (mgr s))) eqn:Hin.
  { rewrite (on_anime_clicked_untracking env title s Hin) in Hrun.
    exists []. rewrite app_nil_r.
    destruct (env_open _ _ _); [destruct (encodable _ _)|];
      injection Hrun as <- <-; (split; [|by auto]);
      simpl; unfold submissions; rewrite ?omap_app; simpl;
      by rewrite ?app_nil_r. }
  apply on_anime_clicked_fresh in Hrun as (feed & s1 & Hfeed & Hrun); [|done].
  pose proof (quiet_fetch_rss_feed _ _ _ Hfeed) as Q1.
  unfold same_submissions in Q1.
  destruct feed as [[entries|]|e].
  2: { destruct Hrun as [-> ->]. exists []. rewrite app_nil_r, Hbox. done. }
  2: { destruct Hrun as [-> ->]. exists []. rewrite app_nil_r. auto. }
  destruct (List.find _ entries) as [entry|] eqn:Hfind;
    [|destruct Hrun as [-> ->]].
  2: { exists []. rewrite app_nil_r, Hbox. done. }
  destruct Hrun as (connected & s2 & Hc & Hrun).
  apply quiet_click_connection in Hc as Q2. unfold same_submissions in Q2.
  destruct connected as [[|]|e].
  - destruct Hrun as (added & s3 & Hadd & Hrun).
    apply add_torrent_submits in Hadd as [Hclient Q3].
    assert (submits_clicked env title s
              [([entry_link entry], Some (py "Anime"))]) as Hsub
      by (by exists entries, s1, entry).
    destruct added as [[|]|e].
    + destruct (Hclient ltac:(done)) as [c Hsome]. rewrite Hsome in Q3.
      destruct Hrun as (Hr & _ & Q4 & _).
      eexists. split; [by rewrite Q4, Q3, Q2, Q1|].
      destruct Hr as [-> | [-> | ->]]; auto.
    + destruct Hrun as [-> ->]. eexists. split.
      * rewrite Hbox. by rewrite Q3, Q2, Q1.
      * destruct (qb_client (mgr s2)); auto.
    + destruct (Hclient ltac:(done)) as [c Hsome]. rewrite Hsome in Q3.
      destruct Hrun as [-> ->].
      eexists. split; [by rewrite Q3, Q2, Q1|]. auto.
  - destruct Hrun as [-> ->]. exists []. rewrite app_nil_r, Hbox. split; [|done].
    congruence.
  - destruct Hrun as [-> ->]. exists []. rewrite app_nil_r.
    split; [congruence|auto].
Qed.

End ClickSubmissions.

Section ClickSession.
Context (env : Env).

Lemma same_session_refl (s : Sys) : same_session s s.
Proof. done. Qed.

Lemma same_session_trans (s1 s2 s3 : Sys) :
  same_session s1 s2 → same_session s2 s3 → same_session s1 s3.
Proof. intros [L12 C12] [L23 C23]. split; congruence. Qed.

Ltac session :=
  respects_with uconstr:(same_session_refl) uconstr:(same_session_trans)
    ltac:(split; [|done]; simpl; unfold logins; rewrite ?omap_app; simpl;
          by rewrite ?app_nil_r)
    fail.

Lemma session_fetch_rss_feed : respects same_session (fetch_rss_feed env).
Proof.
  unfold fetch_rss_feed, feedparser_parse, setting, print, raise. session.
Qed.

Lemma session_add_torrent (link category : option pystr) :
  respects same_session (add_torrent env link category).
Proof. unfold add_torrent, torrents_add, print. session. Qed.

Lemma session_boxed (kind : box_kind) (title text : pystr) (s : Sys) :
  same_session s (boxed kind title text s).
Proof.
  split; [|done]. simpl. unfold logins. by rewrite omap_app, app_nil_r.
Qed.

(** With a client object, a click checks nothing: no login, no dialog. *)
Lemma on_anime_clicked_with_client (c : Client) (title : pystr) (s s' : Sys)
    (r : Res click_result) :
  qb_client (mgr s) = Some c →
  on_anime_clicked env title s = (r, s') →
  r ≠ Ok NotConnected
  ∧ logins (trace (world s')) = logins (trace (world s)).
Proof.
  intros Hclient Hrun.
  destruct (is_tracked (series_name_of title) (tracked_anime (mgr s))) eqn:Hin.
  { rewrite (on_anime_clicked_untracking env title s Hin) in Hrun.
    destruct (env_open _ _ _); [destruct (encodable _ _)|];
      injection Hrun as <- <-; (split; [done|]);
      simpl; unfold logins; rewrite ?omap_app; simpl; by rewrite ?app_nil_r. }
  apply on_anime_clicked_fresh in Hrun as (feed & s1 & Hfeed & Hrun); [|done].
  apply session_fetch_rss_feed in Hfeed as [L1 C1].
  destruct feed as [[entries|]|e].
  2: { destruct Hrun as [-> ->]. split; [done|].
       by rewrite (proj1 (session_boxed _ _ _ _)). }
  2: { by destruct Hrun as [-> ->]. }
  destruct (List.find _ entries) as [entry|]; [|destruct Hrun as [-> ->]].
  2: { split; [done|]. by rewrite (proj1 (session_boxed _ _ _ _)). }
  destruct Hrun as (connected & s2 & Hc & Hrun).
  unfold click_connection in Hc.
  erewrite bind_ok in Hc by reflexivity.
  rewrite C1, Hclient in Hc. injection Hc as <- <-.
  destruct Hrun as (added & s3 & Hadd & Hrun).
  apply session_add_torrent in Hadd as [L3 C3].
  destruct added as [[|]|e].
  - destruct Hrun as (Hr & _ & _ & L4). split; [|congruence].
    by destruct Hr as [-> | [-> | ->]].
  - destruct Hrun as [-> ->]. split; [done|].
    rewrite (proj1 (session_boxed _ _ _ _)). congruence.
  - destruct Hrun as [-> ->]. split; [done|]. congruence.
Qed.

(** X17. A login that fails still leaves the client object on the manager.
    A click that comes after it therefore does not look after the
    connection: it neither logs in again nor opens the connection dialog,
    and cannot end with "Not connected". *)
Theorem click_after_failed_login (host username password title : pystr)
    (s s1 s2 : Sys) (r : Res click_result) :
  settings (mgr s) !! py "qb_host" = Some host →
  settings (mgr s) !! py "qb_username" = Some username →
  settings (mgr s) !! py "qb_password" = Some password →
  setup_qbittorrent env s = (Ok false, s1) →
  on_anime_clicked env title s1 = (r, s2) →
  qb_client (mgr s1) = Some (mk_Client host username password)
  ∧ r ≠ Ok NotConnected
  ∧ logins (trace (world s2)) = logins (trace (world s1)).
Proof.
  intros Hhost Huser Hpass Hsetup Hrun.
  assert (qb_client (mgr s1) = Some (mk_Client host username password))
    as Hclient.
  { revert Hsetup.
    unfold setup_qbittorrent, try_except, auth_log_in, setting, print, mbind,
      M_bind, mret, M_ret, get_mgr, set_mgr, get_world, set_world, lift.
    rewrite Hhost, Huser, Hpass. cbn [mgr world settings set_qb_client].
    rewrite ?Hhost, ?Huser, ?Hpass.
    destruct (env_login env _ _) as [[]|e]; [done|].
    destruct (encodable _ _); [|done]. by intros [= <-]. }
  split; [done|]. by eapply on_anime_clicked_with_client.
Qed.

End ClickSession.

(** ** Settings and series status *)

Section SettingsAndStatus.
Context `{UnicodeDB} (env : Env) (out : Outside).

Ltac py_neq := let E := fresh in intros E; vm_compute in E; discriminate E.

(** X18. Saving the settings from the settings page never reconnects:
    the manager holds the new settings by the time they are compared with
    the manager's, so the comparison finds no change, whatever was typed.
    The call raises nothing; it writes the file and reports success, or,
    when the file cannot be written, reports the error and leaves the
    settings in memory as they were.  The client object is untouched and the
    status label is never set. *)
Theorem save_settings_never_reconnects
    (folder rss_url qb_host qb_username qb_password : pystr) (s : Sys) :
  let new_settings : gmap pystr pystr :=
    <[py "download_folder" := folder]>
      (<[py "rss_url" := rss_url]>
         (<[py "qb_host" := qb_host]>
            (<[py "qb_username" := qb_username]>
               (<[py "qb_password" := qb_password]> ∅)))) in
  ∃ s',
    MainWindow_save_settings env out folder rss_url qb_host qb_username
      qb_password s = (Ok (), s')
    ∧ qb_client (mgr s') = qb_client (mgr s)
    ∧ if env_open env (steps (world s)) SETTINGS_FILE
      then settings (mgr s') = new_settings
           ∧ trace (world s')
             = trace (world s)
               ++ [EvWrite SETTINGS_FILE (FJson new_settings);
                   EvMessageBox Information (py "Success")
                     (py "Settings saved successfully")]
      else settings (mgr s') = settings (mgr s)
           ∧ trace (world s')
             = trace (world s)
               ++ [EvMessageBox Critical (py "Error")
                     (py "Failed to save settings: " ++ out_str out OSError)].
Proof.
  intros new_settings.
  assert (new_settings !! py "qb_host" = Some qb_host) as Hhost.
  { unfold new_settings.
    rewrite !lookup_insert_ne by py_neq. apply lookup_insert_eq. }
  assert (new_settings !! py "qb_username" = Some qb_username) as Huser.
  { unfold new_settings.
    rewrite !lookup_insert_ne by py_neq. apply lookup_insert_eq. }
  assert (new_settings !! py "qb_password" = Some qb_password) as Hpass.
  { unfold new_settings.
    rewrite !lookup_insert_ne by py_neq. apply lookup_insert_eq. }
  unfold MainWindow_save_settings. cbv zeta. fold new_settings.
  unfold try_except, save_settings, write_file, setting, message_box, mbind,
    M_bind, mret, M_ret, get_mgr, set_mgr, get_world, set_world, raise, lift.
  cbn [mgr world steps settings set_settings].
  destruct (env_open env (steps (world s)) SETTINGS_FILE).
  - cbn [mgr world steps settings set_settings].
    rewrite Hhost. cbv beta iota. rewrite bool_decide_true by done.
    cbn [negb mgr settings set_settings].
    rewrite Huser. cbv beta iota. rewrite bool_decide_true by done.
    cbn [negb mgr settings set_settings].
    rewrite Hpass. cbv beta iota. rewrite bool_decide_true by done.
    cbn [negb]. eexists. split; [reflexivity|].
    split; [done|]. split; [done|]. simpl. by rewrite <- (assoc_L (++)).
  - eexists. split; [reflexivity|]. done.
Qed.

Lemma search_anime_run (q : pystr) (s : Sys) :
  search_anime out q s
  = (out_search out (steps (world s)) q,
     mk_Sys (mgr s)
       (emit (EvHttpGet (py "https://api.jikan.moe/v4/anime"))
          (tick (world s)))).
Proof. reflexivity. Qed.

(** The lookup makes one request and changes nothing else; when it returns
    a verdict, the verdict is one of the two and the API had data. *)
Lemma status_lookup_run (series_name : pystr) (s : Sys) :
  let q := Str.strip (Str.replace (py "[SubsPlease]") [] series_name) in
  ∃ r, status_lookup out series_name s
       = (r, mk_Sys (mgr s)
               (emit (EvHttpGet (py "https://api.jikan.moe/v4/anime"))
                  (tick (world s))))
       ∧ ∀ verdict, r = Ok (Some verdict) →
           (verdict = Ended ∨ verdict = Ongoing)
           ∧ has_data (out_search out (steps (world s)) q) = true.
Proof.
  intros q. unfold status_lookup. cbv zeta. fold q.
  pose proof (search_anime_run q s) as Hsearch.
  unfold has_data.
  destruct (out_search out (steps (world s)) q) as [response|e].
  2: { eexists. split; [by erewrite bind_raise by exact Hsearch|done]. }
  erewrite bind_ok by exact Hsearch.
  destruct (status_code response =? 200)%Z; [|by eexists].
  unfold lift.
  destruct (response_json response) as [data|e].
  2: { eexists. split; [by erewrite bind_raise by reflexivity|done]. }
  erewrite bind_ok by reflexivity.
  destruct (Json.getitem data (py "data")) as [items|e].
  2: { eexists. split; [by erewrite bind_raise by reflexivity|done]. }
  erewrite bind_ok by reflexivity.
  destruct (Json.truthy items); [|by eexists].
  destruct (Json.getitem0 items) as [anime|e].
  2: { eexists. split; [by erewrite bind_raise by reflexivity|done]. }
  erewrite bind_ok by reflexivity.
  match goal with
  | |- context [(λ s0 : Sys, (?x, s0)) ≫= _] => destruct x as [status|e]
  end.
  2: { eexists. split; [by erewrite bind_raise by reflexivity|done]. }
  erewrite bind_ok by reflexivity.
  eexists. split; [reflexivity|].
  intros verdict [= <-]. split; [|done]. destruct (_ || _); auto.
Qed.

(** X19. A status check on a series that is not in the cache makes one
    request and raises nothing.  The card and the window reach the same
    verdict, "Ended" or "Ongoing".  The window remembers "Ended" always.
    It remembers nothing unless the API answered with status 200 and data:
    the "Ongoing" that stands for a failed or empty lookup is not
    remembered, so that series is asked about again.  A remembered verdict
    is returned without any request. *)
Theorem check_series_status_outcome (cache : gmap pystr pystr)
    (series_name : pystr) (s : Sys) :
  cache !! series_name = None →
  let q := Str.strip (Str.replace (py "[SubsPlease]") [] series_name) in
  ∃ verdict cache',
    let s' := mk_Sys (mgr s)
                (emit (EvHttpGet (py "https://api.jikan.moe/v4/anime"))
                   (tick (world s))) in
    check_series_status out cache series_name s = (Ok (verdict, cache'), s')
    ∧ card_check_series_status out series_name s = (Ok verdict, s')
    ∧ (verdict = Ended ∧ cache' = <[series_name := Ended]> cache
       ∨ verdict = Ongoing
         ∧ (cache' = cache ∨ cache' = <[series_name := Ongoing]> cache))
    ∧ match (status_lookup out series_name s).1 with
      | Ok (Some found) =>
          verdict = found ∧ cache' = <[series_name := found]> cache
      | Ok None | Raise _ => verdict = Ongoing ∧ cache' = cache
      end
    ∧ (has_data (out_search out (steps (world s)) q) = false →
       verdict = Ongoing ∧ cache' = cache)
    ∧ (∀ remembered s2,
         cache' !! series_name = Some remembered →
         check_series_status out cache' series_name s2
         = (Ok (remembered, cache'), s2)).
Proof.
  intros Hmiss q.
  destruct (status_lookup_run series_name s) as (r & Hrun & Hverdict).
  fold q in Hverdict.
  assert (∀ c remembered s2,
            c !! series_name = Some remembered →
            check_series_status out c series_name s2
            = (Ok (remembered, c), s2)) as Hhit.
  { intros c remembered s2 Hc. unfold check_series_status. by rewrite Hc. }
  unfold check_series_status, card_check_series_status, try_except.
  rewrite Hmiss.
  destruct r as [[verdict|]|e].
  - rewrite !(bind_ok _ _ _ _ _ Hrun).
    destruct (Hverdict verdict eq_refl) as [Hv Hdata].
    exists verdict, (<[series_name := verdict]> cache).
    split_and!; [reflexivity|reflexivity| | | |intros; by apply Hhit].
    + destruct Hv as [-> | ->]; auto.
    + by rewrite Hrun.
    + intros Hnone. congruence.
  - rewrite !(bind_ok _ _ _ _ _ Hrun).
    exists Ongoing, cache.
    split_and!; [reflexivity|reflexivity| | | |intros; by apply Hhit]; auto.
    by rewrite Hrun.
  - rewrite !(bind_raise _ _ _ _ _ Hrun).
    exists Ongoing, cache.
    split_and!; [reflexivity|reflexivity| | | |intros; by apply Hhit]; auto.
    by rewrite Hrun.
Qed.

End SettingsAndStatus.

(** ** The countdown *)

Section CountdownOutcome.
Context `{UnicodeDB}.

Lemma list_index_range (x : pystr) (l : list pystr) (i : Z) :
  list_index x l = Ok i → (0 ≤ i < Z.of_nat (length l))%Z.
Proof.
  revert i. induction l as [|y l IH]; intros i; simpl; [done|].
  case_bool_decide.
  - intros [= <-]. lia.
  - unfold mbind, Res_bind. destruct (list_index x l) as [j|e]; [|done].
    intros [= <-]. specialize (IH j eq_refl). lia.
Qed.

Lemma weekday_range (d : datetime) : (0 ≤ DateTime.weekday d ≤ 6)%Z.
Proof.
  unfold DateTime.weekday.
  pose proof (Z.mod_pos_bound (DateTime.toordinal d + 6) 7). lia.
Qed.

Lemma replace_ok (dt t : datetime) (y m d : Z) :
  DateTime.replace dt y m d = Ok t →
  year t = y ∧ month t = m ∧ day t = d
  ∧ (d ≤ DateTime.days_in_month y m)%Z.
Proof.
  unfold DateTime.replace, DateTime.valid_date.
  destruct (d <=? DateTime.days_in_month y m)%Z eqn:Hd;
    [|by rewrite andb_false_r].
  apply Z.leb_le in Hd.
  destruct (_ && _); [|done]. by intros [= <-].
Qed.

Lemma for_each_inv {A S} (I : S → Prop) (l : list A) (body : A → S → Res S) :
  (∀ x st st', body x st = Ok st' → I st → I st') →
  ∀ st st', for_each l body st = Ok st' → I st → I st'.
Proof.
  intros Hbody. induction l as [|x l IH]; intros st st'; simpl.
  - by intros [= <-].
  - unfold mbind, Res_bind. destruct (body x st) as [st1|e] eqn:E; [|done].
    intros Hrest Hst. eapply IH; [done|]. by eapply Hbody.
Qed.

(** Every candidate the loop accepts is dated one to seven days ahead. *)
Lemma countdown_show_dated (series_name : pystr) (now : datetime)
    (day_name : pystr) (show : json) (next_time next_time' : option datetime) :
  countdown_show series_name now day_name show next_time = Ok next_time' →
  (∀ t, next_time = Some t → dated_ahead now t) →
  ∀ t, next_time' = Some t → dated_ahead now t.
Proof.
  unfold countdown_show, mbind, Res_bind.
  destruct (Json.getitem show (py "title")) as [title|]; [|done].
  destruct (Json.contains series_name title) as [[|]|]; [| |done].
  2: { by intros [= <-]. }
  destruct (Json.getitem show (py "time")) as [time_str|]; [|done].
  destruct (match time_str with JStr s => _ | _ => _ end)
    as [anime_time|]; [|done].
  destruct (list_index _ weekday_names) as [day_index|] eqn:Hidx; [|done].
  destruct (DateTime.replace _ _ _ _) as [candidate|] eqn:Hrep; [|done].
  apply list_index_range in Hidx. change (length weekday_names) with 7%nat in Hidx.
  apply replace_ok in Hrep as (Hy & Hm & Hd & Hlast).
  assert (dated_ahead now candidate) as Hcand.
  { exists (days_until day_index (DateTime.weekday now)).
    split; [apply days_until_range; [lia|apply weekday_range]|].
    rewrite Hd. done. }
  destruct next_time as [t0|]; intros [= <-] Hold t [= <-]; [|done].
  destruct (DateTime.lt candidate t0); [done|by apply Hold].
Qed.

Lemma next_episode_time_dated (series_name : pystr) (now : datetime)
    (schedule_data : json) (t : datetime) :
  next_episode_time series_name now schedule_data = Ok (Some t) →
  dated_ahead now t.
Proof.
  unfold next_episode_time, mbind, Res_bind.
  destruct (Json.getitem _ _) as [schedule|]; [|done].
  destruct (Json.items schedule) as [items|]; [|done].
  intros Hloop.
  eapply (for_each_inv (λ nt, ∀ t, nt = Some t → dated_ahead now t));
    [|exact Hloop|done|done].
  intros [day_name shows] st st'. unfold countdown_day, mbind, Res_bind.
  destruct (Json.iter _) as [l|]; [|done]. cbn [fst snd].
  apply (for_each_inv (λ nt, ∀ t, nt = Some t → dated_ahead now t)).
  intros show nt nt'. apply countdown_show_dated.
Qed.


Lemma for_each_skips {A S} (l : list A) (body : A → S → Res S) (P : A → Prop) :
  (∀ x st, P x → body x st = Ok st) →
  Forall P l → ∀ st, for_each l body st = Ok st.
Proof.
  intros Hbody Hl st. induction Hl as [|x l Hx _ IH]; [done|].
  simpl. by rewrite (Hbody x st Hx).
Qed.

(** X21. When the schedule arrives and lists, day by day, entries of other
    series only, the label reads "No scheduled episodes found"; the day
    names are not even looked at. *)
Theorem update_countdown_no_match (env : Env) (series_name : pystr)
    (s s1 : Sys) (payload schedule : list (pystr * json)) :
  fetch_schedule env s = (Ok (JDict payload), s1) →
  Json.assoc (py "schedule") payload = Some (JDict schedule) →
  Forall (other_day series_name) schedule →
  (update_countdown env series_name s).1
  = Ok (py "No scheduled episodes found").
Proof.
  intros Hfetch Hsched Hdays.
  set (now := env_utcnow env (steps (world s1))).
  assert (next_episode_time series_name now (JDict payload) = Ok None)
    as Hnone.
  { unfold next_episode_time. simpl. rewrite Hsched. simpl.
    apply (for_each_skips _ _ (other_day series_name)); [|done].
    intros [day_name shows_json] st (shows & Hlist & Hshows).
    simpl in Hlist. subst shows_json. unfold countdown_day. simpl.
    apply (for_each_skips _ _ (other_show series_name)); [|done].
    intros show st' (fields & title & -> & Htitle & Hmiss).
    unfold countdown_show, mbind, Res_bind, Json.getitem, Json.contains.
    by rewrite Htitle, Hmiss. }
  unfold update_countdown, try_except.
  rewrite (bind_ok _ _ _ _ _ Hfetch).
  assert (Json.truthy (JDict payload) = true) as ->.
  { destruct payload; [done|reflexivity]. }
  change (negb true) with false. cbv iota.
  erewrite bind_ok by reflexivity.
  erewrite bind_ok by (unfold lift; fold now; rewrite Hnone; reflexivity).
  reflexivity.
Qed.

End CountdownOutcome.

(** ** Concrete runs of the further properties *)

Section MoreSampleRuns.
#[local] Existing Instance ascii_only.
#[local] Existing Instance posix.
#[local] Existing Instance exact_floats.

Lemma safe_title_ignores_dropped_witness :
  Str.isalnum 58 || bool_decide (58 ∈ py " -_") = false
  ∧ get_cached_image_path (py "Re" ++ 58 :: py "Zero")
    = get_cached_image_path (py "Re" ++ py "Zero").
Proof.
  assert (Str.isalnum 58 || bool_decide (58 ∈ py " -_") = false) as H1
    by (vm_compute; reflexivity).
  split; [exact H1|].
  exact (safe_title_ignores_dropped (py "Re") (py "Zero") 58 H1).
Defined.



Lemma display_downloads_sorted_mkv_witness :
  let run := display_downloads sample_out settings_sys in
  let names := [episode_1; episode_2] in
  run = (Ok names, run.2)
  ∧ Forall (λ f, endswith mkv f = true) names
  ∧ StronglySorted (λ a b, str_lt b a = false) names
  ∧ ∃ files, get_downloaded_files sample_out settings_sys = (Ok files, run.2)
             ∧ names ≡ₚ List.filter (endswith mkv) files.
Proof.
  intros run names.
  assert (run = (Ok names, run.2)) as H1 by (vm_compute; reflexivity).
  split; [exact H1|].
  exact (display_downloads_sorted_mkv sample_out settings_sys run.2 names H1).
Defined.

Lemma get_last_episode_is_oldest_witness :
  let oldest := mk_DirEntry episode_1 true 10 in
  settings (mgr settings_sys) !! py "download_folder" = Some (py "/downloads")
  ∧ out_folder sample_out (steps (world settings_sys)) (py "/downloads")
    = Directory sample_folder
  ∧ oldest ∈ sample_folder
  ∧ entry_isfile oldest = true
  ∧ names_episode (py "X") (entry_name oldest) = Some (py "01 (1080p)")
  ∧ (∀ e, e ∈ sample_folder → entry_isfile e = true →
          names_episode (py "X") (entry_name e) ≠ None →
          (entry_name e, entry_mtime e)
          = (entry_name oldest, entry_mtime oldest)
          ∨ (entry_mtime oldest < entry_mtime e)%Q)
  ∧ (get_last_episode sample_out (py "X") settings_sys).1
    = Ok (py "01 (1080p)").
Proof.
  intros oldest.
  assert (settings (mgr settings_sys) !! py "download_folder"
          = Some (py "/downloads")) as H1 by (vm_compute; reflexivity).
  assert (out_folder sample_out (steps (world settings_sys)) (py "/downloads")
          = Directory sample_folder) as H2 by reflexivity.
  assert (oldest ∈ sample_folder) as H3 by (do 3 right; left).
  assert (entry_isfile oldest = true) as H4 by reflexivity.
  assert (names_episode (py "X") (entry_name oldest) = Some (py "01 (1080p)"))
    as H5 by (vm_compute; reflexivity).
  assert (∀ e, e ∈ sample_folder → entry_isfile e = true →
               names_episode (py "X") (entry_name e) ≠ None →
               (entry_name e, entry_mtime e)
               = (entry_name oldest, entry_mtime oldest)
               ∨ (entry_mtime oldest < entry_mtime e)%Q) as H6.
  { intros e He Hfile Hname. unfold sample_folder in He.
    repeat (apply elem_of_cons in He as [-> | He]).
    - discriminate Hfile.
    - right. reflexivity.
    - exfalso. apply Hname. vm_compute. reflexivity.
    - left. reflexivity.
    - by apply elem_of_nil in He. }
  split; [exact H1|]. split; [exact H2|]. split; [exact H3|].
  split; [exact H4|]. split; [exact H5|]. split; [exact H6|].
  exact (get_last_episode_is_oldest sample_out (py "X") (py "/downloads")
           (py "01 (1080p)") sample_folder oldest settings_sys
           H1 H2 H3 H4 H5 H6).
Defined.

Lemma fetch_anime_image_second_time_witness :
  let run := fetch_anime_image poster_env episode_1 sample_sys in
  let p := get_cached_image_path (clean_title episode_1) in
  run = (Ok p, run.2)
  ∧ p ≠ PLACEHOLDER_IMAGE
  ∧ clean_title episode_2 = clean_title episode_1
  ∧ fetch_anime_image poster_env episode_2 run.2
    = (Ok p, mk_Sys (mgr run.2)
               (emit (EvPrint (LogCached (clean_title episode_1)))
                  (world run.2))).
Proof.
  intros run p.
  assert (run = (Ok p, run.2)) as H1 by (vm_compute; reflexivity).
  assert (p ≠ PLACEHOLDER_IMAGE) as H2 by (intros E; discriminate E).
  assert (clean_title episode_2 = clean_title episode_1) as H3 by reflexivity.
  split; [exact H1|]. split; [exact H2|]. split; [exact H3|].
  exact (fetch_anime_image_second_time poster_env episode_1 episode_2
           sample_sys run.2 p H1 H2 H3).
Defined.

Lemma fetch_anime_image_no_results_witness :
  files (world sample_sys) !! get_cached_image_path (clean_title sample_title)
  = None
  ∧ ¬ (calls_per_second (jikan_limiter (mgr sample_sys)) == 0)%Q
  ∧ (∀ n url, no_results (env_http empty_search_env n url))
  ∧ ∃ s',
      fetch_anime_image empty_search_env sample_title sample_sys
      = (Ok PLACEHOLDER_IMAGE, s')
      ∧ trace (world s')
        = trace (world sample_sys)
          ++ [EvHttpGet (query_url (clean_title sample_title));
              EvHttpGet (query_url (clean_title sample_title));
              EvHttpGet (query_url (clean_title sample_title))]
      ∧ files (world s') = files (world sample_sys).
Proof.
  assert (files (world sample_sys)
            !! get_cached_image_path (clean_title sample_title) = None) as H1
    by reflexivity.
  assert (¬ (calls_per_second (jikan_limiter (mgr sample_sys)) == 0)%Q) as H2
    by (intros E; discriminate E).
  assert (∀ n url, no_results (env_http empty_search_env n url)) as H3
    by (intros n url; eexists _, _; split_and!; reflexivity).
  split; [exact H1|]. split; [exact H2|]. split; [exact H3|].
  exact (fetch_anime_image_no_results empty_search_env sample_title sample_sys
           H1 H2 H3).
Defined.

Lemma untrack_click_drops_every_match_witness :
  let run := on_anime_clicked monday_env sample_title tracked_sys in
  is_tracked (series_name_of sample_title) (tracked_anime (mgr tracked_sys))
  = true
  ∧ run = (run.1, run.2)
  ∧ tracked_anime (mgr run.2)
    = List.filter
        (λ anime, negb (Str.contains (series_name_of sample_title) anime))
        (tracked_anime (mgr tracked_sys))
  ∧ ∀ anime, Str.contains (series_name_of sample_title) anime = true
             ↔ occurs (series_name_of sample_title) anime.
Proof.
  intros run.
  assert (is_tracked (series_name_of sample_title)
            (tracked_anime (mgr tracked_sys)) = true) as H1
    by (vm_compute; reflexivity).
  assert (run = (run.1, run.2)) as H2 by (by destruct run).
  split; [exact H1|]. split; [exact H2|].
  exact (untrack_click_drops_every_match monday_env sample_title tracked_sys
           run.2 run.1 H1 H2).
Defined.

Lemma untrack_click_write_failure_witness :
  is_tracked (series_name_of sample_title) (tracked_anime (mgr tracked_sys))
  = true
  ∧ env_open readonly_env (steps (world tracked_sys)) TRACKED_FILE = false
  ∧ ∃ s', on_anime_clicked readonly_env sample_title tracked_sys
          = (Raise OSError, s')
          ∧ is_tracked (series_name_of sample_title) (tracked_anime (mgr s'))
            = false
          ∧ files (world s') = files (world tracked_sys)
          ∧ trace (world s') = trace (world tracked_sys).
Proof.
  assert (is_tracked (series_name_of sample_title)
            (tracked_anime (mgr tracked_sys)) = true) as H1
    by (vm_compute; reflexivity).
  assert (env_open readonly_env (steps (world tracked_sys)) TRACKED_FILE
          = false) as H2 by reflexivity.
  split; [exact H1|]. split; [exact H2|].
  exact (untrack_click_write_failure readonly_env sample_title tracked_sys
           H1 H2).
Defined.

Lemma click_on_empty_series_name_witness :
  let run := on_anime_clicked monday_env (py "[SubsPlease]") tracked_sys in
  series_name_of (py "[SubsPlease]") = []
  ∧ tracked_anime (mgr tracked_sys) ≠ []
  ∧ run = (run.1, run.2)
  ∧ (run.1 = Ok StoppedTracking ∨ run.1 = Raise OSError)
  ∧ tracked_anime (mgr run.2) = [].
Proof.
  intros run.
  assert (series_name_of (py "[SubsPlease]") = []) as H1
    by (vm_compute; reflexivity).
  assert (tracked_anime (mgr tracked_sys) ≠ []) as H2
    by (intros E; discriminate E).
  assert (run = (run.1, run.2)) as H3 by (by destruct run).
  split; [exact H1|]. split; [exact H2|]. split; [exact H3|].
  exact (click_on_empty_series_name monday_env (py "[SubsPlease]") tracked_sys
           run.2 run.1 H1 H2 H3).
Defined.

Lemma failed_click_changes_nothing_witness :
  let run := on_anime_clicked offline_env sample_title sample_sys in
  run = (Ok FeedUnavailable, run.2)
  ∧ FeedUnavailable ≠ StoppedTracking
  ∧ FeedUnavailable ≠ StartedDownloading
  ∧ tracked_anime (mgr run.2) = tracked_anime (mgr sample_sys)
  ∧ (∀ q, q ≠ SETTINGS_FILE →
          files (world run.2) !! q = files (world sample_sys) !! q)
  ∧ files (world run.2) !! TRACKED_FILE
    = files (world sample_sys) !! TRACKED_FILE.
Proof.
  intros run.
  assert (run = (Ok FeedUnavailable, run.2)) as H1 by (vm_compute; reflexivity).
  assert (FeedUnavailable ≠ StoppedTracking) as H2 by discriminate.
  assert (FeedUnavailable ≠ StartedDownloading) as H3 by discriminate.
  split; [exact H1|]. split; [exact H2|]. split; [exact H3|].
  exact (failed_click_changes_nothing offline_env sample_title sample_sys run.2
           FeedUnavailable H1 H2 H3).
Defined.

Lemma click_submissions_witness :
  let run := on_anime_clicked monday_env sample_title sample_sys in
  run = (run.1, run.2)
  ∧ ∃ subs,
      submissions (trace (world run.2))
      = submissions (trace (world sample_sys)) ++ subs
      ∧ match run.1 with
        | Ok StartedDownloading =>
            submits_clicked monday_env sample_title sample_sys subs
        | Ok FailedToStart | Raise _ =>
            subs = [] ∨ submits_clicked monday_env sample_title sample_sys subs
        | Ok _ => subs = []
        end.
Proof.
  intros run.
  assert (run = (run.1, run.2)) as H1 by (by destruct run).
  split; [exact H1|].
  exact (click_submissions monday_env sample_title sample_sys run.2 run.1 H1).
Defined.

Lemma click_after_failed_login_witness :
  let s1 := (setup_qbittorrent rejecting_env settings_sys).2 in
  let run := on_anime_clicked rejecting_env sample_title s1 in
  settings (mgr settings_sys) !! py "qb_host" = Some (py "http://127.0.0.1:8080")
  ∧ settings (mgr settings_sys) !! py "qb_username" = Some (py "admin")
  ∧ settings (mgr settings_sys) !! py "qb_password" = Some (py "adminadmin")
  ∧ setup_qbittorrent rejecting_env settings_sys = (Ok false, s1)
  ∧ run = (Ok StartedDownloading, run.2)
  ∧ qb_client (mgr s1)
    = Some (mk_Client (py "http://127.0.0.1:8080") (py "admin")
              (py "adminadmin"))
  ∧ Ok StartedDownloading ≠ Ok NotConnected
  ∧ logins (trace (world run.2)) = logins (trace (world s1)).
Proof.
  intros s1 run.
  assert (settings (mgr settings_sys) !! py "qb_host"
          = Some (py "http://127.0.0.1:8080")) as H1
    by (vm_compute; reflexivity).
  assert (settings (mgr settings_sys) !! py "qb_username"
          = Some (py "admin")) as H2 by (vm_compute; reflexivity).
  assert (settings (mgr settings_sys) !! py "qb_password"
          = Some (py "adminadmin")) as H3 by (vm_compute; reflexivity).
  assert (setup_qbittorrent rejecting_env settings_sys = (Ok false, s1)) as H4
    by (vm_compute; reflexivity).
  assert (run = (Ok StartedDownloading, run.2)) as H5
    by (vm_compute; reflexivity).
  split; [exact H1|]. split; [exact H2|]. split; [exact H3|].
  split; [exact H4|]. split; [exact H5|].
  exact (click_after_failed_login rejecting_env _ _ _ sample_title settings_sys
           s1 run.2 (Ok StartedDownloading) H1 H2 H3 H4 H5).
Defined.

Lemma check_series_status_outcome_witness :
  let q := Str.strip (Str.replace (py "[SubsPlease]") [] (py "X")) in
  (∅ : gmap pystr pystr) !! py "X" = None
  ∧ ∃ verdict cache',
      let s' := mk_Sys (mgr sample_sys)
                  (emit (EvHttpGet (py "https://api.jikan.moe/v4/anime"))
                     (tick (world sample_sys))) in
      check_series_status sample_out ∅ (py "X") sample_sys
      = (Ok (verdict, cache'), s')
      ∧ card_check_series_status sample_out (py "X") sample_sys
        = (Ok verdict, s')
      ∧ (verdict = Ended ∧ cache' = <[py "X" := Ended]> ∅
         ∨ verdict = Ongoing
           ∧ (cache' = ∅ ∨ cache' = <[py "X" := Ongoing]> ∅))
      ∧ match (status_lookup sample_out (py "X") sample_sys).1 with
        | Ok (Some found) => verdict = found ∧ cache' = <[py "X" := found]> ∅
        | Ok None | Raise _ => verdict = Ongoing ∧ cache' = ∅
        end
      ∧ (has_data (out_search sample_out (steps (world sample_sys)) q) = false →
         verdict = Ongoing ∧ cache' = ∅)
      ∧ (∀ remembered s2,
           cache' !! py "X" = Some remembered →
           check_series_status sample_out cache' (py "X") s2
           = (Ok (remembered, cache'), s2)).
Proof.
  intros q.
  assert ((∅ : gmap pystr pystr) !! py "X" = None) as H1 by reflexivity.
  split; [exact H1|].
  exact (check_series_status_outcome sample_out ∅ (py "X") sample_sys H1).
Defined.

Lemma update_countdown_no_match_witness :
  let show := JDict [(py "time", JStr (py "10:00"));
                     (py "title", JStr (py "X"))] in
  let schedule := [(py "monday", JList [show])] in
  let payload := [(py "schedule", JDict schedule)] in
  let s1 := (fetch_schedule monday_env sample_sys).2 in
  fetch_schedule monday_env sample_sys = (Ok (JDict payload), s1)
  ∧ Json.assoc (py "schedule") payload = Some (JDict schedule)
  ∧ Forall (other_day (py "Y")) schedule
  ∧ (update_countdown monday_env (py "Y") sample_sys).1
    = Ok (py "No scheduled episodes found").
Proof.
  intros show schedule payload s1.
  assert (fetch_schedule monday_env sample_sys = (Ok (JDict payload), s1))
    as H1 by reflexivity.
  assert (Json.assoc (py "schedule") payload = Some (JDict schedule)) as H2
    by reflexivity.
  assert (Forall (other_day (py "Y")) schedule) as H3.
  { repeat constructor. exists [show]. split; [reflexivity|].
    repeat constructor. eexists _, _. split_and!; reflexivity. }
  split; [exact H1|]. split; [exact H2|]. split; [exact H3|].
  exact (update_countdown_no_match monday_env (py "Y") sample_sys s1 payload
           schedule H1 H2 H3).
Defined.

End MoreSampleRuns.
